(** * ha-ezbeq: candidate search, selection and load workflows

    A shallow embedding of [custom_components/ezbeq/manual_load.py] and of
    the [load_beq_profile] service of [custom_components/ezbeq/services.py],
    with the properties of the candidate builder, of the identifier parser
    and of the three workflows proved over it.

    Conventions of the embedding.
    - Python [str] is [string], which holds the UTF-8 encoding of the
      text.  The characters that the source itself looks for (separators,
      quotes, line ends, the vertical bar) are single bytes that occur in
      no other character.  White space is that of [str.isspace], read on
      the encodings of its characters, and the length of a text is the
      number of its characters.  Lower case is that of the letters A..Z,
      which is [str.lower] on ASCII text.
    - Python [int] is [Z]; [int(s)] and its errors are those of CPython
      3.11 on ASCII digits.
    - A raised exception is the [Raise] constructor of [result]; the
      exception classes that occur are the constructors of [exn].
    - Python's [csv.reader] and [io.StringIO] are library code; they are
      embedded from CPython's [_csv.c] (3.11) for the dialect the source
      selects (the double quote as quote character,
      [skipinitialspace=True], no escape character, [doublequote], not
      [strict]); the reader's field size limit of 131072 characters is
      out of reach of the inputs, which are states of the host, and left
      out.
    - The host is an external collaborator: [hass.states] is a finite map
      from entity IDs to state records, [hass.data[domain]] a finite map
      from config entry IDs to session entries, and everything an observer
      can see happen is appended to a journal.  A write to the state
      registry is embedded for the IDs and states that the host takes as
      they are ([Host.accepts]).  The names of [const.py], which is not
      part of the sources at hand, are parameters ([Consts]). *)

From Stdlib Require Import ZArith Ascii DecimalString.
From Stdlib Require String.
From stdpp Require Import base option list strings gmap.

Local Open Scope Z_scope.
Set Warnings "-clear-no-such-hyp".

(** ** Exceptions and the error monad *)

Inductive exn :=
  | HomeAssistantError (msg : string)
  | csv_Error (msg : string)
  | AttributeError (msg : string).

Inductive result (A : Type) :=
  | Ok (a : A)
  | Raise (e : exn).
Arguments Ok {A} a.
Arguments Raise {A} e.

#[global] Instance result_ret : MRet result := λ A a, Ok a.
#[global] Instance result_bind : MBind result := λ A B k m,
  match m with
  | Ok a => k a
  | Raise e => Raise e
  end.

Definition is_Ok {A} (m : result A) : Prop := ∃ a, m = Ok a.

(** ** Python string primitives *)

Module Py.

(** [str.isspace] on one character, read on the bytes of its encoding.
    The characters are U+0009..000D, U+001C..0020 (one byte), U+0085 and
    U+00A0 (two bytes), U+1680, U+2000..200A, U+2028, U+2029, U+202F,
    U+205F and U+3000 (three bytes). *)
Definition isspace1 (a : ascii) : bool :=
  let n := nat_of_ascii a in
  ((9 <=? n)%nat && (n <=? 13)%nat) || ((28 <=? n)%nat && (n <=? 32)%nat).

Definition byte_is (k : nat) (a : ascii) : bool := (nat_of_ascii a =? k)%nat.

Definition byte_in (lo hi : nat) (a : ascii) : bool :=
  ((lo <=? nat_of_ascii a)%nat && (nat_of_ascii a <=? hi)%nat).

Definition isspace2 (a b : ascii) : bool :=
  byte_is 194 a && (byte_is 133 b || byte_is 160 b).

Definition isspace3 (a b c : ascii) : bool :=
  (byte_is 225 a && byte_is 154 b && byte_is 128 c)
  || (byte_is 226 a && byte_is 128 b
      && (byte_in 128 138 c || byte_is 168 c || byte_is 169 c
          || byte_is 175 c))
  || (byte_is 226 a && byte_is 129 b && byte_is 159 c)
  || (byte_is 227 a && byte_is 128 b && byte_is 128 c).

(** [s] is one white-space character *)
Definition space_char (s : string) : bool :=
  match s with
  | String a EmptyString => isspace1 a
  | String a (String b EmptyString) => isspace2 a b
  | String a (String b (String c EmptyString)) => isspace3 a b c
  | _ => false
  end.

(** [s] begins with a white-space character *)
Definition starts_space (s : string) : bool :=
  match s with
  | EmptyString => false
  | String a s1 =>
      isspace1 a
      || match s1 with
         | EmptyString => false
         | String b s2 =>
             isspace2 a b
             || match s2 with
                | EmptyString => false
                | String c _ => isspace3 a b c
                end
         end
  end.

(** [s.lstrip()]: the white-space characters in front are dropped *)
Fixpoint lstrip (s : string) : string :=
  match s with
  | EmptyString => EmptyString
  | String a s1 =>
      if isspace1 a then lstrip s1
      else match s1 with
           | EmptyString => s
           | String b s2 =>
               if isspace2 a b then lstrip s2
               else match s2 with
                    | EmptyString => s
                    | String c s3 => if isspace3 a b c then lstrip s3 else s
                    end
           end
  end.

(** [s.rstrip()]: what is left of [s] is white space from its first byte
    on exactly when that byte and what is left of the rest make up one
    white-space character *)
Fixpoint rstrip (s : string) : string :=
  match s with
  | EmptyString => EmptyString
  | String c s' =>
      let r := String c (rstrip s') in
      if space_char r then EmptyString else r
  end.

(** [s.strip()] *)
Definition strip (s : string) : string := rstrip (lstrip s).

(** [s.isascii()] *)
Fixpoint isascii (s : string) : bool :=
  match s with
  | EmptyString => true
  | String c s' => (nat_of_ascii c <? 128)%nat && isascii s'
  end.

(** [len(s)]: the bytes that begin a character are counted, those that
    continue one (128..191) are not *)
Fixpoint str_len (s : string) : Z :=
  match s with
  | EmptyString => 0
  | String c s' => (if byte_in 128 191 c then 0 else 1) + str_len s'
  end.

(** the first [n] characters of [s] *)
Fixpoint take_chars (n : nat) (s : string) : string :=
  match s with
  | EmptyString => EmptyString
  | String c s' =>
      if byte_in 128 191 c then String c (take_chars n s')
      else match n with
           | O => EmptyString
           | S m => String c (take_chars m s')
           end
  end.

(** [c.lower()] on the letters A..Z; [lower] is [str.lower] on the strings
    for which [isascii] holds.  No other character has o or n in its
    lower-case form, so that the comparison of [lower] with the text on is
    that of [str.lower] on every string. *)
Definition lower_char (c : ascii) : ascii :=
  let n := nat_of_ascii c in
  if ((65 <=? n)%nat && (n <=? 90)%nat) then ascii_of_nat (n + 32) else c.

(** [s.lower()] *)
Fixpoint lower (s : string) : string :=
  match s with
  | EmptyString => EmptyString
  | String c s' => String (lower_char c) (lower s')
  end.

(** [t.startswith(p)] *)
Fixpoint startswith (t p : string) : bool :=
  match p, t with
  | EmptyString, _ => true
  | String _ _, EmptyString => false
  | String a p', String b t' => if Ascii.eqb a b then startswith t' p' else false
  end.

(** [c in s] for a one-character [c] *)
Fixpoint contains (c : ascii) (s : string) : bool :=
  match s with
  | EmptyString => false
  | String a s' => Ascii.eqb a c || contains c s'
  end.

(** [sep.join(l)] *)
Fixpoint join (sep : string) (l : list string) : string :=
  match l with
  | [] => EmptyString
  | [x] => x
  | x :: xs => x +:+ sep +:+ join sep xs
  end.

(** truthiness of a [str] *)
Definition nonempty (s : string) : bool :=
  match s with EmptyString => false | _ => true end.

(** [a or b] on strings *)
Definition or_str (a b : string) : string := if nonempty a then a else b.

(** the lines [io.StringIO(s)] iterates over: split after every LF, the
    terminator kept (no newline translation takes place) *)
Fixpoint readlines (s : string) : list string :=
  match s with
  | EmptyString => []
  | String c s' =>
      if Ascii.eqb c "010" then String c EmptyString :: readlines s'
      else match readlines s' with
           | [] => [String c EmptyString]
           | l :: ls => String c l :: ls
           end
  end.

(** a byte that no white-space character holds: the printable ASCII
    characters *)
Definition printable (c : ascii) : bool := byte_in 33 126 c.

(** [results[:limit]] *)
Definition slice_to {A} (l : list A) (limit : Z) : list A :=
  if 0 <=? limit then take (Z.to_nat limit) l
  else take (Z.to_nat (Z.of_nat (length l) + limit)) l.

End Py.

(** ** [csv.reader] for the dialect of [_parse_values] *)

Module Csv.

Inductive ParserState :=
  | START_RECORD
  | START_FIELD
  | IN_FIELD
  | IN_QUOTED_FIELD
  | QUOTE_IN_QUOTED_FIELD
  | EAT_CRNL.

#[global] Instance ParserState_eq_dec : EqDecision ParserState.
Proof. solve_decision. Defined.

Record ReaderObj := mkReader {
  state : ParserState;
  fields : list string;
  field : string;
}.

Definition parse_reset : ReaderObj :=
  {| state := START_RECORD; fields := []; field := EmptyString |}.

Definition parse_add_char (self : ReaderObj) (c : ascii) : ReaderObj :=
  {| state := state self; fields := fields self;
     field := field self +:+ String c EmptyString |}.

Definition parse_save_field (self : ReaderObj) : ReaderObj :=
  {| state := state self; fields := fields self ++ [field self];
     field := EmptyString |}.

Definition set_state (self : ReaderObj) (s : ParserState) : ReaderObj :=
  {| state := s; fields := fields self; field := field self |}.

Definition quotechar : ascii := "034"%char.
Definition LF : ascii := "010"%char.
Definition CR : ascii := "013"%char.
Definition SP : ascii := " "%char.

Definition is_nl (c : ascii) : bool := Ascii.eqb c LF || Ascii.eqb c CR.

(** the text of the error that a character after a carriage return inside
    a line raises (CPython 3.11 and 3.12) *)
Definition new_line_seen : string :=
  "new-line character seen in unquoted field - do you need to open the file in universal-newline mode?".

(** One step of [parse_process_char]; [None] is the end-of-line marker
    the reader feeds after every line. *)
Definition start_field (delimiter : ascii) (self : ReaderObj)
    (c : option ascii) : result ReaderObj :=
  match c with
  | None => Ok (set_state (parse_save_field self) START_RECORD)
  | Some ch =>
      if is_nl ch then Ok (set_state (parse_save_field self) EAT_CRNL)
      else if Ascii.eqb ch quotechar then Ok (set_state self IN_QUOTED_FIELD)
      else if Ascii.eqb ch SP then Ok self
      else if Ascii.eqb ch delimiter then Ok (parse_save_field self)
      else Ok (set_state (parse_add_char self ch) IN_FIELD)
  end.

Definition parse_process_char (delimiter : ascii) (self : ReaderObj)
    (c : option ascii) : result ReaderObj :=
  match state self with
  | START_RECORD =>
      match c with
      | None => Ok self
      | Some ch =>
          if is_nl ch then Ok (set_state self EAT_CRNL)
          else start_field delimiter (set_state self START_FIELD) c
      end
  | START_FIELD => start_field delimiter self c
  | IN_FIELD =>
      match c with
      | None => Ok (set_state (parse_save_field self) START_RECORD)
      | Some ch =>
          if is_nl ch then Ok (set_state (parse_save_field self) EAT_CRNL)
          else if Ascii.eqb ch delimiter
               then Ok (set_state (parse_save_field self) START_FIELD)
          else Ok (parse_add_char self ch)
      end
  | IN_QUOTED_FIELD =>
      match c with
      | None => Ok self
      | Some ch =>
          if Ascii.eqb ch quotechar then Ok (set_state self QUOTE_IN_QUOTED_FIELD)
          else Ok (parse_add_char self ch)
      end
  | QUOTE_IN_QUOTED_FIELD =>
      match c with
      | None => Ok (set_state (parse_save_field self) START_RECORD)
      | Some ch =>
          if Ascii.eqb ch quotechar
          then Ok (set_state (parse_add_char self ch) IN_QUOTED_FIELD)
          else if Ascii.eqb ch delimiter
               then Ok (set_state (parse_save_field self) START_FIELD)
          else if is_nl ch
               then Ok (set_state (parse_save_field self) EAT_CRNL)
          else Ok (set_state (parse_add_char self ch) IN_FIELD)
      end
  | EAT_CRNL =>
      match c with
      | None => Ok (set_state self START_RECORD)
      | Some ch =>
          if is_nl ch then Ok self
          else Raise (csv_Error new_line_seen)
      end
  end.

(** the [while (linelen--)] loop over the characters of one line *)
Fixpoint process_chars (delimiter : ascii) (self : ReaderObj)
    (line : string) : result ReaderObj :=
  match line with
  | EmptyString => Ok self
  | String c rest =>
      self' ← parse_process_char delimiter self (Some c);
      process_chars delimiter self' rest
  end.

(** one line, then the end-of-line marker *)
Definition process_line (delimiter : ascii) (self : ReaderObj)
    (line : string) : result ReaderObj :=
  self' ← process_chars delimiter self line;
  parse_process_char delimiter self' None.

(** [list(reader)]: the rows that the successive calls of
    [Reader_iternext] return.  [self] is the parser between two lines: it
    is [parse_reset] when a record has just been returned, and otherwise
    the state of a record that continues on the next line.  When the
    input ends inside a record, the pending field is saved and the record
    returned. *)
Fixpoint reader_rows (delimiter : ascii) (lines : list string)
    (self : ReaderObj) : result (list (list string)) :=
  match lines with
  | [] =>
      if bool_decide (field self ≠ EmptyString)
         || bool_decide (state self = IN_QUOTED_FIELD)
      then Ok [fields (parse_save_field self)]
      else Ok []
  | line :: rest =>
      self' ← process_line delimiter self line;
      if bool_decide (state self' = START_RECORD)
      then rows ← reader_rows delimiter rest parse_reset;
           Ok (fields self' :: rows)
      else reader_rows delimiter rest self'
  end.

(** [csv.reader(StringIO(text), delimiter=d, skipinitialspace=True)] with
    the double quote as quote character, read to the end *)
Definition reader (delimiter : ascii) (text : string)
    : result (list (list string)) :=
  reader_rows delimiter (Py.readlines text) parse_reset.

End Csv.

(** ** Helpers of [manual_load.py] *)

Definition CATALOG_CACHE_TTL : Z := 7 * 24 * 3600.
Definition DEFAULT_LIMIT : Z := 10.

(** [_normalize(value)] *)
Definition _normalize (value : option string) : string :=
  Py.lower (Py.strip (default EmptyString value)).

(** the two nested [for] loops of [_parse_values] *)
Definition collect_cells (rows : list (list string)) : list string :=
  filter (λ cell, Py.nonempty cell = true) (Py.strip <$> concat rows).

Definition choose_delimiter (text : string) : ascii :=
  if Py.contains ";" text && negb (Py.contains "," text) then ";"%char
  else ","%char.

(** [_parse_values(raw)] *)
Definition _parse_values (raw : option string) : result (list string) :=
  match raw with
  | None => Ok []
  | Some raw =>
      if negb (Py.nonempty raw) then Ok []
      else
        let text := Py.strip raw in
        if negb (Py.nonempty text) then Ok []
        else
          rows ← Csv.reader (choose_delimiter text) text;
          Ok (collect_cells rows)
  end.

(** ** Catalogue items and candidates *)

(** A JSON field that the source reads with [_as_list], [_as_list_strict]
    or the author logic: absent or null, a string, or an array of
    strings. *)
Inductive jfield :=
  | JNull
  | JString (s : string)
  | JArray (l : list string).

(** truthiness of such a value *)
Definition truthy (v : jfield) : bool :=
  match v with
  | JNull => false
  | JString s => Py.nonempty s
  | JArray l => match l with [] => false | _ => true end
  end.

(** [a or b] *)
Definition or_field (a b : jfield) : jfield := if truthy a then a else b.

(** One record of the catalogue.  A scalar field is [None] when the key is
    absent and otherwise holds the value as a string (for [theMovieDB],
    [year] and [mv]: its [str()] rendering). *)
Record item := mkItem {
  theMovieDB : option string;
  title : option string;
  altTitle : option string;
  year : option string;
  edition : option string;
  audioTypes : jfield;
  genres : jfield;
  genre : jfield;
  author : jfield;
  authors : jfield;
  mv : option string;
  warning : option string;
  note : option string;
  images : jfield;
  source : option string;
  content_type : option string;
  language : option string;
}.

(** The dict that [add_item] appends, one field per key. *)
Record candidate := mkCandidate {
  c_key : string;
  c_label : string;
  c_tmdb_id : string;
  c_title : string;
  c_alt_title : string;
  c_year : option string;
  c_edition : string;
  c_edition_display : string;
  c_audio_type : string;
  c_audio_types : list string;
  c_audio_types_text : string;
  c_author : string;
  c_mv : option string;
  c_warning : string;
  c_note : string;
  c_image1 : option string;
  c_image2 : option string;
  c_source : string;
  c_content_type : string;
  c_language : string;
  c_genres : list string;
  c_genres_text : string;
}.

(** [item.get(k, "")] on a scalar field *)
Definition get_str (v : option string) : string := default EmptyString v.

(** [_starts_with_any(text, prefixes)] *)
Definition _starts_with_any (text : string) (prefixes : list string) : bool :=
  let t := _normalize (Some text) in
  existsb (λ p, Py.startswith t (_normalize (Some p)))
          (filter (λ p, Py.nonempty p = true) prefixes).

(** [_as_list(value)] *)
Definition _as_list (value : jfield) : list string :=
  match value with
  | JNull => []
  | JArray l => l
  | JString s => [s]
  end.

(** [_as_list_strict(value)] *)
Definition _as_list_strict (value : jfield) : result (list string) :=
  match value with
  | JNull => Ok []
  | JArray l =>
      Ok (filter (λ v, Py.nonempty v = true) (Py.strip <$> l))
  | JString s =>
      parsed ← _parse_values (Some s);
      match parsed with
      | _ :: _ => Ok parsed
      | [] => Ok (if Py.nonempty (Py.strip s) then [Py.strip s] else [])
      end
  end.

(** the author component of the key *)
Definition key_author (v : jfield) : string :=
  match v with
  | JString s => s
  | JArray l => Py.join "," l
  | JNull => EmptyString
  end.

(** [_candidate_key(item, audio)] *)
Definition _candidate_key (it : item) (audio : string) : string :=
  Py.join "|"
    [ Py.strip (get_str (theMovieDB it));
      Py.strip (get_str (title it));
      Py.strip (get_str (edition it));
      Py.strip audio;
      key_author (author it) ].

(** [_first_image(item)] *)
Definition _first_image (it : item) : option string * option string :=
  match _as_list (images it) with
  | [] => (None, None)
  | [a] => (Some a, None)
  | a :: b :: _ => (Some a, Some b)
  end.

(** the [author] local of [add_item] *)
Definition display_author (it : item) : string :=
  match or_field (author it) (authors it) with
  | JArray l => Py.join ", " (filter (λ a, Py.nonempty a = true) l)
  | JString s => s
  | JNull => EmptyString
  end.

Definition edition_raw (it : item) : string := get_str (edition it).

Definition edition_display (it : item) : string :=
  Py.or_str (edition_raw it) "—".

(** the f-string of the [label] entry *)
Definition label_of (it : item) (audio : string) : string :=
  default "?" (title it) +:+ " (" +:+ default "?" (year it) +:+ ") • "
  +:+ edition_display it +:+ " • " +:+ Py.or_str audio "Unknown"
  +:+ " • " +:+ Py.or_str (display_author it) "n/a".

(** the dict literal of [add_item] *)
Definition make_candidate (it : item) (audio_types_list genres_list : list string)
    (audio : string) : candidate :=
  {| c_key := _candidate_key it audio;
     c_label := label_of it audio;
     c_tmdb_id := get_str (theMovieDB it);
     c_title := get_str (title it);
     c_alt_title := get_str (altTitle it);
     c_year := year it;
     c_edition := edition_raw it;
     c_edition_display := edition_display it;
     c_audio_type := audio;
     c_audio_types := audio_types_list;
     c_audio_types_text := Py.join ", " audio_types_list;
     c_author := display_author it;
     c_mv := mv it;
     c_warning := get_str (warning it);
     c_note := get_str (note it);
     c_image1 := (_first_image it).1;
     c_image2 := (_first_image it).2;
     c_source := get_str (source it);
     c_content_type := get_str (content_type it);
     c_language := get_str (language it);
     c_genres := genres_list;
     c_genres_text := Py.join ", " genres_list |}.

(** ** [_build_candidates] *)

(** the two locals that [add_item] closes over: [results] and [seen_keys] *)
Record acc := mkAcc {
  results : list candidate;
  seen_keys : gset string;
}.

(** the [for audio in audio_types_list] loop of [add_item] *)
Fixpoint add_audio (it : item) (audio_types_list genres_list : list string)
    (todo : list string) (a : acc) : acc :=
  match todo with
  | [] => a
  | audio :: rest =>
      let key := _candidate_key it audio in
      if decide (key ∈ seen_keys a)
      then add_audio it audio_types_list genres_list rest a
      else add_audio it audio_types_list genres_list rest
             {| results := results a
                  ++ [make_candidate it audio_types_list genres_list audio];
                seen_keys := {[key]} ∪ seen_keys a |}
  end.

(** [audio_types_list] after the empty-list default *)
Definition audio_types_of (it : item) : result (list string) :=
  l ← _as_list_strict (audioTypes it);
  Ok (match l with [] => [EmptyString] | _ => l end).

Definition genres_of (it : item) : result (list string) :=
  _as_list_strict (or_field (genres it) (genre it)).

(** [add_item(item)] *)
Definition add_item (it : item) (a : acc) : result acc :=
  audio_types_list ← audio_types_of it;
  genres_list ← genres_of it;
  Ok (add_audio it audio_types_list genres_list audio_types_list a).

(** the test of the ID pass *)
Definition id_matches (tmdb_ids_norm : gset string) (it : item) : bool :=
  bool_decide (Py.strip (get_str (theMovieDB it)) ∈ tmdb_ids_norm).

(** the test of the prefix pass *)
Definition prefix_matches (prefixes_norm : list string) (it : item) : bool :=
  _starts_with_any (get_str (title it)) prefixes_norm
  || _starts_with_any (get_str (altTitle it)) prefixes_norm.

(** the first [for item in items] loop *)
Fixpoint id_pass (tmdb_ids_norm : gset string) (items : list item) (a : acc)
    : result acc :=
  match items with
  | [] => Ok a
  | it :: rest =>
      if id_matches tmdb_ids_norm it
      then a' ← add_item it a; id_pass tmdb_ids_norm rest a'
      else id_pass tmdb_ids_norm rest a
  end.

(** the second [for item in items] loop, with its [break] *)
Fixpoint prefix_pass (prefixes_norm : list string) (limit : Z)
    (items : list item) (a : acc) : result acc :=
  match items with
  | [] => Ok a
  | it :: rest =>
      if limit <=? Z.of_nat (length (results a)) then Ok a
      else if prefix_matches prefixes_norm it
      then a' ← add_item it a; prefix_pass prefixes_norm limit rest a'
      else prefix_pass prefixes_norm limit rest a
  end.

Definition normalize_ids (tmdb_ids : list string) : gset string :=
  list_to_set (filter (λ t, Py.nonempty t = true) (Py.strip <$> tmdb_ids)).

Definition normalize_prefixes (title_prefixes : list string) : list string :=
  (λ p, _normalize (Some p))
    <$> filter (λ p, Py.nonempty (Py.strip p) = true) title_prefixes.

(** the state of [results] and [seen_keys] when the two passes are over *)
Definition scan (items : list item) (tmdb_ids title_prefixes : list string)
    (limit : Z) : result acc :=
  let tmdb_ids_norm := normalize_ids tmdb_ids in
  let prefixes_norm := normalize_prefixes title_prefixes in
  let a0 := {| results := []; seen_keys := ∅ |} in
  a1 ← (if bool_decide (tmdb_ids_norm ≠ ∅)
        then id_pass tmdb_ids_norm items a0 else Ok a0);
  if bool_decide (prefixes_norm ≠ [])
     && (Z.of_nat (length (results a1)) <? limit)
  then prefix_pass prefixes_norm limit items a1
  else Ok a1.

(** [_build_candidates(items, tmdb_ids, title_prefixes, limit)] *)
Definition _build_candidates (items : list item)
    (tmdb_ids title_prefixes : list string) (limit : Z)
    : result (list candidate) :=
  a ← scan items tmdb_ids title_prefixes limit;
  Ok (Py.slice_to (results a) limit).

(** ** The host: state registry, session data, observable effects *)

(** values of state attributes and of service data *)
Inductive pyval :=
  | VNone
  | VStr (s : string)
  | VInt (z : Z)
  | VBool (b : bool)
  | VList (l : list string).

Module Repr.

Definition backslash : ascii := "092"%char.
Definition dquote : ascii := "034"%char.
Definition squote : ascii := "039"%char.

Definition hex_digit (n : nat) : ascii :=
  if (n <? 10)%nat then ascii_of_nat (48 + n) else ascii_of_nat (87 + n).

Definition escaped (c : ascii) : string := String backslash (String c EmptyString).

(** one character of [repr(s)] *)
Definition escape (quote c : ascii) : string :=
  let n := nat_of_ascii c in
  if Ascii.eqb c quote || Ascii.eqb c backslash then escaped c
  else if Ascii.eqb c "010" then escaped "n"
  else if Ascii.eqb c "013" then escaped "r"
  else if Ascii.eqb c "009" then escaped "t"
  else if (n <? 32)%nat || (n =? 127)%nat
       then escaped "x" +:+ String (hex_digit (n / 16))
                             (String (hex_digit (n mod 16)) EmptyString)
  else String c EmptyString.

Fixpoint escape_all (quote : ascii) (s : string) : string :=
  match s with
  | EmptyString => EmptyString
  | String c r => escape quote c +:+ escape_all quote r
  end.

(** [repr(s)] of a [str] whose characters beyond ASCII are printable *)
Definition repr_str (s : string) : string :=
  let quote : ascii :=
    if Py.contains squote s && negb (Py.contains dquote s) then dquote
    else squote in
  String quote (escape_all quote s) +:+ String quote EmptyString.

(** [str(v)] *)
Definition str (v : pyval) : string :=
  match v with
  | VNone => "None"
  | VStr s => s
  | VInt z => NilZero.string_of_int (Z.to_int z)
  | VBool b => if b then "True" else "False"
  | VList l => "[" +:+ Py.join ", " (repr_str <$> l) +:+ "]"
  end.

Definition digit_val (c : ascii) : option Z :=
  let n := nat_of_ascii c in
  if (48 <=? n)%nat && (n <=? 57)%nat then Some (Z.of_nat (n - 48)) else None.

(** [sys.int_info.default_max_str_digits] *)
Definition max_str_digits : N := 4300.

(** the white space that [int] skips: TAB..CR and SPACE, and the
    white-space characters beyond ASCII; FS..US are not skipped *)
Definition int_space1 (a : ascii) : bool :=
  Py.byte_in 9 13 a || Py.byte_is 32 a.

Fixpoint int_lstrip (s : string) : string :=
  match s with
  | EmptyString => EmptyString
  | String a s1 =>
      if int_space1 a then int_lstrip s1
      else match s1 with
           | EmptyString => s
           | String b s2 =>
               if Py.isspace2 a b then int_lstrip s2
               else match s2 with
                    | EmptyString => s
                    | String c s3 =>
                        if Py.isspace3 a b c then int_lstrip s3 else s
                    end
           end
  end.

(** the digits and underscores that [s] begins with: the value, the number
    of digits and the text that follows; [None] when two underscores meet
    or an underscore is the last of them *)
Fixpoint int_digits (s : string) (acc : Z) (digits : N) (after_underscore : bool)
    : option (Z * N * string) :=
  match s with
  | EmptyString =>
      if after_underscore then None else Some (acc, digits, EmptyString)
  | String c r =>
      match digit_val c with
      | Some d => int_digits r (10 * acc + d) (N.succ digits) false
      | None =>
          if Ascii.eqb c "_"
          then if after_underscore then None else int_digits r acc digits true
          else if after_underscore then None else Some (acc, digits, s)
      end
  end.

(** what [int] finds in a text (CPython 3.11): white space, a sign, a digit,
    digits with single underscores between them, of which there may be
    [max_str_digits] at most, and white space to the end *)
Inductive literal :=
  | Invalid
  | TooLong (digits : N)
  | Value (z : Z).

Definition int_unsigned (u : string) (sign : Z) : literal :=
  match u with
  | EmptyString => Invalid
  | String c _ =>
      match digit_val c with
      | None => Invalid
      | Some _ =>
          match int_digits u 0 0 false with
          | None => Invalid
          | Some (z, digits, rest) =>
              if (max_str_digits <? digits)%N then TooLong digits
              else if Py.nonempty (int_lstrip rest) then Invalid
              else Value (sign * z)
          end
      end
  end.

Definition int_literal (s : string) : literal :=
  match int_lstrip s with
  | String "+" r => int_unsigned r 1
  | String "-" r => int_unsigned r (-1)
  | t => int_unsigned t 1
  end.

(** [int(s)] of a [str]; [None] stands for [ValueError].  The digits read
    are 0..9: where a value is returned, [int(s)] returns it, and where
    none is returned and [s] is ASCII, [int(s)] raises. *)
Definition int (s : string) : option Z :=
  match int_literal s with
  | Value z => Some z
  | _ => None
  end.

(** the text of the [ValueError] of [int(s)]; the rendering of [s] is cut
    after 200 characters *)
Definition int_error (s : string) : string :=
  match int_literal s with
  | TooLong digits =>
      "Exceeds the limit (4300 digits) for integer string conversion: value has "
      +:+ NilZero.string_of_uint (N.to_uint digits)
      +:+ " digits; use sys.set_int_max_str_digits() to increase the limit"
  | _ =>
      "invalid literal for int() with base 10: "
      +:+ Py.take_chars 200 (repr_str s)
  end.

End Repr.

(** a [dict] with string keys, in insertion order *)
Definition dict (V : Type) := list (string * V).

Definition dict_get {V} (d : dict V) (k : string) : option V :=
  snd <$> List.find (λ kv, String.eqb kv.1 k) d.

(** [d[k] = v]: an existing key keeps its position *)
Fixpoint dict_set {V} (d : dict V) (k : string) (v : V) : dict V :=
  match d with
  | [] => [(k, v)]
  | (k', v') :: r =>
      if String.eqb k' k then (k, v) :: r else (k', v') :: dict_set r k v
  end.

Definition dict_values {V} (d : dict V) : list V := snd <$> d.

(** one entry of [hass.states] *)
Record State := mkState {
  st_state : string;
  st_attributes : dict pyval;
}.

(** [hass.data[domain][entry_id]]; [last_candidates] is [None] while the
    key is absent (the select platform creates the entry without it) *)
Record DomainEntry := mkEntry {
  candidate_options : list string;
  selected_label : string;
  last_candidates : option (dict candidate);
}.

(** the request of the external profile loader *)
Record SearchRequest := mkRequest {
  r_tmdb : string;
  r_year : Z;
  r_codec : string;
  r_preferred_author : pyval;
  r_edition : string;
  r_slots : list Z;
  r_title : string;
}.

(** what an observer of the host can see happen, in order *)
Inductive event :=
  | StateWritten (entity_id : string) (st : State)
  | SignalSent (signal : string)
  | CatalogRequested
  | ProfileLoadRequested (req : SearchRequest).

(** [data] is [hass.data[domain]], keyed by the config entry id;
    [catalog_cache] is its entry of that name, timestamp and items *)
Record Hass := mkHass {
  states : gmap string State;
  data : gmap string DomainEntry;
  catalog_cache : option (Z * list item);
  journal : list event;
}.

(** the body of the catalogue response: the request failed; a list of
    records; an object that holds a list of records, not empty, under the
    key [titles]; an object without that key, whose values are records; or
    a value that is neither a list nor an object *)
Inductive response :=
  | FetchFailed
  | JsonList (l : list item)
  | JsonTitles (t : item) (ts : list item)
  | JsonRecords (values : list item)
  | JsonOther.

(** what the outside world answers during one invocation: the clock, the
    catalogue server and the profile loader ([Some e]: it raised [e]) *)
Record Env := mkEnv {
  utc_timestamp : string;
  time_time : Z;
  catalog_response : response;
  client_load_beq_profile : SearchRequest → option string;
}.

(** [call.data] of the three services *)
Record ServiceCall := mkCall {
  d_limit : option Z;
  d_label : option string;
  d_tmdb_sensor : option string;
  d_year_sensor : option string;
  d_codec_sensor : option string;
  d_edition_sensor : option string;
  d_title_sensor : option string;
  d_slots : option (list Z);
  d_enable_audio_codec_substitutions : option bool;
}.

(** [call.data] of [load_beq_profile] as the load workflow builds it: every
    key is present, the optional ones possibly with the value [None] *)
Record Payload := mkPayload {
  p_tmdb_sensor : option string;
  p_year_sensor : option string;
  p_codec_sensor : option string;
  p_edition_sensor : option string;
  p_title_sensor : option string;
  p_preferred_author : pyval;
  p_slots : list Z;
  p_enable_audio_codec_substitutions : bool;
  p_manual_load : bool;
}.

(** what the host takes in [hass.states.async_set]: an entity ID of the
    form domain.object_id (lower-case letters, digits and underscores, no
    underscore in front or at the end of a part, no doubled underscore),
    which is its own lower-case form, and a state of at most 255
    characters.  Another ID or a longer state is refused or stored
    otherwise, as the version of the host has it. *)
Module Host.

Definition is_underscore (c : ascii) : bool := Py.byte_is 95 c.

Definition slug_char (c : ascii) : bool :=
  Py.byte_in 97 122 c || Py.byte_in 48 57 c || is_underscore c.

(** the characters that follow [prev] in a part *)
Fixpoint slug_rest (prev : ascii) (s : string) : bool :=
  match s with
  | EmptyString => negb (is_underscore prev)
  | String c r =>
      slug_char c && negb (is_underscore prev && is_underscore c)
      && slug_rest c r
  end.

Definition slug (s : string) : bool :=
  match s with
  | EmptyString => false
  | String c r => slug_char c && negb (is_underscore c) && slug_rest c r
  end.

(** the text before and after the first full stop *)
Fixpoint split_dot (s : string) : option (string * string) :=
  match s with
  | EmptyString => None
  | String c r =>
      if Ascii.eqb c "."%char then Some (EmptyString, r)
      else match split_dot r with
           | Some (d, o) => Some (String c d, o)
           | None => None
           end
  end.

Definition valid_entity_id (entity_id : string) : bool :=
  match split_dot entity_id with
  | Some (domain, object_id) => slug domain && slug object_id
  | None => false
  end.

Definition MAX_LENGTH_STATE_STATE : Z := 255.

Definition valid_state (state : string) : bool :=
  Py.str_len state <=? MAX_LENGTH_STATE_STATE.

(** the write of [state] to [entity_id] is taken as it is *)
Definition accepts (entity_id state : string) : bool :=
  valid_entity_id entity_id && valid_state state.

(** an ID that [hass.states.get] looks up as it is written: ASCII without
    capital letters *)
Definition plain_id (entity_id : string) : bool :=
  Py.isascii entity_id && String.eqb (Py.lower entity_id) entity_id.

(** a key of the service data that holds such an ID, or none *)
Definition plain_key (k : option string) : bool :=
  match k with
  | Some entity_id => plain_id entity_id
  | None => true
  end.

End Host.

(** the names imported from [const.py] *)
Class Consts := {
  DOMAIN : string;
  SENSOR_TMDB_IDS : string;
  SENSOR_TITLES : string;
  SWITCH_SEARCH_ENABLED : string;
  SENSOR_DETAILS : string;
  SENSOR_STATUS : string;
  SIGNAL_UPDATE_SELECT : string;
}.

(** a computation on the host that may raise; what it did before raising
    stays done *)
Definition M (A : Type) : Type := Hass → result A * Hass.

#[global] Instance M_ret : MRet M := λ A a hass, (Ok a, hass).
#[global] Instance M_bind : MBind M := λ A B k m hass,
  match m hass with
  | (Ok a, hass') => k a hass'
  | (Raise e, hass') => (Raise e, hass')
  end.

Definition raise {A} (e : exn) : M A := λ hass, (Raise e, hass).
Definition lift {A} (r : result A) : M A := λ hass, (r, hass).
Definition emit (ev : event) : M unit := λ hass,
  (Ok (), {| states := states hass; data := data hass;
             catalog_cache := catalog_cache hass;
             journal := journal hass ++ [ev] |}).

Section Workflows.
Context `{Consts}.

(** [_signal_name(entry_id)] *)
Definition _signal_name (entry_id : string) : string :=
  SIGNAL_UPDATE_SELECT +:+ "_" +:+ entry_id.

(** [hass.states.async_set(entity_id, new_state, attributes)], for a write
    that the host takes ([Host.accepts]): the IDs and states that the
    source writes as constants, and the others under that condition *)
Definition states_async_set (entity_id : string) (new_state : pyval)
    (attrs : dict pyval) : M unit := λ hass,
  let st := {| st_state := Repr.str new_state; st_attributes := attrs |} in
  (Ok (), {| states := <[entity_id := st]> (states hass);
             data := data hass;
             catalog_cache := catalog_cache hass;
             journal := journal hass ++ [StateWritten entity_id st] |}).

(** [hass.states.get(entity_id)] *)
Definition states_get (entity_id : string) : M (option State) := λ hass,
  (Ok (states hass !! entity_id), hass).

(** [async_dispatcher_send(hass, signal)] *)
Definition async_dispatcher_send (signal : string) : M unit :=
  emit (SignalSent signal).

(** the literal that every [setdefault] of [manual_load.py] passes *)
Definition default_entry : DomainEntry :=
  {| candidate_options := ["none"]; selected_label := "none";
     last_candidates := Some [] |}.

(** [hass.data.setdefault(domain, {}).setdefault(entry_id, {...})] *)
Definition setdefault_entry (entry_id : string) : M unit := λ hass,
  match data hass !! entry_id with
  | Some _ => (Ok (), hass)
  | None =>
      (Ok (), {| states := states hass;
                 data := <[entry_id := default_entry]> (data hass);
                 catalog_cache := catalog_cache hass;
                 journal := journal hass |})
  end.

(** reading the shared [domain_entry] dict *)
Definition get_entry (entry_id : string) : M DomainEntry := λ hass,
  (Ok (default default_entry (data hass !! entry_id)), hass).

(** an assignment to a key of the shared [domain_entry] dict *)
Definition update_entry (entry_id : string) (f : DomainEntry → DomainEntry)
    : M unit := λ hass,
  (Ok (), {| states := states hass;
             data := <[entry_id := f (default default_entry (data hass !! entry_id))]>
                       (data hass);
             catalog_cache := catalog_cache hass;
             journal := journal hass |}).

Definition set_candidate_options (l : list string) (e : DomainEntry) : DomainEntry :=
  {| candidate_options := l; selected_label := selected_label e;
     last_candidates := last_candidates e |}.
Definition set_selected_label (s : string) (e : DomainEntry) : DomainEntry :=
  {| candidate_options := candidate_options e; selected_label := s;
     last_candidates := last_candidates e |}.
Definition set_last_candidates (d : dict candidate) (e : DomainEntry) : DomainEntry :=
  {| candidate_options := candidate_options e;
     selected_label := selected_label e; last_candidates := Some d |}.

(** [_is_search_enabled(hass)] *)
Definition _is_search_enabled (hass : Hass) : bool :=
  match states hass !! SWITCH_SEARCH_ENABLED with
  | None => true
  | Some st => String.eqb (Py.lower (st_state st)) "on"
  end.

(** the call [_is_search_enabled(hass)] inside a workflow *)
Definition search_enabled : M bool := λ hass,
  (Ok (_is_search_enabled hass), hass).

(** [_set_sensor(hass, entity_id, state, **attrs)] *)
Definition _set_sensor (entity_id : string) (state : pyval)
    (attrs : dict pyval) : M unit :=
  states_async_set entity_id state attrs.

(** [attrs.update(extra_attrs)] *)
Definition dict_update {V} (d extra : dict V) : dict V :=
  foldl (λ acc kv, dict_set acc kv.1 kv.2) d extra.

(** [_set_status(hass, stage, reason=, candidates=, selected=, **extra)] *)
Definition _set_status (env : Env) (stage reason : string)
    (candidates : option Z) (selected : option string)
    (extra_attrs : dict pyval) : M unit :=
  let attrs : dict pyval :=
    [("stage", VStr stage); ("reason", VStr reason);
     ("last_updated", VStr (utc_timestamp env))] in
  let attrs := match candidates with
               | Some n => dict_set attrs "candidates" (VInt n)
               | None => attrs
               end in
  let attrs := match selected with
               | Some l => dict_set attrs "selected" (VStr l)
               | None => attrs
               end in
  _set_sensor SENSOR_STATUS (VStr stage) (dict_update attrs extra_attrs).

(** [_clear_manual_state(hass, domain_entry, entry_id)] *)
Definition _clear_manual_state (env : Env) (entry_id : string) : M unit :=
  update_entry entry_id (set_candidate_options ["disabled"]);;
  update_entry entry_id (set_selected_label "disabled");;
  update_entry entry_id (set_last_candidates []);;
  async_dispatcher_send (_signal_name entry_id);;
  _set_sensor SENSOR_DETAILS (VStr "disabled")
    [("last_updated", VStr (utc_timestamp env))].

(** storing the cache entry *)
Definition store_cache (now : Z) (items : list item) : M unit := λ hass,
  (Ok (), {| states := states hass; data := data hass;
             catalog_cache := Some (now, items);
             journal := journal hass |}).

(** [_get_catalog_items(hass, domain)]; [None] is the [None] it returns *)
Definition _get_catalog_items (env : Env) : M (option (list item)) := λ hass,
  let now := time_time env in
  let items :=
    match catalog_cache hass with
    | Some (ts, cached) => if now - ts <? CATALOG_CACHE_TTL then Some cached else None
    | None => None
    end in
  match items with
  | Some l => (Ok (Some l), hass)
  | None =>
      (emit CatalogRequested;;
       match catalog_response env with
       | FetchFailed => mret None
       | JsonList l => store_cache now l;; mret (Some l)
       | JsonTitles t ts => store_cache now (t :: ts);; mret (Some (t :: ts))
       | JsonRecords values => store_cache now values;; mret (Some values)
       | JsonOther => mret None
       end) hass
  end.
(** ** The services *)

Definition opt_val (v : option string) : pyval :=
  match v with Some s => VStr s | None => VNone end.

(** [{k: v for k, v in c.items() if k not in ("label",)}] *)
Definition candidate_attrs (c : candidate) : dict pyval :=
  [("key", VStr (c_key c));
   ("tmdb_id", VStr (c_tmdb_id c));
   ("title", VStr (c_title c));
   ("alt_title", VStr (c_alt_title c));
   ("year", opt_val (c_year c));
   ("edition", VStr (c_edition c));
   ("edition_display", VStr (c_edition_display c));
   ("audio_type", VStr (c_audio_type c));
   ("audio_types", VList (c_audio_types c));
   ("audio_types_text", VStr (c_audio_types_text c));
   ("author", VStr (c_author c));
   ("mv", opt_val (c_mv c));
   ("warning", VStr (c_warning c));
   ("note", VStr (c_note c));
   ("image1", opt_val (c_image1 c));
   ("image2", opt_val (c_image2 c));
   ("source", VStr (c_source c));
   ("content_type", VStr (c_content_type c));
   ("language", VStr (c_language c));
   ("genres", VList (c_genres c));
   ("genres_text", VStr (c_genres_text c))].

(** the detail record of a candidate *)
Definition set_details (env : Env) (c : candidate) : M unit :=
  _set_sensor SENSOR_DETAILS (VStr (c_label c))
    (dict_set (candidate_attrs c) "last_updated" (VStr (utc_timestamp env))).

(** [{c["key"]: c for c in candidates}] *)
Definition by_key (candidates : list candidate) : dict candidate :=
  foldl (λ d c, dict_set d (c_key c) c) [] candidates.

Definition len {A} (l : list A) : Z := Z.of_nat (length l).

(** [not tmdb_ids and not titles] *)
Definition no_input (tmdb_ids titles : list string) : bool :=
  match tmdb_ids, titles with
  | [], [] => true
  | _, _ => false
  end.

(** [not catalog] *)
Definition not_catalog (catalog : option (list item)) : bool :=
  match catalog with
  | None | Some [] => true
  | Some (_ :: _) => false
  end.

(** the branch of [_service_find_candidates] without identifiers *)
Definition find_waiting (env : Env) (entry_id : string)
    (tmdb_found title_found : bool) : M unit :=
  _set_status env "waiting_for_input" "No TMDB IDs or titles provided"
    None None
    [("tmdb_sensor_found", VBool tmdb_found);
     ("title_sensor_found", VBool title_found);
     ("tmdb_count", VInt 0); ("title_count", VInt 0)];;
  update_entry entry_id (set_candidate_options ["none"]);;
  update_entry entry_id (set_selected_label "none");;
  async_dispatcher_send (_signal_name entry_id);;
  _set_sensor SENSOR_DETAILS (VStr "none")
    [("last_updated", VStr (utc_timestamp env))].

(** the branch [if not candidates] *)
Definition find_no_match (env : Env) (entry_id : string)
    (tmdb_ids titles : list string) : M unit :=
  update_entry entry_id (set_candidate_options ["none"]);;
  update_entry entry_id (set_selected_label "none");;
  async_dispatcher_send (_signal_name entry_id);;
  _set_sensor SENSOR_DETAILS (VStr "none")
    [("last_updated", VStr (utc_timestamp env))];;
  _set_status env "no_candidates"
    "No matches for provided TMDB IDs or title prefixes"
    (Some 0) None
    [("tmdb_count", VInt (len tmdb_ids));
     ("title_count", VInt (len titles))].

(** the end of [_service_find_candidates], with [sel = candidates[0]] *)
Definition find_ready (env : Env) (entry_id : string)
    (tmdb_ids titles : list string) (candidates : list candidate)
    (sel : candidate) : M unit :=
  let options := c_label <$> candidates in
  let selected := c_label sel in
  update_entry entry_id (set_candidate_options options);;
  update_entry entry_id (set_selected_label selected);;
  async_dispatcher_send (_signal_name entry_id);;
  set_details env sel;;
  _set_status env "ready" "Candidates available"
    (Some (len candidates)) (Some selected)
    [("tmdb_count", VInt (len tmdb_ids));
     ("title_count", VInt (len titles))].

(** [_service_find_candidates] from the status searching on *)
Definition find_search (env : Env) (call : ServiceCall) (entry_id : string)
    (tmdb_ids titles : list string) (tmdb_found title_found : bool)
    : M unit :=
  _set_status env "searching" "Running candidate search" None None
    [("tmdb_sensor_found", VBool tmdb_found);
     ("title_sensor_found", VBool title_found);
     ("tmdb_count", VInt (len tmdb_ids));
     ("title_count", VInt (len titles))];;
  catalog ← _get_catalog_items env;
  if not_catalog catalog then
    _set_status env "catalog_unavailable" "Failed to fetch BEQ catalogue"
      None None [];;
    raise (HomeAssistantError "Catalogue unavailable; cannot search.")
  else
    let limit := default DEFAULT_LIMIT (d_limit call) in
    candidates ← lift (_build_candidates (default [] catalog) tmdb_ids titles limit);
    update_entry entry_id (set_last_candidates (by_key candidates));;
    match candidates with
    | [] => find_no_match env entry_id tmdb_ids titles
    | sel :: _ => find_ready env entry_id tmdb_ids titles candidates sel
    end.

(** the part of [_service_find_candidates] behind the gate check *)
Definition find_candidates_enabled (env : Env) (call : ServiceCall)
    (entry_id : string) : M unit :=
  tmdb_raw ← states_get SENSOR_TMDB_IDS;
  title_raw ← states_get SENSOR_TITLES;
  tmdb_ids ← lift (_parse_values (st_state <$> tmdb_raw));
  titles ← lift (_parse_values (st_state <$> title_raw));
  let tmdb_found := bool_decide (is_Some tmdb_raw) in
  let title_found := bool_decide (is_Some title_raw) in
  if no_input tmdb_ids titles
  then find_waiting env entry_id tmdb_found title_found
  else find_search env call entry_id tmdb_ids titles tmdb_found title_found.

(** what every workflow does when the gate is off, up to its way out *)
Definition gate_off (env : Env) (entry_id : string) : M unit :=
  _clear_manual_state env entry_id;;
  _set_status env "disabled" "Search toggle is off" None None [].

(** [_service_find_candidates(hass, call, domain, entry_id)] *)
Definition _service_find_candidates (env : Env) (call : ServiceCall)
    (entry_id : string) : M unit :=
  setdefault_entry entry_id;;
  enabled ← search_enabled;
  if negb enabled then gate_off env entry_id
  else find_candidates_enabled env call entry_id.

(** [call.data.get("label") or domain_entry.get("selected_label") or "none"] *)
Definition chosen_label_of (call : ServiceCall) (e : DomainEntry) : string :=
  Py.or_str (Py.or_str (default EmptyString (d_label call)) (selected_label e))
            "none".

(** [next((c for c in lookup.values() if c["label"] == chosen_label), None)] *)
Definition find_by_label (lookup : dict candidate) (chosen_label : string)
    : option candidate :=
  List.find (λ c, String.eqb (c_label c) chosen_label) (dict_values lookup).

(** the part of [_service_select_candidate] behind the gate check *)
Definition select_candidate_enabled (env : Env) (call : ServiceCall)
    (entry_id : string) : M unit :=
  domain_entry ← get_entry entry_id;
  let lookup := default [] (last_candidates domain_entry) in
  let chosen_label := chosen_label_of call domain_entry in
  match find_by_label lookup chosen_label with
  | None =>
      _set_status env "error"
        ("Candidate '" +:+ chosen_label +:+ "' not found in last results")
        None None [];;
      raise (HomeAssistantError
               ("Candidate '" +:+ chosen_label +:+ "' not found in last results"))
  | Some chosen =>
      set_details env chosen;;
      update_entry entry_id (set_selected_label chosen_label);;
      async_dispatcher_send (_signal_name entry_id);;
      _set_status env "ready" "Candidate selected"
        (Some (len lookup)) (Some chosen_label) []
  end.

(** [_service_select_candidate(hass, call, domain, entry_id)] *)
Definition _service_select_candidate (env : Env) (call : ServiceCall)
    (entry_id : string) : M unit :=
  setdefault_entry entry_id;;
  enabled ← search_enabled;
  if negb enabled
  then gate_off env entry_id;;
       raise (HomeAssistantError
                "Candidate selection blocked: search toggle is off")
  else select_candidate_enabled env call entry_id.

(** [get_sensor_state(entity_id)] of [load_beq_profile]; the registry
    cannot look up the id [None] *)
Definition get_sensor_state (entity_id : option string) : M string :=
  match entity_id with
  | None => raise (AttributeError "'NoneType' object has no attribute 'lower'")
  | Some entity_id =>
      state ← states_get entity_id;
      match state with
      | None => raise (HomeAssistantError ("Sensor " +:+ entity_id +:+ " not found"))
      | Some st => mret (st_state st)
      end
  end.

(** [load_beq_profile(call)] of [services.py], on the data the load
    workflow sends *)
Definition load_beq_profile (env : Env) (call : Payload) : M unit :=
  tmdb ← get_sensor_state (p_tmdb_sensor call);
  year_state ← get_sensor_state (p_year_sensor call);
  match Repr.int year_state with
  | None =>
      raise (HomeAssistantError
               ("Invalid sensor data: " +:+ Repr.int_error year_state))
  | Some year =>
      codec ← get_sensor_state (p_codec_sensor call);
      edition ← get_sensor_state (p_edition_sensor call);
      title ← get_sensor_state (p_title_sensor call);
      let search_request :=
        {| r_tmdb := tmdb; r_year := year; r_codec := codec;
           r_preferred_author := p_preferred_author call;
           r_edition := edition; r_slots := p_slots call;
           r_title := title |} in
      emit (ProfileLoadRequested search_request);;
      match client_load_beq_profile env search_request with
      | None => mret ()
      | Some e => raise (HomeAssistantError ("Failed to load BEQ profile: " +:+ e))
      end
  end.

(** [not call.data.get(k)] *)
Definition absent (v : option string) : bool :=
  negb (Py.nonempty (default EmptyString v)).

(** the part of [_service_load_selected_candidate] behind the gate check *)
Definition load_selected_candidate_enabled (env : Env) (call : ServiceCall)
    (entry_id : string) : M unit :=
  domain_entry ← get_entry entry_id;
  let selected_label := selected_label domain_entry in
  detail_state ← states_get SENSOR_DETAILS;
  match detail_state with
  | None =>
      _set_status env "error" "No candidate selected to load" None None [];;
      raise (HomeAssistantError "No candidate selected to load")
  | Some detail_state =>
      if String.eqb (st_state detail_state) "none"
         || String.eqb (st_state detail_state) "disabled"
      then
        _set_status env "error" "No candidate selected to load" None None [];;
        raise (HomeAssistantError "No candidate selected to load")
      else
        let attrs := st_attributes detail_state in
        match attrs with
        | [] =>
            _set_status env "error" "Candidate details missing" None None [];;
            raise (HomeAssistantError "Candidate details missing")
        | _ :: _ =>
            let missing :=
              fst <$> filter (λ kv, absent kv.2 = true)
                [("tmdb_sensor", d_tmdb_sensor call);
                 ("year_sensor", d_year_sensor call);
                 ("codec_sensor", d_codec_sensor call)] in
            match missing with
            | _ :: _ =>
                _set_status env "error"
                  ("Missing required service data: " +:+ Py.join ", " missing)
                  None (Some selected_label) [];;
                raise (HomeAssistantError
                  "load_selected_candidate requires tmdb_sensor, year_sensor, codec_sensor service data.")
            | [] =>
                let payload :=
                  {| p_tmdb_sensor := d_tmdb_sensor call;
                     p_year_sensor := d_year_sensor call;
                     p_codec_sensor := d_codec_sensor call;
                     p_edition_sensor := d_edition_sensor call;
                     p_title_sensor := d_title_sensor call;
                     p_preferred_author :=
                       default (VStr EmptyString) (dict_get attrs "author");
                     p_slots := match d_slots call with
                                | Some (x :: l) => x :: l
                                | _ => [1]
                                end;
                     p_enable_audio_codec_substitutions :=
                       default false (d_enable_audio_codec_substitutions call);
                     p_manual_load := true |} in
                states_async_set (get_str (p_tmdb_sensor payload))
                  (default (VStr EmptyString) (dict_get attrs "tmdb_id")) [];;
                states_async_set (get_str (p_year_sensor payload))
                  (default (VInt 0) (dict_get attrs "year")) [];;
                states_async_set (get_str (p_codec_sensor payload))
                  (default (VStr EmptyString) (dict_get attrs "audio_type")) [];;
                (if absent (p_edition_sensor payload) then mret ()
                 else states_async_set (get_str (p_edition_sensor payload))
                        (default (VStr EmptyString) (dict_get attrs "edition")) []);;
                (if absent (p_title_sensor payload) then mret ()
                 else states_async_set (get_str (p_title_sensor payload))
                        (default (VStr EmptyString) (dict_get attrs "title")) []);;
                load_beq_profile env payload;;
                _set_status env "loaded"
                  ("Candidate '" +:+ selected_label +:+ "' loaded into BEQ profile")
                  None (Some selected_label) []
            end
        end
  end.

(** [_service_load_selected_candidate(hass, call, domain, entry_id)] *)
Definition _service_load_selected_candidate (env : Env) (call : ServiceCall)
    (entry_id : string) : M unit :=
  setdefault_entry entry_id;;
  enabled ← search_enabled;
  if negb enabled
  then gate_off env entry_id;;
       raise (HomeAssistantError "Manual load blocked: search toggle is off")
  else load_selected_candidate_enabled env call entry_id.

(** [_handle_search_toggle(event)]; [new_state] is [event.data.get("new_state")] *)
Definition _handle_search_toggle (env : Env) (entry_id : string)
    (new_state : option State) : M unit :=
  match new_state with
  | None => mret ()
  | Some st =>
      if negb (String.eqb (Py.lower (st_state st)) "on")
      then gate_off env entry_id
      else mret ()
  end.

(** the state changes of [async_setup_manual_load] *)
Definition async_setup_manual_load (env : Env) (entry_id : string) : M unit :=
  setdefault_entry entry_id;;
  update_entry entry_id (set_candidate_options ["none"]);;
  update_entry entry_id (set_selected_label "none");;
  async_dispatcher_send (_signal_name entry_id);;
  _set_sensor SENSOR_DETAILS (VStr "none")
    [("last_updated", VStr (utc_timestamp env))];;
  _set_status env "waiting_for_input" "Supply candidate TMDB IDs or titles"
    None None
    [("tmdb_sensor_found", VBool false); ("title_sensor_found", VBool false);
     ("tmdb_count", VInt 0); ("title_count", VInt 0)];;
  enabled ← search_enabled;
  if negb enabled then gate_off env entry_id else mret ().

End Workflows.

(** ** Reading the result of the builder *)

(** The candidates of one item in the order [add_item] builds them, before
    deduplication (none when one of its list fields cannot be read). *)
Definition expand (it : item) : list candidate :=
  match audio_types_of it, genres_of it with
  | Ok al, Ok gl => make_candidate it al gl <$> al
  | _, _ => []
  end.

Definition keys_of (l : list candidate) : gset string :=
  list_to_set (c_key <$> l).

(** keeps, in order, the first candidate of every key that is not in [seen] *)
Fixpoint first_by_key (seen : gset string) (l : list candidate)
    : list candidate :=
  match l with
  | [] => []
  | c :: r =>
      if decide (c_key c ∈ seen) then first_by_key seen r
      else c :: first_by_key ({[c_key c]} ∪ seen) r
  end.

(** the first candidate of key [k] in [l] *)
Definition first_with_key (k : string) (l : list candidate) : option candidate :=
  List.find (λ c, String.eqb (c_key c) k) l.

(** everything the ID pass looks at, in scan order *)
Definition id_scan (tmdb_ids : list string) (items : list item) : list candidate :=
  filter (λ it, id_matches (normalize_ids tmdb_ids) it = true) items ≫= expand.

(** everything the prefix pass would look at if it ran to the end *)
Definition prefix_scan (title_prefixes : list string) (items : list item)
    : list candidate :=
  filter (λ it, prefix_matches (normalize_prefixes title_prefixes) it = true) items
    ≫= expand.

(** the source item of the candidate has a catalogue ID that the ID pass
    accepts: trimmed, it equals a trimmed non-blank entry of [tmdb_ids] *)
Definition id_in_ids (tmdb_ids : list string) (c : candidate) : Prop :=
  Py.strip (c_tmdb_id c) ∈ normalize_ids tmdb_ids.


(** the list fields of the item can be read: [_as_list_strict] does not
    raise on them *)
Definition readable (it : item) : Prop :=
  is_Ok (audio_types_of it) ∧ is_Ok (genres_of it).

(** [call.data] with the entry [limit] set *)
Definition with_limit (limit : option Z) (call : ServiceCall) : ServiceCall :=
  {| d_limit := limit; d_label := d_label call;
     d_tmdb_sensor := d_tmdb_sensor call; d_year_sensor := d_year_sensor call;
     d_codec_sensor := d_codec_sensor call;
     d_edition_sensor := d_edition_sensor call;
     d_title_sensor := d_title_sensor call; d_slots := d_slots call;
     d_enable_audio_codec_substitutions :=
       d_enable_audio_codec_substitutions call |}.

#[global] Instance candidate_eq_dec : EqDecision candidate.
Proof. solve_decision. Defined.

(** ** Reading the result of the parser *)

Module CsvSpec.

(** [s.split(d)] for a one-character separator *)
Fixpoint split (d : ascii) (s : string) : list string :=
  match s with
  | EmptyString => [EmptyString]
  | String c r =>
      if Ascii.eqb c d then EmptyString :: split d r
      else match split d r with
           | x :: xs => String c x :: xs
           | [] => [String c EmptyString]
           end
  end.

(** what [skipinitialspace] removes *)
Fixpoint lstrip_space (s : string) : string :=
  match s with
  | EmptyString => EmptyString
  | String c r => if Ascii.eqb c Csv.SP then lstrip_space r else s
  end.

(** no quote character and no line break *)
Definition plain (s : string) : Prop :=
  Py.contains Csv.quotechar s = false
  ∧ Py.contains Csv.LF s = false ∧ Py.contains Csv.CR s = false.

(** a field written between quotes, every quote inside doubled *)
Fixpoint double_quotes (s : string) : string :=
  match s with
  | EmptyString => EmptyString
  | String c r =>
      if Ascii.eqb c Csv.quotechar
      then String Csv.quotechar (String Csv.quotechar (double_quotes r))
      else String c (double_quotes r)
  end.

Definition quoted (f : string) : string :=
  String Csv.quotechar (double_quotes f +:+ String Csv.quotechar EmptyString).

(** a line as [StringIO] delivers it when the text has no carriage return:
    a line feed can only be its last character *)
Fixpoint good_line (l : string) : bool :=
  match l with
  | EmptyString => true
  | String c r =>
      if Ascii.eqb c Csv.CR then false
      else if Ascii.eqb c Csv.LF then negb (Py.nonempty r)
      else good_line r
  end.

(** the fields of a line that continues the field [cur] *)
Definition continue (cur : string) (l : list string) : list string :=
  match l with
  | x :: xs => (cur +:+ x) :: (lstrip_space <$> xs)
  | [] => [cur]
  end.

End CsvSpec.

(** ** Reading the outcome of a workflow *)

Section Outcomes.
Context `{Consts}.

(** the session state that the workflows of a context read *)
Definition session (entry_id : string) (hass : Hass) : DomainEntry :=
  default default_entry (data hass !! entry_id).

(** the session state after the gate was found off *)
Definition cleared : DomainEntry :=
  {| candidate_options := ["disabled"]; selected_label := "disabled";
     last_candidates := Some [] |}.

(** the session state after a search without input or without match *)
Definition no_candidates_entry : DomainEntry :=
  {| candidate_options := ["none"]; selected_label := "none";
     last_candidates := Some [] |}.

(** the status record as [_set_status] writes it without counts *)
Definition status_record (env : Env) (stage reason : string) : State :=
  {| st_state := stage;
     st_attributes := [("stage", VStr stage); ("reason", VStr reason);
                       ("last_updated", VStr (utc_timestamp env))] |}.

Definition details_disabled (env : Env) : State :=
  {| st_state := "disabled";
     st_attributes := [("last_updated", VStr (utc_timestamp env))] |}.

(** what an observer sees when the gate is found off *)
Definition gate_off_events (env : Env) (entry_id : string) : list event :=
  [SignalSent (_signal_name entry_id);
   StateWritten SENSOR_DETAILS (details_disabled env);
   StateWritten SENSOR_STATUS
     (status_record env "disabled" "Search toggle is off")].

(** the host after the gate was found off *)
Definition gate_off_host (env : Env) (entry_id : string) (hass : Hass) : Hass :=
  {| states :=
       <[SENSOR_STATUS := status_record env "disabled" "Search toggle is off"]>
         (<[SENSOR_DETAILS := details_disabled env]> (states hass));
     data := <[entry_id := cleared]> (data hass);
     catalog_cache := catalog_cache hass;
     journal := journal hass ++ gate_off_events env entry_id |}.

Definition details_none (env : Env) : State :=
  {| st_state := "none";
     st_attributes := [("last_updated", VStr (utc_timestamp env))] |}.

(** the status record of a search without match *)
Definition no_match_status (env : Env) (tmdb_ids titles : list string) : State :=
  {| st_state := "no_candidates";
     st_attributes :=
       [("stage", VStr "no_candidates");
        ("reason", VStr "No matches for provided TMDB IDs or title prefixes");
        ("last_updated", VStr (utc_timestamp env));
        ("candidates", VInt 0);
        ("tmdb_count", VInt (len tmdb_ids));
        ("title_count", VInt (len titles))] |}.

(** the host after the branch [if not candidates] *)
Definition no_match_host (env : Env) (entry_id : string)
    (tmdb_ids titles : list string) (hass : Hass) : Hass :=
  {| states :=
       <[SENSOR_STATUS := no_match_status env tmdb_ids titles]>
         (<[SENSOR_DETAILS := details_none env]> (states hass));
     data :=
       <[entry_id := set_selected_label "none"
                       (set_candidate_options ["none"] (session entry_id hass))]>
         (data hass);
     catalog_cache := catalog_cache hass;
     journal := journal hass
       ++ [SignalSent (_signal_name entry_id);
           StateWritten SENSOR_DETAILS (details_none env);
           StateWritten SENSOR_STATUS (no_match_status env tmdb_ids titles)] |}.

End Outcomes.

Section Observers.
Context `{Consts}.

(** the stage that the status record shows *)
Definition stage_of (hass : Hass) : option string :=
  st_state <$> states hass !! SENSOR_STATUS.

(** a status record is among the events *)
Definition status_written (evs : list event) : bool :=
  existsb (λ ev, match ev with
                 | StateWritten entity_id _ => String.eqb entity_id SENSOR_STATUS
                 | _ => false
                 end) evs.

(** the events of an invocation that started with the journal of [before] *)
Definition events_since (before after : Hass) : list event :=
  drop (length (journal before)) (journal after).

End Observers.

(** ** Sample data *)

Module Sample.

(** Sample values for the names of [const.py]; only the entity ID of the
    switch is known, from [switch.py]. *)
Definition ezbeq_consts : Consts :=
  {| DOMAIN := "ezbeq";
     SENSOR_TMDB_IDS := "sensor.ezbeq_candidate_tmdb_ids";
     SENSOR_TITLES := "sensor.ezbeq_candidate_titles";
     SWITCH_SEARCH_ENABLED := "switch.ezbeq_candidate_search_enabled";
     SENSOR_DETAILS := "sensor.ezbeq_candidate_details";
     SENSOR_STATUS := "sensor.ezbeq_candidate_status";
     SIGNAL_UPDATE_SELECT := "ezbeq_update_select" |}.
#[local] Existing Instance ezbeq_consts.

Definition release (id name released : string) (audio : jfield)
    (by_whom : jfield) : item :=
  {| theMovieDB := Some id; title := Some name; altTitle := None;
     year := Some released; edition := None; audioTypes := audio;
     genres := JNull; genre := JNull; author := by_whom; authors := JNull;
     mv := None; warning := None; note := None; images := JNull;
     source := None; content_type := None; language := None |}.

Definition the_matrix : item :=
  release "603" "The Matrix" "1999" (JArray ["Atmos"; "5.1"])
    (JString "aron7awol").

Definition reloaded : item :=
  release "604" "The Matrix Reloaded" "2003" JNull JNull.

(** the prefix match comes first and the ID match is listed twice *)
Definition catalogue : list item := [reloaded; the_matrix; the_matrix].

Definition built : list candidate :=
  Eval vm_compute in
    match _build_candidates catalogue ["603"] ["the matrix"] 10 with
    | Ok l => l
    | Raise _ => []
    end.

Definition no_data : ServiceCall :=
  {| d_limit := None; d_label := None; d_tmdb_sensor := None;
     d_year_sensor := None; d_codec_sensor := None;
     d_edition_sensor := None; d_title_sensor := None; d_slots := None;
     d_enable_audio_codec_substitutions := None |}.

Definition select_data (l : string) : ServiceCall :=
  {| d_limit := None; d_label := Some l; d_tmdb_sensor := None;
     d_year_sensor := None; d_codec_sensor := None;
     d_edition_sensor := None; d_title_sensor := None; d_slots := None;
     d_enable_audio_codec_substitutions := None |}.

Definition load_data : ServiceCall :=
  {| d_limit := None; d_label := None;
     d_tmdb_sensor := Some "sensor.beq_tmdb";
     d_year_sensor := Some "sensor.beq_year";
     d_codec_sensor := Some "sensor.beq_codec";
     d_edition_sensor := Some "sensor.beq_edition";
     d_title_sensor := Some "sensor.beq_title"; d_slots := None;
     d_enable_audio_codec_substitutions := None |}.

(** the catalogue server answers with [answer]; the profile loader fails
    with [failure] when one is given *)
Definition world (answer : response) (failure : option string) : Env :=
  {| utc_timestamp := "2024-05-01T20:00:00Z"; time_time := 1714593600;
     catalog_response := answer;
     client_load_beq_profile := λ _, failure |}.

(** a fresh host whose ID input holds [ids]; the switch is not set up *)
Definition host (ids : string) : Hass :=
  {| states := {[ "sensor.ezbeq_candidate_tmdb_ids" := mkState ids [] ]};
     data := ∅; catalog_cache := None; journal := [] |}.

(** the host after a search for 603 has reached the stage ready *)
Definition ready : Hass :=
  (_service_find_candidates (world (JsonList catalogue) None) no_data "e1"
     (host "603")).2.

(** the same host with the gate switched off *)
Definition switched_off : Hass :=
  {| states := <["switch.ezbeq_candidate_search_enabled" := mkState "off" []]>
                 (states ready);
     data := data ready; catalog_cache := catalog_cache ready;
     journal := journal ready |}.

End Sample.

(** ** Reading what an invocation wrote *)

(** the detail record of a candidate, as a search and a selection write
    it *)
Definition details_of (env : Env) (c : candidate) : State :=
  {| st_state := c_label c;
     st_attributes :=
       dict_set (candidate_attrs c) "last_updated" (VStr (utc_timestamp env)) |}.

(** the host after [hass.states.async_set] has stored [st] *)
Definition written (entity_id : string) (st : State) (hass : Hass) : Hass :=
  {| states := <[entity_id := st]> (states hass);
     data := data hass;
     catalog_cache := catalog_cache hass;
     journal := journal hass ++ [StateWritten entity_id st] |}.

(** the host with the session entry replaced *)
Definition with_entry (entry_id : string) (e : DomainEntry) (hass : Hass) : Hass :=
  {| states := states hass;
     data := <[entry_id := e]> (data hass);
     catalog_cache := catalog_cache hass;
     journal := journal hass |}.

(** the host after an event that changes nothing else *)
Definition noted (ev : event) (hass : Hass) : Hass :=
  {| states := states hass; data := data hass;
     catalog_cache := catalog_cache hass;
     journal := journal hass ++ [ev] |}.

(** the requests handed to the profile loader, in order *)
Definition requests (evs : list event) : list SearchRequest :=
  omap (λ ev, match ev with
              | ProfileLoadRequested req => Some req
              | _ => None
              end) evs.

(** the session state after a search without input, and after set-up: the
    lookup is not touched *)
Definition without_selection (e : DomainEntry) : DomainEntry :=
  set_selected_label "none" (set_candidate_options ["none"] e).

(** ** Reading the outcome of a load *)

(** the state of the entity that a key of the service data names, when the
    key holds an ID and the registry an entry for it *)
Definition sensor_state (hass : Hass) (entity_id : option string)
    : option string :=
  entity_id ≫= λ k, st_state <$> states hass !! k.

(** the registry entry that [hass.states.async_set(id, attrs.get(k, d))]
    stores *)
Definition attr_state (attrs : dict pyval) (k : string) (d : pyval) : State :=
  {| st_state := Repr.str (default d (dict_get attrs k));
     st_attributes := [] |}.

(** the host after the load workflow has filled its destination entities *)
Definition destinations_written (attrs : dict pyval) (call : ServiceCall)
    (hass : Hass) : Hass :=
  let h3 :=
    written (get_str (d_codec_sensor call))
      (attr_state attrs "audio_type" (VStr EmptyString))
      (written (get_str (d_year_sensor call)) (attr_state attrs "year" (VInt 0))
         (written (get_str (d_tmdb_sensor call))
            (attr_state attrs "tmdb_id" (VStr EmptyString)) hass)) in
  let h4 :=
    if absent (d_edition_sensor call) then h3
    else written (get_str (d_edition_sensor call))
           (attr_state attrs "edition" (VStr EmptyString)) h3 in
  if absent (d_title_sensor call) then h4
  else written (get_str (d_title_sensor call))
         (attr_state attrs "title" (VStr EmptyString)) h4.

(** the host takes every write of [destinations_written] as it is *)
Definition destinations_accepted (attrs : dict pyval) (call : ServiceCall)
    : bool :=
  let takes (k : option string) (st : State) :=
    Host.accepts (get_str k) (st_state st) in
  takes (d_tmdb_sensor call) (attr_state attrs "tmdb_id" (VStr EmptyString))
  && takes (d_year_sensor call) (attr_state attrs "year" (VInt 0))
  && takes (d_codec_sensor call)
       (attr_state attrs "audio_type" (VStr EmptyString))
  && (absent (d_edition_sensor call)
      || takes (d_edition_sensor call)
           (attr_state attrs "edition" (VStr EmptyString)))
  && (absent (d_title_sensor call)
      || takes (d_title_sensor call)
           (attr_state attrs "title" (VStr EmptyString))).

(** the service data that the load workflow hands to [load_beq_profile] *)
Definition load_payload (attrs : dict pyval) (call : ServiceCall) : Payload :=
  {| p_tmdb_sensor := d_tmdb_sensor call;
     p_year_sensor := d_year_sensor call;
     p_codec_sensor := d_codec_sensor call;
     p_edition_sensor := d_edition_sensor call;
     p_title_sensor := d_title_sensor call;
     p_preferred_author :=
       default (VStr EmptyString) (dict_get attrs "author");
     p_slots := match d_slots call with
                | Some (x :: l) => x :: l
                | _ => [1]
                end;
     p_enable_audio_codec_substitutions :=
       default false (d_enable_audio_codec_substitutions call);
     p_manual_load := true |}.

(** the load workflow can start: a candidate is selected, its detail
    record has attributes, and the three required keys name entities *)
Definition load_accepted `{Consts} (call : ServiceCall) (hass : Hass) : Prop :=
  ∃ ds, states hass !! SENSOR_DETAILS = Some ds
    ∧ st_state ds ≠ "none" ∧ st_state ds ≠ "disabled"
    ∧ st_attributes ds ≠ []
    ∧ absent (d_tmdb_sensor call) = false
    ∧ absent (d_year_sensor call) = false
    ∧ absent (d_codec_sensor call) = false.

(** ** The select entity of [select.py] *)

Module SelectEntity.
Section Entity.
Context `{Consts}.

(** the two attributes of [EzbeqCandidateSelect] that change after
    construction; handing them to the host ([async_write_ha_state]) and
    delivering the change signal to [_handle_update_signal] are the host's
    part, the signal itself is in the journal *)
Record EzbeqCandidateSelect := mkSelect {
  _attr_options : list string;
  _attr_current_option : string;
}.

(** what [__init__] and [_handle_update_signal] read from [domain_data] *)
Definition from_domain_data (domain_data : DomainEntry) : EzbeqCandidateSelect :=
  {| _attr_options := candidate_options domain_data;
     _attr_current_option := selected_label domain_data |}.

(** [_handle_update_signal(self)] *)
Definition _handle_update_signal (entry_id : string)
    (self : EzbeqCandidateSelect) : M EzbeqCandidateSelect :=
  domain_data ← get_entry entry_id;
  mret (from_domain_data domain_data).

(** the service data [{"label": option}] *)
Definition label_data (option : string) : ServiceCall :=
  {| d_limit := None; d_label := Some option; d_tmdb_sensor := None;
     d_year_sensor := None; d_codec_sensor := None;
     d_edition_sensor := None; d_title_sensor := None; d_slots := None;
     d_enable_audio_codec_substitutions := None |}.

(** [async_select_option(self, option)], the service [select_candidate]
    being registered for the entry: the blocking call, then the two
    assignments of the method itself *)
Definition async_select_option (env : Env) (entry_id : string)
    (self : EzbeqCandidateSelect) (option : string) : M EzbeqCandidateSelect :=
  _service_select_candidate env (label_data option) entry_id;;
  update_entry entry_id (set_selected_label option);;
  mret {| _attr_options := _attr_options self;
          _attr_current_option := option |}.

End Entity.
End SelectEntity.

(** ** The service registry and [services.py] *)

Module Registry.

(** [hass.services]: the registered (domain, service) pairs *)
Definition Services := gset (string * string).

Definition async_register (domain service : string) (services : Services)
    : Services :=
  {[(domain, service)]} ∪ services.

Definition async_remove (domain service : string) (services : Services)
    : Services :=
  services ∖ {[(domain, service)]}.

(** the registrations of [async_setup_services] *)
Definition async_setup_services (domain : string) (services : Services)
    : Services :=
  async_register domain "unload_beq_profile"
    (async_register domain "load_beq_profile" services).

(** [async_unload_services(hass, domain)] *)
Definition async_unload_services (domain : string) (services : Services)
    : Services :=
  async_remove domain "load_beq_profile" services.

End Registry.

(** ** More sample data *)

Module MoreSample.
Import Sample.
#[local] Existing Instance ezbeq_consts.

(** an hour later, with the catalogue server out of reach *)
Definition an_hour_later : Env :=
  {| utc_timestamp := "2024-05-01T21:00:00Z"; time_time := 1714597200;
     catalog_response := FetchFailed;
     client_load_beq_profile := λ _, None |}.

(** the candidates that the host [ready] holds, and the two of them *)
Definition ready_candidates : list candidate :=
  Eval vm_compute in
    dict_values (default [] (last_candidates (session "e1" ready))).

Definition atmos : candidate :=
  Eval vm_compute in
    nth 0 ready_candidates (make_candidate the_matrix [] [] EmptyString).

Definition surround : candidate :=
  Eval vm_compute in
    nth 1 ready_candidates (make_candidate the_matrix [] [] EmptyString).

(** a release whose catalogue record has no year *)
Definition undated : item :=
  {| theMovieDB := Some "700"; title := Some "Untitled"; altTitle := None;
     year := None; edition := None; audioTypes := JString "DTS-X";
     genres := JNull; genre := JNull; author := JNull; authors := JNull;
     mv := None; warning := None; note := None; images := JNull;
     source := None; content_type := None; language := None |}.

Definition undated_candidate : candidate :=
  Eval vm_compute in make_candidate undated ["DTS-X"] [] "DTS-X".

(** the host after a search for 700 in a catalogue that holds [undated] *)
Definition ready_undated : Hass :=
  (_service_find_candidates (world (JsonList [undated]) None) no_data "e1"
     (host "700")).2.

(** a load without the optional destinations *)
Definition load_required : ServiceCall :=
  {| d_limit := None; d_label := None;
     d_tmdb_sensor := Some "sensor.beq_tmdb";
     d_year_sensor := Some "sensor.beq_year";
     d_codec_sensor := Some "sensor.beq_codec";
     d_edition_sensor := None; d_title_sensor := None; d_slots := None;
     d_enable_audio_codec_substitutions := None |}.

(** a registry in which the five entities of a load are filled *)
Definition filled : Hass :=
  {| states := list_to_map
       [("sensor.beq_tmdb", mkState "603" []);
        ("sensor.beq_year", mkState "1999" []);
        ("sensor.beq_codec", mkState "Atmos" []);
        ("sensor.beq_edition", mkState EmptyString []);
        ("sensor.beq_title", mkState "The Matrix" [])];
     data := ∅; catalog_cache := None; journal := [] |}.

Definition profile_data (edition_sensor : option string) : Payload :=
  {| p_tmdb_sensor := Some "sensor.beq_tmdb";
     p_year_sensor := Some "sensor.beq_year";
     p_codec_sensor := Some "sensor.beq_codec";
     p_edition_sensor := edition_sensor;
     p_title_sensor := Some "sensor.beq_title";
     p_preferred_author := VStr "aron7awol"; p_slots := [1];
     p_enable_audio_codec_substitutions := false; p_manual_load := true |}.

End MoreSample.

(** * Proofs *)

(** ** The error monad *)

Lemma bind_Ok {A B} (m : result A) (k : A → result B) b :
  m ≫= k = Ok b → ∃ a, m = Ok a ∧ k a = Ok b.
Proof. destruct m as [a|e]; [eauto | discriminate]. Qed.

(** ** First occurrence per key *)

Section first_by_key.
Implicit Types (l : list candidate) (s : gset string).

Lemma keys_of_cons c l : keys_of (c :: l) = {[c_key c]} ∪ keys_of l.
Proof. reflexivity. Qed.

Lemma keys_of_app l1 l2 : keys_of (l1 ++ l2) = keys_of l1 ∪ keys_of l2.
Proof. unfold keys_of. rewrite fmap_app, list_to_set_app_L. done. Qed.

Lemma elem_of_keys_of k l : k ∈ keys_of l ↔ ∃ c, c ∈ l ∧ c_key c = k.
Proof.
  unfold keys_of. rewrite elem_of_list_to_set, list_elem_of_fmap.
  naive_solver.
Qed.

Lemma first_by_key_app s l1 l2 :
  first_by_key s (l1 ++ l2)
  = first_by_key s l1 ++ first_by_key (s ∪ keys_of l1) l2.
Proof.
  revert s. induction l1 as [|c l1 IH]; intros s; simpl.
  - f_equal. unfold keys_of. simpl. set_solver.
  - rewrite keys_of_cons. destruct (decide (c_key c ∈ s)).
    + rewrite IH. do 2 f_equal. set_solver.
    + rewrite IH. simpl. do 3 f_equal. set_solver.
Qed.

Lemma first_by_key_sublist s l : first_by_key s l `sublist_of` l.
Proof.
  revert s. induction l as [|c l IH]; intros s; simpl; [done|].
  destruct (decide _); [by apply sublist_cons | by apply sublist_skip].
Qed.


Lemma first_by_key_fresh s l c : c ∈ first_by_key s l → c_key c ∉ s.
Proof.
  revert s. induction l as [|x l IH]; intros s; simpl; [by inversion 1|].
  destruct (decide _) as [|Hx]; [by auto|].
  intros [->|Hin]%elem_of_cons; [done|].
  apply IH in Hin. set_solver.
Qed.

Lemma first_by_key_NoDup s l : NoDup (c_key <$> first_by_key s l).
Proof.
  revert s. induction l as [|x l IH]; intros s; simpl; [constructor|].
  destruct (decide _); [done|]. simpl. constructor; [|done].
  intros (c & Hk & Hc)%list_elem_of_fmap.
  apply first_by_key_fresh in Hc. set_solver.
Qed.


Lemma first_by_key_is_first s l c :
  c ∈ first_by_key s l → first_with_key (c_key c) l = Some c.
Proof.
  unfold first_with_key.
  revert s. induction l as [|x l IH]; intros s; simpl; [by inversion 1|].
  destruct (decide _) as [Hx|Hx].
  - intros Hin. pose proof (first_by_key_fresh _ _ _ Hin) as Hf.
    destruct (String.eqb_spec (c_key x) (c_key c)) as [E|_]; [congruence|].
    eauto.
  - intros [->|Hin]%elem_of_cons.
    + by rewrite String.eqb_refl.
    + pose proof (first_by_key_fresh _ _ _ Hin) as Hf.
      destruct (String.eqb_spec (c_key x) (c_key c)) as [E|_]; [set_solver|].
      eauto.
Qed.

End first_by_key.

(** ** The two passes *)

Lemma union_absorb (k : string) (s t : gset string) :
  k ∈ s → s ∪ t = s ∪ ({[k]} ∪ t).
Proof. set_solver. Qed.

Lemma union_shift (k : string) (s t : gset string) :
  {[k]} ∪ s ∪ t = s ∪ ({[k]} ∪ t).
Proof. set_solver. Qed.

Lemma acc_eq (a b : acc) :
  results a = results b → seen_keys a = seen_keys b → a = b.
Proof. destruct a, b; simpl; congruence. Qed.

Lemma add_audio_spec it al gl todo a :
  add_audio it al gl todo a
  = {| results := results a
         ++ first_by_key (seen_keys a) (make_candidate it al gl <$> todo);
       seen_keys := seen_keys a ∪ keys_of (make_candidate it al gl <$> todo) |}.
Proof.
  revert a. induction todo as [|audio todo IH]; intros a; simpl.
  - apply acc_eq; simpl; [by rewrite app_nil_r | unfold keys_of; set_solver].
  - rewrite keys_of_cons. simpl. destruct (decide _) as [Hin|Hin].
    + rewrite IH. apply acc_eq; simpl; [done | by apply union_absorb].
    + rewrite IH. apply acc_eq; simpl; [by rewrite <- app_assoc | apply union_shift].
Qed.

Lemma expand_Ok it al gl :
  audio_types_of it = Ok al → genres_of it = Ok gl →
  expand it = make_candidate it al gl <$> al.
Proof. unfold expand. by intros -> ->. Qed.

Lemma add_item_Ok it a a' :
  add_item it a = Ok a' →
  ∃ al gl, audio_types_of it = Ok al ∧ genres_of it = Ok gl
    ∧ a' = add_audio it al gl al a.
Proof.
  unfold add_item. intros (al & Hal & Hk)%bind_Ok.
  apply bind_Ok in Hk as (gl & Hgl & [= <-]). eauto.
Qed.

Lemma add_item_spec it a a' :
  add_item it a = Ok a' →
  results a' = results a ++ first_by_key (seen_keys a) (expand it)
  ∧ seen_keys a' = seen_keys a ∪ keys_of (expand it).
Proof.
  intros (al & gl & Hal & Hgl & ->)%add_item_Ok.
  rewrite add_audio_spec, (expand_Ok _ _ _ Hal Hgl). done.
Qed.

Lemma id_pass_spec S items a a' :
  id_pass S items a = Ok a' →
  let scanned := filter (λ it, id_matches S it = true) items ≫= expand in
  results a' = results a ++ first_by_key (seen_keys a) scanned
  ∧ seen_keys a' = seen_keys a ∪ keys_of scanned.
Proof.
  revert a. induction items as [|it items IH]; intros a; simpl.
  - intros [= <-]. split; [by rewrite app_nil_r | unfold keys_of; set_solver].
  - rewrite filter_cons. destruct (id_matches S it) eqn:Hm.
    + intros (a1 & H1 & H2)%bind_Ok.
      apply add_item_spec in H1 as [Hr Hs]. apply IH in H2 as [Hr' Hs'].
      rewrite decide_True by done. simpl.
      rewrite first_by_key_app, keys_of_app, Hr', Hs', Hr, Hs.
      split; [by rewrite <- app_assoc | set_solver].
    + intros H2. apply IH in H2. by rewrite decide_False by done.
Qed.

Lemma prefix_pass_spec P limit items a a' :
  prefix_pass P limit items a = Ok a' →
  ∃ n, (n ≤ length items)%nat
    ∧ (let scanned :=
         filter (λ it, prefix_matches P it = true) (take n items) ≫= expand in
       results a' = results a ++ first_by_key (seen_keys a) scanned
       ∧ seen_keys a' = seen_keys a ∪ keys_of scanned)
    ∧ ((n < length items)%nat → limit ≤ Z.of_nat (length (results a'))).
Proof.
  revert a. induction items as [|it items IH]; intros a; simpl.
  - intros [= <-]. exists 0%nat. simpl.
    split; [lia|]. split; [|lia].
    split; [by rewrite app_nil_r | unfold keys_of; set_solver].
  - destruct (Z.leb_spec limit (Z.of_nat (length (results a)))) as [Hl|Hl].
    { intros [= <-]. exists 0%nat. simpl.
      split; [lia|]. split; [|done].
      split; [by rewrite app_nil_r | unfold keys_of; set_solver]. }
    destruct (prefix_matches P it) eqn:Hm.
    + intros (a1 & H1 & H2)%bind_Ok.
      apply add_item_spec in H1 as [Hr Hs].
      apply IH in H2 as (n & Hn & [Hr' Hs'] & Hstop).
      exists (S n). simpl. rewrite filter_cons, decide_True by done. simpl.
      split; [lia|]. split.
      * rewrite first_by_key_app, keys_of_app, Hr', Hs', Hr, Hs.
        split; [by rewrite <- app_assoc | set_solver].
      * intros ?. apply Hstop. lia.
    + intros H2. apply IH in H2 as (n & Hn & [Hr' Hs'] & Hstop).
      exists (S n). simpl. rewrite filter_cons, decide_False by congruence.
      split; [lia|]. split; [done|]. intros ?. apply Hstop. lia.
Qed.

Lemma filter_id_matches_empty items :
  filter (λ it, id_matches ∅ it = true) items = [].
Proof.
  induction items as [|it items IH]; [done|].
  rewrite filter_cons, decide_False; [done|].
  unfold id_matches. rewrite bool_decide_eq_true. set_solver.
Qed.

Lemma filter_prefix_matches_nil items :
  filter (λ it, prefix_matches [] it = true) items = [].
Proof.
  induction items as [|it items IH]; [done|].
  rewrite filter_cons, decide_False; [done|].
  unfold prefix_matches, _starts_with_any. simpl. done.
Qed.

(** the scan, read as one deduplication of what the two passes looked at *)
Lemma scan_spec items tmdb_ids title_prefixes limit a :
  scan items tmdb_ids title_prefixes limit = Ok a →
  ∃ n, (n ≤ length items)%nat ∧
    let visited :=
      filter (λ it, prefix_matches (normalize_prefixes title_prefixes) it = true)
             (take n items) ≫= expand in
    results a = first_by_key ∅ (id_scan tmdb_ids items)
                ++ first_by_key (keys_of (id_scan tmdb_ids items)) visited
    ∧ ((n < length items)%nat →
       prefix_scan title_prefixes items = []
       ∨ limit ≤ Z.of_nat (length (results a))).
Proof.
  unfold scan. intros (a1 & H1 & H2)%bind_Ok.
  assert (results a1 = first_by_key ∅ (id_scan tmdb_ids items)
          ∧ seen_keys a1 = keys_of (id_scan tmdb_ids items)) as [Hr1 Hs1].
  { unfold id_scan. destruct (decide (normalize_ids tmdb_ids = ∅)) as [E|E].
    - rewrite bool_decide_eq_false_2 in H1 by auto. injection H1 as <-.
      rewrite E. simpl.
      by rewrite filter_id_matches_empty.
    - rewrite bool_decide_eq_true_2 in H1 by auto.
      apply id_pass_spec in H1 as [-> ->]. simpl. split; [done | set_solver]. }
  destruct (bool_decide (normalize_prefixes title_prefixes ≠ [])) eqn:Hp; simpl in H2.
  - destruct (Z.ltb_spec (Z.of_nat (length (results a1))) limit) as [Hl|Hl].
    + apply prefix_pass_spec in H2 as (n & Hn & [Hr Hs] & Hstop).
      exists n. split; [done|]. simpl. rewrite Hr, Hr1, Hs1.
      split; [done|]. intros ?. right. rewrite <- Hr1, <- Hs1, <- Hr. auto.
    + injection H2 as <-. exists 0%nat. simpl. rewrite app_nil_r.
      split; [lia|]. split; [done|]. intros _. right. lia.
  - injection H2 as <-. exists 0%nat. simpl. rewrite app_nil_r.
    split; [lia|]. split; [done|]. intros _. left.
    apply bool_decide_eq_false in Hp.
    assert (normalize_prefixes title_prefixes = []) as E
      by (by destruct (decide (normalize_prefixes title_prefixes = []))).
    unfold prefix_scan. by rewrite E, filter_prefix_matches_nil.
Qed.

(** ** What the builder returns *)

Lemma slice_to_take {A} (l : list A) limit : ∃ m, Py.slice_to l limit = take m l.
Proof. unfold Py.slice_to. destruct (0 <=? limit); eauto. Qed.

Lemma slice_to_nonneg {A} (l : list A) limit :
  0 ≤ limit → Py.slice_to l limit = take (Z.to_nat limit) l.
Proof.
  intros Hl. unfold Py.slice_to.
  by destruct (Z.leb_spec 0 limit) as [_|?]; [|lia].
Qed.

Lemma build_Ok items tmdb_ids title_prefixes limit res :
  _build_candidates items tmdb_ids title_prefixes limit = Ok res →
  ∃ a, scan items tmdb_ids title_prefixes limit = Ok a
       ∧ res = Py.slice_to (results a) limit.
Proof.
  unfold _build_candidates. intros (a & Ha & [= <-])%bind_Ok. eauto.
Qed.

Lemma elem_of_expand c it :
  c ∈ expand it →
  ∃ al gl audio, audio_types_of it = Ok al ∧ genres_of it = Ok gl
    ∧ audio ∈ al ∧ c = make_candidate it al gl audio.
Proof.
  unfold expand.
  destruct (audio_types_of it) as [al|]; [|by inversion 1].
  destruct (genres_of it) as [gl|]; [|by inversion 1].
  intros (audio & -> & Hin)%list_elem_of_fmap. by exists al, gl, audio.
Qed.

Lemma expand_id_in_ids tmdb_ids it c :
  c ∈ expand it →
  id_in_ids tmdb_ids c ↔ id_matches (normalize_ids tmdb_ids) it = true.
Proof.
  intros (al & gl & audio & _ & _ & _ & ->)%elem_of_expand.
  unfold id_in_ids, id_matches. simpl. by rewrite bool_decide_eq_true.
Qed.

Lemma visited_prefix (P : item → Prop) `{!∀ it, Decision (P it)} n items :
  filter P items ≫= expand
  = (filter P (take n items) ≫= expand) ++ (filter P (drop n items) ≫= expand).
Proof. by rewrite <- bind_app, <- filter_app, take_drop. Qed.


(** ** Ordering of the result *)

Lemma id_scan_id_in_ids tmdb_ids items c :
  c ∈ id_scan tmdb_ids items → id_in_ids tmdb_ids c.
Proof.
  unfold id_scan. intros (it & Hc & Hit)%list_elem_of_bind.
  apply list_elem_of_filter in Hit as [Hm _].
  by apply (expand_id_in_ids tmdb_ids) in Hc as ->.
Qed.

Lemma id_in_ids_id_scan tmdb_ids items it c :
  it ∈ items → c ∈ expand it → id_in_ids tmdb_ids c →
  c ∈ id_scan tmdb_ids items.
Proof.
  intros Hit Hc Hid. unfold id_scan. apply list_elem_of_bind.
  exists it. split; [done|]. apply list_elem_of_filter. split; [|done].
  by apply (expand_id_in_ids tmdb_ids) in Hc as <-.
Qed.

Lemma expand_audio_order it al gl :
  audio_types_of it = Ok al → genres_of it = Ok gl →
  c_audio_type <$> expand it = al.
Proof.
  intros Hal Hgl. rewrite (expand_Ok _ _ _ Hal Hgl).
  generalize al at 2 3. intros l.
  induction l as [|x l IH]; simpl; [done | by f_equal].
Qed.

Lemma listed_id_in_ids tmdb_ids c :
  c_tmdb_id c ∈ tmdb_ids → Py.strip (c_tmdb_id c) ≠ EmptyString →
  id_in_ids tmdb_ids c.
Proof.
  intros Hin Hne. unfold id_in_ids, normalize_ids.
  apply elem_of_list_to_set, list_elem_of_filter.
  split; [by destruct (Py.strip (c_tmdb_id c))|].
  apply list_elem_of_fmap. eauto.
Qed.

(** C1. Whatever the order of the catalogue, the returned sequence is the
    candidates of ID-matched items followed by the candidates found by
    prefix only: it splits into a part whose candidates all come from items
    whose catalogue ID is accepted by the ID pass and a part whose
    candidates all come from other items.  Each part is a subsequence of
    its pass's scan, which lists the matching items in catalogue order and,
    inside one item, its audio-track types in the order of the item's
    list.  A candidate whose catalogue ID is not blank and is listed in the
    IDs is one that the ID pass accepts. *)
Theorem build_candidates_id_matches_first items tmdb_ids title_prefixes limit res :
  _build_candidates items tmdb_ids title_prefixes limit = Ok res →
  (∃ by_id by_prefix,
     res = by_id ++ by_prefix
     ∧ Forall (id_in_ids tmdb_ids) by_id
     ∧ Forall (λ c, ¬ id_in_ids tmdb_ids c) by_prefix
     ∧ by_id `sublist_of` id_scan tmdb_ids items
     ∧ by_prefix `sublist_of` prefix_scan title_prefixes items)
  ∧ (∀ it al gl, audio_types_of it = Ok al → genres_of it = Ok gl →
       c_audio_type <$> expand it = al)
  ∧ (∀ c, c_tmdb_id c ∈ tmdb_ids → Py.strip (c_tmdb_id c) ≠ EmptyString →
       id_in_ids tmdb_ids c).
Proof.
  intros (a & Ha & ->)%build_Ok.
  split; [|split; [apply expand_audio_order | apply listed_id_in_ids]].
  destruct (slice_to_take (results a) limit) as [m ->].
  apply scan_spec in Ha as (n & Hn & Hr & _). simpl in Hr.
  rewrite Hr, take_app.
  set (A0 := first_by_key ∅ (id_scan tmdb_ids items)).
  set (P := λ it, prefix_matches (normalize_prefixes title_prefixes) it = true) in *.
  set (visited := filter P (take n items) ≫= expand) in *.
  set (B0 := first_by_key (keys_of (id_scan tmdb_ids items)) visited).
  exists (take m A0), (take (m - length A0) B0).
  split; [done|]. split; [|split; [|split]].
  - apply Forall_forall. intros c Hc%subseteq_take.
    apply (id_scan_id_in_ids tmdb_ids items).
    eapply elem_of_sublist; [done | apply first_by_key_sublist].
  - apply Forall_forall. intros c Hc%subseteq_take Hid.
    pose proof (first_by_key_fresh _ _ _ Hc) as Hfresh.
    eapply elem_of_sublist in Hc; [|apply first_by_key_sublist].
    apply list_elem_of_bind in Hc as (it & Hc & Hit).
    apply list_elem_of_filter in Hit as [_ Hit%subseteq_take].
    apply Hfresh, elem_of_keys_of. exists c. split; [|done].
    by apply (id_in_ids_id_scan _ _ it).
  - etrans; [apply sublist_take | apply first_by_key_sublist].
  - etrans; [apply sublist_take|]. etrans; [apply first_by_key_sublist|].
    unfold prefix_scan. fold P. rewrite (visited_prefix P n items).
    by apply sublist_inserts_r.
Qed.

(** ** Deduplication *)

Lemma first_with_key_app k l l' c :
  first_with_key k l = Some c → first_with_key k (l ++ l') = Some c.
Proof.
  unfold first_with_key. induction l as [|x l IH]; simpl; [done|].
  by destruct (String.eqb (c_key x) k).
Qed.




Lemma scan_results_dedup items tmdb_ids title_prefixes limit a :
  scan items tmdb_ids title_prefixes limit = Ok a →
  ∃ rest, id_scan tmdb_ids items ++ prefix_scan title_prefixes items
          = (id_scan tmdb_ids items ++ rest.1) ++ rest.2
    ∧ results a = first_by_key ∅ (id_scan tmdb_ids items ++ rest.1).
Proof.
  intros (n & Hn & Hr & _)%scan_spec. simpl in Hr.
  set (P := λ it, prefix_matches (normalize_prefixes title_prefixes) it = true) in *.
  exists (filter P (take n items) ≫= expand, filter P (drop n items) ≫= expand).
  simpl. split.
  - unfold prefix_scan. fold P. by rewrite (visited_prefix P n items), app_assoc.
  - rewrite Hr, first_by_key_app. do 2 f_equal. set_solver.
Qed.

Lemma build_NoDup_first items tmdb_ids title_prefixes limit res :
  _build_candidates items tmdb_ids title_prefixes limit = Ok res →
  NoDup (c_key <$> res)
  ∧ ∀ c, c ∈ res →
      first_with_key (c_key c)
        (id_scan tmdb_ids items ++ prefix_scan title_prefixes items) = Some c.
Proof.
  intros (a & Ha & ->)%build_Ok.
  destruct (slice_to_take (results a) limit) as [m ->].
  apply scan_results_dedup in Ha as ([v r] & Hsplit & Hr). simpl in *.
  split.
  - rewrite fmap_take. eapply sublist_NoDup; [|apply sublist_take].
    rewrite Hr. apply first_by_key_NoDup.
  - intros c Hc%subseteq_take. rewrite Hr in Hc.
    rewrite Hsplit. by apply first_with_key_app, (first_by_key_is_first ∅).
Qed.


(** ** Limit, totality, determinism *)

Lemma add_item_readable it a : readable it → is_Ok (add_item it a).
Proof.
  intros [[al Hal] [gl Hgl]]. unfold add_item. rewrite Hal, Hgl. simpl.
  by eexists.
Qed.

Lemma id_pass_total S items a :
  Forall readable items → is_Ok (id_pass S items a).
Proof.
  intros Hall. revert a.
  induction Hall as [|it items Hit _ IH]; intros a; simpl; [by eexists|].
  destruct (id_matches S it); [|done].
  destruct (add_item_readable it a Hit) as [a1 ->]. simpl. apply IH.
Qed.

Lemma prefix_pass_total P limit items a :
  Forall readable items → is_Ok (prefix_pass P limit items a).
Proof.
  intros Hall. revert a.
  induction Hall as [|it items Hit _ IH]; intros a; simpl; [by eexists|].
  destruct (limit <=? _); [by eexists|].
  destruct (prefix_matches P it); [|done].
  destruct (add_item_readable it a Hit) as [a1 ->]. simpl. apply IH.
Qed.

Lemma build_total items tmdb_ids title_prefixes limit :
  Forall readable items →
  is_Ok (_build_candidates items tmdb_ids title_prefixes limit).
Proof.
  intros Hall. unfold _build_candidates, scan.
  set (a0 := {| results := []; seen_keys := ∅ |}).
  assert (is_Ok (if bool_decide (normalize_ids tmdb_ids ≠ ∅)
                 then id_pass (normalize_ids tmdb_ids) items a0 else Ok a0))
    as [a1 ->].
  { destruct (bool_decide _); [by apply id_pass_total | by eexists]. }
  simpl.
  destruct (_ && _).
  - destruct (prefix_pass_total (normalize_prefixes title_prefixes) limit
                items a1 Hall) as [a2 ->]. by eexists.
  - by eexists.
Qed.

(** an item whose list fields are arrays or null can always be read *)
Lemma readable_arrays it :
  (∀ s, audioTypes it ≠ JString s) →
  (∀ s, genres it ≠ JString s) → (∀ s, genre it ≠ JString s) →
  readable it.
Proof.
  intros Ha Hg Hg'. unfold readable, audio_types_of, genres_of, or_field.
  split.
  - destruct (audioTypes it) as [|s|l]; simpl; [by eexists| by destruct (Ha s) | by eexists].
  - destruct (truthy (genres it)).
    + destruct (genres it) as [|s|l]; simpl; [by eexists| by destruct (Hg s) | by eexists].
    + destruct (genre it) as [|s|l]; simpl; [by eexists| by destruct (Hg' s) | by eexists].
Qed.

Lemma build_length items tmdb_ids title_prefixes limit res :
  0 ≤ limit →
  _build_candidates items tmdb_ids title_prefixes limit = Ok res →
  Z.of_nat (length res) ≤ limit.
Proof.
  intros Hl (a & _ & ->)%build_Ok.
  rewrite slice_to_nonneg, length_take by done. lia.
Qed.

Lemma build_ids_as_set items tmdb_ids tmdb_ids' title_prefixes limit :
  normalize_ids tmdb_ids' = normalize_ids tmdb_ids →
  _build_candidates items tmdb_ids' title_prefixes limit
  = _build_candidates items tmdb_ids title_prefixes limit.
Proof. intros E. unfold _build_candidates, scan. by rewrite E. Qed.

(** C2, as amended.  For a limit that is not negative the builder returns at
    most [limit] candidates, and it does return whenever the list fields of
    the items can be read; it is a function of its inputs (two calls on the
    same inputs give the same sequence) and reads the IDs only as the set
    of their trimmed non-blank entries; and a search that is triggered
    without a limit runs with the limit 10. *)
Theorem build_candidates_limit `{Consts} items tmdb_ids title_prefixes limit :
  (Forall readable items →
   is_Ok (_build_candidates items tmdb_ids title_prefixes limit))
  ∧ (0 ≤ limit → ∀ res,
     _build_candidates items tmdb_ids title_prefixes limit = Ok res →
     Z.of_nat (length res) ≤ limit)
  ∧ (∀ r1 r2,
     _build_candidates items tmdb_ids title_prefixes limit = r1 →
     _build_candidates items tmdb_ids title_prefixes limit = r2 → r1 = r2)
  ∧ (∀ tmdb_ids', normalize_ids tmdb_ids' = normalize_ids tmdb_ids →
     _build_candidates items tmdb_ids' title_prefixes limit
     = _build_candidates items tmdb_ids title_prefixes limit)
  ∧ DEFAULT_LIMIT = 10
  ∧ (∀ env call entry_id, d_limit call = None →
     _service_find_candidates env call entry_id
     = _service_find_candidates env (with_limit (Some 10) call) entry_id).
Proof.
  split; [apply build_total|].
  split; [intros ? res; by apply build_length|].
  split; [congruence|].
  split; [intros ?; apply build_ids_as_set|].
  split; [done|].
  intros env call entry_id Hnone.
  unfold _service_find_candidates, find_candidates_enabled, find_search.
  rewrite Hnone. reflexivity.
Qed.

(** ** Expansion of one item *)

Lemma string_app_assoc (a b c : string) : (a +:+ b) +:+ c = a +:+ b +:+ c.
Proof.
  induction a as [|x a IH]; [done|].
  change (String x ((a +:+ b) +:+ c) = String x (a +:+ b +:+ c)).
  by f_equal.
Qed.









(** ** Trimming *)

Module PyFacts.
Import Py.

Lemma app_cons c s t : String c s +:+ t = String c (s +:+ t).
Proof. reflexivity. Qed.

Lemma app_nil_l t : EmptyString +:+ t = t.
Proof. reflexivity. Qed.

Lemma app_nil_r s : s +:+ EmptyString = s.
Proof. induction s as [|c s IH]; [done|]. rewrite app_cons. by f_equal. Qed.

(** *** The bytes of white space *)

Lemma isspace1_low a : isspace1 a = true → (nat_of_ascii a ≤ 32)%nat.
Proof.
  unfold isspace1.
  rewrite orb_true_iff, !andb_true_iff, !Nat.leb_le. lia.
Qed.

Lemma isspace2_high a b :
  isspace2 a b = true → (128 ≤ nat_of_ascii a ∧ 128 ≤ nat_of_ascii b)%nat.
Proof.
  unfold isspace2, byte_is.
  rewrite andb_true_iff, orb_true_iff, !Nat.eqb_eq. lia.
Qed.

Lemma isspace3_high a b c :
  isspace3 a b c = true →
  (128 ≤ nat_of_ascii a ∧ 128 ≤ nat_of_ascii b ∧ 128 ≤ nat_of_ascii c)%nat.
Proof.
  unfold isspace3, byte_is, byte_in.
  rewrite !orb_true_iff, !andb_true_iff, !orb_true_iff, !andb_true_iff,
    !Nat.eqb_eq, !Nat.leb_le.
  lia.
Qed.

Lemma printable_range c :
  printable c = true → (33 ≤ nat_of_ascii c ≤ 126)%nat.
Proof. unfold printable, byte_in. rewrite andb_true_iff, !Nat.leb_le. lia. Qed.

Lemma eqb_nat a c : nat_of_ascii a ≠ nat_of_ascii c → Ascii.eqb a c = false.
Proof. intros Hn. apply Ascii.eqb_neq. by intros ->. Qed.

Lemma isspace1_printable c : printable c = true → isspace1 c = false.
Proof.
  intros Hc%printable_range. destruct (isspace1 c) eqn:E; [|done].
  apply isspace1_low in E. lia.
Qed.

Lemma isspace2_printable_l c b : printable c = true → isspace2 c b = false.
Proof.
  intros Hc%printable_range. destruct (isspace2 c b) eqn:E; [|done].
  apply isspace2_high in E. lia.
Qed.

Lemma isspace3_printable_l c b d : printable c = true → isspace3 c b d = false.
Proof.
  intros Hc%printable_range. destruct (isspace3 c b d) eqn:E; [|done].
  apply isspace3_high in E. lia.
Qed.

(** a printable ASCII character is no byte of a white-space character *)
Lemma space_char_contains c t :
  printable c = true → space_char t = true → contains c t = false.
Proof.
  intros Hc%printable_range Ht.
  destruct t as [|x [|y [|z [|? ?]]]]; try done; cbn [space_char] in Ht;
    cbn [contains].
  - apply isspace1_low in Ht. rewrite eqb_nat by lia. done.
  - apply isspace2_high in Ht. rewrite !eqb_nat by lia. done.
  - apply isspace3_high in Ht. rewrite !eqb_nat by lia. done.
Qed.

Lemma space_char_nonempty t : space_char t = true → t ≠ EmptyString.
Proof. by destruct t. Qed.

(** *** Trimming in front *)

Lemma lstrip_cons a s1 :
  lstrip (String a s1)
  = if isspace1 a then lstrip s1
    else match s1 with
         | EmptyString => String a s1
         | String b s2 =>
             if isspace2 a b then lstrip s2
             else match s2 with
                  | EmptyString => String a s1
                  | String c s3 =>
                      if isspace3 a b c then lstrip s3 else String a s1
                  end
         end.
Proof. reflexivity. Qed.

Lemma lstrip_cases (P : string → string → Prop) :
  (∀ s, starts_space s = false → P s s) →
  (∀ a s r, isspace1 a = true → P s r → P (String a s) r) →
  (∀ a b s r, isspace1 a = false → isspace2 a b = true → P s r →
     P (String a (String b s)) r) →
  (∀ a b c s r, isspace1 a = false → isspace2 a b = false →
     isspace3 a b c = true → P s r → P (String a (String b (String c s))) r) →
  ∀ s, P s (lstrip s).
Proof.
  intros H0 H1 H2 H3 s.
  assert (∀ n s, (String.length s ≤ n)%nat → P s (lstrip s)) as Hn;
    [|by eapply Hn].
  clear s. induction n as [|n IH]; intros s Hs.
  - destruct s; [|simpl in Hs; lia]. by apply H0.
  - destruct s as [|a s1]; [by apply H0|]. cbn [String.length] in Hs.
    rewrite lstrip_cons. destruct (isspace1 a) eqn:E1.
    { apply H1; [done|]. apply IH. lia. }
    destruct s1 as [|b s2].
    { apply H0. cbn [starts_space]. by rewrite E1. }
    cbn [String.length] in Hs. destruct (isspace2 a b) eqn:E2.
    { apply H2; [done..|]. apply IH. lia. }
    destruct s2 as [|c s3].
    { apply H0. cbn [starts_space]. by rewrite E1, E2. }
    cbn [String.length] in Hs. destruct (isspace3 a b c) eqn:E3.
    + apply H3; [done..|]. apply IH. lia.
    + apply H0. cbn [starts_space]. by rewrite E1, E2, E3.
Qed.

Lemma lstrip_no_lead s : starts_space (lstrip s) = false.
Proof. by apply (lstrip_cases (λ _ r, starts_space r = false)). Qed.

Lemma no_lead_lstrip s : starts_space s = false → lstrip s = s.
Proof.
  destruct s as [|a [|b [|c s3]]]; [done|..]; cbn [starts_space];
    rewrite lstrip_cons.
  - rewrite orb_false_r. by intros ->.
  - rewrite orb_false_r. by intros [-> ->]%orb_false_elim.
  - by intros [-> [-> ->]%orb_false_elim]%orb_false_elim.
Qed.

Lemma lstrip_printable c s :
  printable c = true → lstrip (String c s) = String c s.
Proof.
  intros Hc. apply no_lead_lstrip. cbn [starts_space].
  rewrite (isspace1_printable c Hc). destruct s as [|b [|d s]]; [done|..].
  - by rewrite (isspace2_printable_l c b Hc).
  - by rewrite (isspace2_printable_l c b Hc), (isspace3_printable_l c b d Hc).
Qed.

(** *** Trimming at the end *)

Lemma rstrip_cons c s :
  rstrip (String c s)
  = if space_char (String c (rstrip s)) then EmptyString
    else String c (rstrip s).
Proof. reflexivity. Qed.

Lemma rstrip_prefix s : ∃ w, s = rstrip s +:+ w.
Proof.
  induction s as [|c s [w IH]]; [by exists EmptyString|].
  rewrite rstrip_cons. destruct (space_char _).
  - by eexists.
  - exists w. rewrite app_cons. by rewrite <- IH.
Qed.

Lemma starts_space_prefix p w :
  starts_space (p +:+ w) = false → starts_space p = false.
Proof.
  destruct p as [|a [|b [|c p]]]; [done|..];
    rewrite ?app_cons, ?app_nil_l; cbn [starts_space].
  - intros [-> _]%orb_false_elim. done.
  - intros [-> [-> _]%orb_false_elim]%orb_false_elim. done.
  - done.
Qed.

Lemma rstrip_no_lead s : starts_space s = false → starts_space (rstrip s) = false.
Proof.
  intros Hs. destruct (rstrip_prefix s) as [w Hw]. rewrite Hw in Hs.
  by apply starts_space_prefix in Hs.
Qed.

Lemma rstrip_idemp s : rstrip (rstrip s) = rstrip s.
Proof.
  induction s as [|c s IH]; [done|]. rewrite rstrip_cons.
  destruct (space_char (String c (rstrip s))) eqn:E; [done|].
  by rewrite rstrip_cons, IH, E.
Qed.

Lemma strip_idemp s : strip (strip s) = strip s.
Proof.
  unfold strip.
  rewrite (no_lead_lstrip (rstrip (lstrip s)))
    by apply rstrip_no_lead, lstrip_no_lead.
  apply rstrip_idemp.
Qed.

Lemma strip_empty : strip EmptyString = EmptyString.
Proof. reflexivity. Qed.

(** *** Trimming and the separators *)

Lemma contains_lstrip c s :
  printable c = true → contains c (lstrip s) = contains c s.
Proof.
  intros Hc.
  apply (lstrip_cases (λ s r, contains c r = contains c s)); [done|..].
  - intros a t r Ha ->.
    pose proof (space_char_contains c (String a EmptyString) Hc Ha) as Hn.
    cbn [contains] in *. rewrite orb_false_r in Hn. by rewrite Hn.
  - intros a b t r _ Hab ->.
    pose proof (space_char_contains c (String a (String b EmptyString)) Hc Hab)
      as Hn.
    cbn [contains] in *. rewrite orb_false_r in Hn.
    apply orb_false_elim in Hn as [-> ->]. done.
  - intros a b d t r _ _ Habd ->.
    pose proof (space_char_contains c
                  (String a (String b (String d EmptyString))) Hc Habd) as Hn.
    cbn [contains] in *. rewrite orb_false_r in Hn.
    apply orb_false_elim in Hn as [-> [-> ->]%orb_false_elim]. done.
Qed.

Lemma contains_app_l c s t :
  contains c (s +:+ t) = contains c s || contains c t.
Proof.
  induction s as [|x s IH]; [done|]. rewrite app_cons. cbn [contains].
  by rewrite IH, orb_assoc.
Qed.

Lemma contains_rstrip c s :
  printable c = true → contains c (rstrip s) = contains c s.
Proof.
  intros Hc. induction s as [|x s IH]; [done|]. rewrite rstrip_cons.
  destruct (space_char (String x (rstrip s))) eqn:E.
  - apply (space_char_contains c _ Hc) in E. cbn [contains] in *.
    by rewrite <- IH, E.
  - cbn [contains]. by rewrite IH.
Qed.

Lemma contains_strip c s :
  printable c = true → contains c (strip s) = contains c s.
Proof.
  intros Hc. unfold strip. by rewrite contains_rstrip, contains_lstrip.
Qed.

(** trimming removes characters only *)
Lemma contains_lstrip_false c s :
  contains c s = false → contains c (lstrip s) = false.
Proof.
  apply (lstrip_cases (λ s r, contains c s = false → contains c r = false));
    [done|..]; clear s.
  - intros a s r _ IH [_ Hs]%orb_false_elim. by apply IH.
  - intros a b s r _ _ IH [_ [_ Hs]%orb_false_elim]%orb_false_elim.
    by apply IH.
  - intros a b d s r _ _ _ IH
      [_ [_ [_ Hs]%orb_false_elim]%orb_false_elim]%orb_false_elim.
    by apply IH.
Qed.

Lemma contains_rstrip_false c s :
  contains c s = false → contains c (rstrip s) = false.
Proof.
  induction s as [|x s IH]; [done|]. cbn [contains].
  intros [Hx Hs]%orb_false_elim. rewrite rstrip_cons.
  destruct (space_char _); [done|]. cbn [contains]. by rewrite Hx, IH.
Qed.

Lemma contains_strip_false c s :
  contains c s = false → contains c (strip s) = false.
Proof. intros. by apply contains_rstrip_false, contains_lstrip_false. Qed.

(** a string that ends with a printable ASCII character has no white
    space at its end *)
Lemma rstrip_ends_printable X c :
  printable c = true →
  rstrip (X +:+ String c EmptyString) = X +:+ String c EmptyString.
Proof.
  intros Hc. induction X as [|x X IH].
  - rewrite app_nil_l, rstrip_cons. cbn [rstrip space_char].
    by rewrite (isspace1_printable c Hc).
  - rewrite app_cons, rstrip_cons, IH.
    destruct (space_char _) eqn:E; [|done].
    apply (space_char_contains c _ Hc) in E.
    rewrite <- app_cons, contains_app_l in E. cbn [contains] in E.
    rewrite Ascii.eqb_refl, orb_true_r in E. done.
Qed.

Lemma nonempty_true s : nonempty s = true ↔ s ≠ EmptyString.
Proof. by destruct s. Qed.

End PyFacts.

(** ** The CSV reader *)

Module CsvFacts.
Import Csv CsvSpec PyFacts.

Section delimiter.
Variable d : ascii.

Lemma process_line_nil self :
  process_line d self EmptyString = parse_process_char d self None.
Proof. reflexivity. Qed.

Lemma process_line_cons self c r :
  process_line d self (String c r)
  = parse_process_char d self (Some c) ≫= λ self', process_line d self' r.
Proof.
  unfold process_line. simpl.
  by destruct (parse_process_char d self (Some c)).
Qed.

Lemma process_line_app self a b :
  process_line d self (a +:+ b)
  = process_chars d self a ≫= λ self', process_line d self' b.
Proof.
  revert self. induction a as [|c a IH]; intros self; [done|].
  rewrite app_cons, process_line_cons. simpl.
  destruct (parse_process_char d self (Some c)) as [self'|]; simpl; [|done].
  apply IH.
Qed.

(** *** Totality without carriage returns *)

Lemma eol_Ok self :
  ∃ self', parse_process_char d self None = Ok self'
           ∧ state self' ≠ EAT_CRNL.
Proof.
  unfold parse_process_char, start_field.
  destruct self as [[] fs f]; simpl; eexists; (split; [done|]); simpl; done.
Qed.

Lemma char_Ok self c :
  state self ≠ EAT_CRNL →
  ∃ self', parse_process_char d self (Some c) = Ok self'
           ∧ (is_nl c = false → state self' ≠ EAT_CRNL).
Proof.
  unfold parse_process_char, start_field.
  destruct self as [[] fs f]; simpl; intros Hst; try done;
    destruct (is_nl c); simpl;
    repeat (match goal with |- context [if ?b then _ else _] => destruct b end);
    eexists; (split; [done|]); simpl; done.
Qed.

Lemma good_line_Ok l self :
  good_line l = true → state self ≠ EAT_CRNL →
  ∃ self', process_line d self l = Ok self' ∧ state self' ≠ EAT_CRNL.
Proof.
  revert self. induction l as [|c r IH]; intros self Hl Hst.
  - rewrite process_line_nil. apply eol_Ok.
  - rewrite process_line_cons. simpl in Hl.
    destruct (char_Ok self c Hst) as (self1 & -> & Hst1). simpl.
    destruct (Ascii.eqb_spec c CR) as [|Hcr]; [done|].
    destruct (Ascii.eqb_spec c LF) as [->|Hlf].
    + destruct r; [|done]. rewrite process_line_nil. apply eol_Ok.
    + apply IH; [done|]. apply Hst1. unfold is_nl.
      by rewrite (proj2 (Ascii.eqb_neq _ _) Hcr), (proj2 (Ascii.eqb_neq _ _) Hlf).
Qed.

Lemma readlines_good s :
  Py.contains CR s = false → Forall (λ l, good_line l = true) (Py.readlines s).
Proof.
  induction s as [|c s IH]; simpl; [constructor|].
  intros [Hc Hs]%orb_false_elim. specialize (IH Hs).
  destruct (Ascii.eqb_spec c "010") as [->|Hlf].
  - constructor; [done | done].
  - assert (good_line (String c EmptyString) = true) as H1.
    { simpl. rewrite Hc. by rewrite (proj2 (Ascii.eqb_neq c LF)). }
    destruct (Py.readlines s) as [|l ls]; [by constructor|].
    inversion IH; subst. constructor; [|done]. simpl.
    rewrite Hc. by rewrite (proj2 (Ascii.eqb_neq c LF)).
Qed.

Lemma reader_rows_Ok lines self :
  Forall (λ l, good_line l = true) lines → state self ≠ EAT_CRNL →
  is_Ok (reader_rows d lines self).
Proof.
  intros Hall. revert self.
  induction Hall as [|l lines Hl _ IH]; intros self Hst; simpl.
  - destruct (_ || _); by eexists.
  - destruct (good_line_Ok l self Hl Hst) as (self' & -> & Hst'). simpl.
    destruct (bool_decide (state self' = START_RECORD)).
    + destruct (IH parse_reset) as [rows ->]; [done|]. by eexists.
    + by apply IH.
Qed.

Lemma reader_Ok text : Py.contains CR text = false → is_Ok (reader d text).
Proof.
  intros H. apply reader_rows_Ok; [by apply readlines_good | done].
Qed.

(** *** A text without quotes and line breaks is split at the delimiter *)

Lemma split_nonempty s : split d s ≠ [].
Proof.
  induction s as [|c s IH]; simpl; [done|].
  destruct (Ascii.eqb c d); [done|]. by destruct (split d s).
Qed.

Lemma plain_cons c s :
  plain (String c s) →
  is_nl c = false ∧ Ascii.eqb c quotechar = false ∧ plain s.
Proof.
  unfold plain, is_nl. simpl.
  intros ([Hq Hqs]%orb_false_elim & [Hl Hls]%orb_false_elim
          & [Hr Hrs]%orb_false_elim).
  by rewrite Hq, Hl, Hr.
Qed.

Lemma split_delim r : split d (String d r) = EmptyString :: split d r.
Proof. simpl. by rewrite Ascii.eqb_refl. Qed.

Lemma split_other c r x xs :
  c ≠ d → split d r = x :: xs → split d (String c r) = String c x :: xs.
Proof.
  intros Hc Hr. simpl. rewrite Hr.
  by rewrite (proj2 (Ascii.eqb_neq c d)).
Qed.

Lemma lstrip_space_SP x : lstrip_space (String SP x) = lstrip_space x.
Proof. reflexivity. Qed.

Lemma lstrip_space_other c x :
  c ≠ SP → lstrip_space (String c x) = String c x.
Proof. intros Hc. simpl. by rewrite (proj2 (Ascii.eqb_neq c SP)). Qed.

Lemma start_field_plain fs c :
  is_nl c = false → Ascii.eqb c quotechar = false →
  parse_process_char d (mkReader START_FIELD fs EmptyString) (Some c)
  = Ok (if Ascii.eqb c SP then mkReader START_FIELD fs EmptyString
        else if Ascii.eqb c d
             then mkReader START_FIELD (fs ++ [EmptyString]) EmptyString
        else mkReader IN_FIELD fs (String c EmptyString)).
Proof.
  intros Hnl Hq. unfold parse_process_char, start_field.
  cbn [state]. rewrite Hnl, Hq.
  destruct (Ascii.eqb c SP); [done|]. by destruct (Ascii.eqb c d).
Qed.

Lemma in_field_plain fs cur c :
  is_nl c = false →
  parse_process_char d (mkReader IN_FIELD fs cur) (Some c)
  = Ok (if Ascii.eqb c d then mkReader START_FIELD (fs ++ [cur]) EmptyString
        else mkReader IN_FIELD fs (cur +:+ String c EmptyString)).
Proof.
  intros Hnl. unfold parse_process_char. cbn [state]. rewrite Hnl.
  by destruct (Ascii.eqb c d).
Qed.

Lemma plain_line s : d ≠ SP → plain s → ∀ fs,
  process_line d (mkReader START_FIELD fs EmptyString) s
  = Ok (mkReader START_RECORD (fs ++ (lstrip_space <$> split d s)) EmptyString)
  ∧ ∀ cur,
    process_line d (mkReader IN_FIELD fs cur) s
    = Ok (mkReader START_RECORD (fs ++ continue cur (split d s)) EmptyString).
Proof.
  intros Hd. induction s as [|c s IH]; intros Hs fs.
  - split; [done|]. intros cur. rewrite process_line_nil.
    unfold parse_process_char, parse_save_field, set_state. cbn.
    by rewrite app_nil_r.
  - apply plain_cons in Hs as (Hnl & Hq & Hs). specialize (IH Hs).
    destruct (split d s) as [|x xs] eqn:Hsplit; [by destruct (split_nonempty s)|].
    split; [|intros cur]; rewrite process_line_cons.
    + rewrite start_field_plain by done.
      destruct (Ascii.eqb_spec c SP) as [->|Hsp]; [|destruct (Ascii.eqb_spec c d) as [->|Hcd]].
      * cbn [mbind result_bind]. rewrite (proj1 (IH fs)).
        rewrite (split_other SP s x xs) by done. cbn [fmap list_fmap].
        by rewrite lstrip_space_SP.
      * cbn [mbind result_bind]. rewrite (proj1 (IH _)), split_delim.
        cbn [fmap list_fmap]. rewrite Hsplit, <- app_assoc. done.
      * cbn [mbind result_bind]. rewrite (proj2 (IH fs)).
        rewrite (split_other c s x xs) by done. cbn [fmap list_fmap continue].
        by rewrite lstrip_space_other.
    + rewrite in_field_plain by done.
      destruct (Ascii.eqb_spec c d) as [->|Hcd].
      * cbn [mbind result_bind]. rewrite (proj1 (IH _)), split_delim.
        cbn [continue fmap list_fmap]. by rewrite Hsplit, <- app_assoc, app_nil_r.
      * cbn [mbind result_bind]. rewrite (proj2 (IH fs)).
        rewrite (split_other c s x xs) by done. cbn [continue].
        by rewrite string_app_assoc.
Qed.

Lemma readlines_one_line s :
  s ≠ EmptyString → Py.contains LF s = false → Py.readlines s = [s].
Proof.
  induction s as [|c s IH]; [done|]. intros _. simpl.
  intros [Hc Hs]%orb_false_elim. change "010"%char with LF. rewrite Hc.
  destruct s as [|c' s']; [done|]. by rewrite IH.
Qed.

Lemma start_record_as_start_field c r :
  is_nl c = false →
  process_line d parse_reset (String c r)
  = process_line d (mkReader START_FIELD [] EmptyString) (String c r).
Proof.
  intros Hnl. rewrite !process_line_cons.
  unfold parse_process_char. simpl. by rewrite Hnl.
Qed.

Lemma reader_plain text :
  d ≠ SP → text ≠ EmptyString → plain text →
  reader d text = Ok [lstrip_space <$> split d text].
Proof.
  intros Hd Hne Hp. unfold reader.
  rewrite readlines_one_line by (done || apply Hp). simpl.
  destruct text as [|c r]; [done|].
  rewrite start_record_as_start_field by (by apply plain_cons in Hp as [? _]).
  by rewrite (proj1 (plain_line _ Hd Hp [])).
Qed.

(** *** Quoted fields *)

Lemma in_quoted_quote fs cur :
  parse_process_char d (mkReader IN_QUOTED_FIELD fs cur) (Some quotechar)
  = Ok (mkReader QUOTE_IN_QUOTED_FIELD fs cur).
Proof. reflexivity. Qed.

Lemma in_quoted_other fs cur c :
  c ≠ quotechar →
  parse_process_char d (mkReader IN_QUOTED_FIELD fs cur) (Some c)
  = Ok (mkReader IN_QUOTED_FIELD fs (cur +:+ String c EmptyString)).
Proof.
  intros Hc. unfold parse_process_char. cbn [state].
  by rewrite (proj2 (Ascii.eqb_neq c quotechar)).
Qed.

Lemma quote_in_quoted_quote fs cur :
  parse_process_char d (mkReader QUOTE_IN_QUOTED_FIELD fs cur) (Some quotechar)
  = Ok (mkReader IN_QUOTED_FIELD fs (cur +:+ String quotechar EmptyString)).
Proof. reflexivity. Qed.

Lemma quote_in_quoted_delim fs cur :
  d ≠ quotechar →
  parse_process_char d (mkReader QUOTE_IN_QUOTED_FIELD fs cur) (Some d)
  = Ok (mkReader START_FIELD (fs ++ [cur]) EmptyString).
Proof.
  intros Hd. unfold parse_process_char. cbn [state].
  by rewrite (proj2 (Ascii.eqb_neq d quotechar)), Ascii.eqb_refl.
Qed.

Lemma start_field_quote fs :
  parse_process_char d (mkReader START_FIELD fs EmptyString) (Some quotechar)
  = Ok (mkReader IN_QUOTED_FIELD fs EmptyString).
Proof. reflexivity. Qed.

Lemma in_quoted_field f : ∀ fs cur rest,
  process_line d (mkReader IN_QUOTED_FIELD fs cur)
    (double_quotes f +:+ String quotechar rest)
  = process_line d (mkReader QUOTE_IN_QUOTED_FIELD fs (cur +:+ f)) rest.
Proof.
  induction f as [|c f IH]; intros fs cur rest.
  - cbn [double_quotes]. rewrite app_nil_l, app_nil_r, process_line_cons.
    by rewrite in_quoted_quote.
  - cbn [double_quotes]. destruct (Ascii.eqb_spec c quotechar) as [->|Hq].
    + rewrite !app_cons, !process_line_cons, in_quoted_quote.
      cbn [mbind result_bind]. rewrite process_line_cons, quote_in_quoted_quote.
      cbn [mbind result_bind]. rewrite IH. by rewrite string_app_assoc.
    + rewrite app_cons, process_line_cons, in_quoted_other by done.
      cbn [mbind result_bind]. rewrite IH. by rewrite string_app_assoc.
Qed.

Lemma quoted_fields fs : d ≠ quotechar → fs ≠ [] → ∀ saved,
  process_line d (mkReader START_FIELD saved EmptyString)
    (Py.join (String d EmptyString) (quoted <$> fs))
  = Ok (mkReader START_RECORD (saved ++ fs) EmptyString).
Proof.
  intros Hd. induction fs as [|f fs IH]; [done|]. intros _ saved.
  destruct fs as [|f' fs'].
  - cbn [fmap list_fmap Py.join]. unfold quoted.
    rewrite process_line_cons, start_field_quote. cbn [mbind result_bind].
    rewrite in_quoted_field, process_line_nil, app_nil_l. done.
  - change (Py.join (String d EmptyString) (quoted <$> f :: f' :: fs'))
      with (quoted f +:+ String d EmptyString
            +:+ Py.join (String d EmptyString) (quoted <$> f' :: fs')).
    unfold quoted at 1.
    rewrite app_cons, process_line_cons, start_field_quote.
    cbn [mbind result_bind].
    rewrite string_app_assoc, app_cons, in_quoted_field.
    rewrite !app_nil_l, app_cons, process_line_cons, quote_in_quoted_delim by done.
    cbn [mbind result_bind]. rewrite !app_nil_l.
    rewrite IH by done. by rewrite <- app_assoc.
Qed.

Lemma contains_app c a b :
  Py.contains c (a +:+ b) = Py.contains c a || Py.contains c b.
Proof.
  induction a as [|x a IH]; [done|]. rewrite app_cons. simpl.
  by rewrite IH, orb_assoc.
Qed.

Lemma contains_double_quotes c f :
  Py.contains c (double_quotes f) = Py.contains c f.
Proof.
  induction f as [|x f IH]; [done|]. cbn [double_quotes].
  destruct (Ascii.eqb_spec x quotechar) as [->|Hx]; cbn [Py.contains];
    rewrite IH.
  - by destruct (Ascii.eqb quotechar c).
  - done.
Qed.

Lemma contains_quoted_LF f :
  Py.contains LF (quoted f) = Py.contains LF f.
Proof.
  unfold quoted. cbn [Py.contains].
  rewrite contains_app, contains_double_quotes. cbn.
  by rewrite orb_false_r.
Qed.

Lemma contains_join_quoted_LF fs :
  d ≠ LF → Forall (λ f, Py.contains LF f = false) fs →
  Py.contains LF (Py.join (String d EmptyString) (quoted <$> fs)) = false.
Proof.
  intros Hd. induction 1 as [|f fs Hf Hfs IH]; [done|].
  destruct fs as [|f' fs'].
  - cbn [fmap list_fmap Py.join]. by rewrite contains_quoted_LF.
  - change (Py.join (String d EmptyString) (quoted <$> f :: f' :: fs'))
      with (quoted f +:+ String d EmptyString
            +:+ Py.join (String d EmptyString) (quoted <$> f' :: fs')).
    rewrite !contains_app, contains_quoted_LF, Hf, IH. cbn [Py.contains orb].
    by rewrite (proj2 (Ascii.eqb_neq d LF)).
Qed.

(** a line of quoted fields is read back as the fields: a delimiter
    between quotes does not split, a doubled quote stands for one *)
Lemma reader_quoted fs :
  d ≠ quotechar → d ≠ LF → fs ≠ [] →
  Forall (λ f, Py.contains LF f = false) fs →
  reader d (Py.join (String d EmptyString) (quoted <$> fs)) = Ok [fs].
Proof.
  intros Hq Hlf Hne Hfs. unfold reader.
  assert (∃ r, Py.join (String d EmptyString) (quoted <$> fs)
               = String quotechar r) as [r Hr].
  { destruct fs as [|f [|f' fs']]; [done| |]; unfold quoted; eauto. }
  rewrite readlines_one_line;
    [|by rewrite Hr|by apply contains_join_quoted_LF].
  cbn [reader_rows]. rewrite Hr, start_record_as_start_field by done.
  rewrite <- Hr, quoted_fields by done. done.
Qed.

End delimiter.
End CsvFacts.

(** ** [_parse_values] *)

Section parse_values.
Import Py PyFacts Csv CsvSpec CsvFacts.

Lemma choose_delimiter_cases text :
  choose_delimiter text = ";"%char ∨ choose_delimiter text = ","%char.
Proof. unfold choose_delimiter. destruct (_ && _); auto. Qed.

Lemma choose_delimiter_strip raw :
  choose_delimiter (strip raw) = choose_delimiter raw.
Proof. unfold choose_delimiter. by rewrite !contains_strip. Qed.

Lemma parse_values_unfold raw :
  _parse_values (Some raw)
  = if nonempty (strip raw)
    then Csv.reader (choose_delimiter (strip raw)) (strip raw)
           ≫= λ rows, Ok (collect_cells rows)
    else Ok [].
Proof.
  unfold _parse_values. destruct raw as [|c r]; [done|].
  cbn [nonempty negb]. by destruct (nonempty (strip (String c r))).
Qed.

Lemma collect_cells_trimmed rows :
  Forall (λ v, v ≠ EmptyString ∧ strip v = v) (collect_cells rows).
Proof.
  unfold collect_cells. apply Forall_forall.
  intros v [Hv (x & -> & _)%list_elem_of_fmap]%list_elem_of_filter.
  split; [by apply nonempty_true | apply strip_idemp].
Qed.

Lemma lstrip_lstrip_space x : lstrip (lstrip_space x) = lstrip x.
Proof.
  induction x as [|c r IH]; [done|]. cbn [lstrip_space].
  destruct (Ascii.eqb_spec c SP) as [->|_]; [|done].
  by rewrite IH, (lstrip_cons SP r).
Qed.

Lemma strip_lstrip_space x : strip (lstrip_space x) = strip x.
Proof. unfold strip. by rewrite lstrip_lstrip_space. Qed.

Lemma collect_cells_one_row l :
  collect_cells [lstrip_space <$> l]
  = filter (λ v, nonempty v = true) (strip <$> l).
Proof.
  unfold collect_cells. cbn [concat]. rewrite List.app_nil_r.
  rewrite <- list_fmap_compose. f_equal.
  apply list_fmap_ext. intros _ x _. apply strip_lstrip_space.
Qed.

Lemma join_quoted_shape d fs :
  fs ≠ [] →
  ∃ X, join (String d EmptyString) (quoted <$> fs)
       = String quotechar X +:+ String quotechar EmptyString.
Proof.
  induction fs as [|f fs IH]; [done|]. intros _.
  destruct fs as [|f' fs'].
  - cbn [fmap list_fmap join]. unfold quoted. eexists.
    by rewrite app_cons.
  - destruct IH as [X HX]; [done|].
    change (join (String d EmptyString) (quoted <$> f :: f' :: fs'))
      with (quoted f +:+ String d EmptyString
            +:+ join (String d EmptyString) (quoted <$> f' :: fs')).
    rewrite HX. unfold quoted.
    exists (double_quotes f +:+ String quotechar EmptyString
            +:+ String d EmptyString +:+ String quotechar X).
    by rewrite !app_cons, !string_app_assoc.
Qed.

Lemma strip_join_quoted d fs :
  fs ≠ [] →
  strip (join (String d EmptyString) (quoted <$> fs))
  = join (String d EmptyString) (quoted <$> fs).
Proof.
  intros [X ->]%(join_quoted_shape d). unfold strip.
  rewrite app_cons, lstrip_printable, <- app_cons by done.
  by apply rstrip_ends_printable.
Qed.

(** C10. How the identifier input is split.  The delimiter is the semicolon
    exactly when the raw string contains a semicolon and no comma, and the
    comma otherwise; the values are the cells that the CSV reader with that
    delimiter finds in the trimmed string, each trimmed, the empty ones
    dropped; an empty or blank string, or no string, gives no values; every
    value returned is trimmed and not empty; a string without carriage
    return is always read; a string without quotes and line breaks is
    split at every delimiter; and fields written between double quotes are
    read back as they are, delimiter and doubled quotes included. *)
Theorem parse_values_spec (raw : string) :
  let text := strip raw in
  let d := choose_delimiter text in
  d = (if contains ";" raw && negb (contains "," raw)
       then ";"%char else ","%char)
  ∧ _parse_values (Some raw)
    = (if nonempty text
       then Csv.reader d text ≫= λ rows, Ok (collect_cells rows)
       else Ok [])
  ∧ (text = EmptyString → _parse_values (Some raw) = Ok [])
  ∧ _parse_values None = Ok []
  ∧ (∀ vs, _parse_values (Some raw) = Ok vs →
       Forall (λ v, v ≠ EmptyString ∧ strip v = v) vs)
  ∧ (contains CR raw = false → is_Ok (_parse_values (Some raw)))
  ∧ (plain text →
     _parse_values (Some raw)
     = Ok (filter (λ v, nonempty v = true) (strip <$> split d text)))
  ∧ (∀ fs, fs ≠ [] → Forall (λ f, contains LF f = false) fs →
     raw = join (String d EmptyString) (quoted <$> fs) →
     _parse_values (Some raw)
     = Ok (filter (λ v, nonempty v = true) (strip <$> fs))).
Proof.
  intros text d. pose proof (parse_values_unfold raw) as Hunf.
  fold text in Hunf. fold d in Hunf.
  assert (d ≠ SP ∧ d ≠ quotechar ∧ d ≠ LF) as (Hsp & Hq & Hlf).
  { by destruct (choose_delimiter_cases text) as [E|E]; unfold d; rewrite E. }
  split; [apply choose_delimiter_strip|]. split; [done|].
  split; [by intros E; rewrite Hunf, E|]. split; [done|].
  split; [|split; [|split]].
  - intros vs. rewrite Hunf. destruct (nonempty text).
    + intros (rows & _ & [= <-])%bind_Ok. apply collect_cells_trimmed.
    + by intros [= <-].
  - intros Hcr. rewrite Hunf. destruct (nonempty text); [|by eexists].
    destruct (reader_Ok d text) as [rows ->];
      [by apply contains_strip_false | by eexists].
  - intros Hp. rewrite Hunf. destruct (nonempty text) eqn:Hne.
    + rewrite reader_plain; [|done|by apply nonempty_true|done].
      cbn [mbind result_bind]. by rewrite collect_cells_one_row.
    + by destruct text.
  - intros fs Hne Hfs Hraw. rewrite Hunf.
    assert (text = raw) as ->.
    { unfold text. rewrite Hraw. by apply strip_join_quoted. }
    destruct (join_quoted_shape d fs Hne) as [X HX].
    rewrite Hraw at 1. rewrite HX, app_cons. cbn [nonempty].
    rewrite Hraw, reader_quoted by done. cbn [mbind result_bind].
    unfold collect_cells. cbn [concat]. by rewrite List.app_nil_r.
Qed.

End parse_values.

(** ** The gate *)

Section Gate.
Context `{Consts}.

Lemma run_bind {A B} (m : M A) (k : A → M B) hass :
  (m ≫= k) hass
  = match m hass with
    | (Ok a, hass') => k a hass'
    | (Raise e, hass') => (Raise e, hass')
    end.
Proof. reflexivity. Qed.

Lemma gate_off_run env entry_id hass :
  gate_off env entry_id hass = (Ok (), gate_off_host env entry_id hass).
Proof.
  unfold gate_off, _clear_manual_state, _set_status, _set_sensor,
    states_async_set, update_entry, async_dispatcher_send, emit.
  rewrite !run_bind. cbn. unfold gate_off_host, gate_off_events.
  rewrite !lookup_insert_eq, !insert_insert_eq, <- !app_assoc. done.
Qed.

Lemma setdefault_run entry_id hass :
  ∃ hass', setdefault_entry entry_id hass = (Ok (), hass')
    ∧ states hass' = states hass
    ∧ catalog_cache hass' = catalog_cache hass
    ∧ journal hass' = journal hass
    ∧ data hass' !! entry_id = Some (session entry_id hass)
    ∧ (is_Some (data hass !! entry_id) → hass' = hass)
    ∧ <[entry_id := cleared]> (data hass') = <[entry_id := cleared]> (data hass).
Proof.
  unfold setdefault_entry, session.
  destruct (data hass !! entry_id) as [e|] eqn:E.
  - exists hass. by rewrite E.
  - eexists. split; [done|]. cbn. rewrite lookup_insert_eq, insert_insert_eq.
    repeat split; done.
Qed.

Lemma gate_off_host_setdefault env entry_id hass hass' :
  states hass' = states hass → catalog_cache hass' = catalog_cache hass →
  journal hass' = journal hass →
  <[entry_id := cleared]> (data hass') = <[entry_id := cleared]> (data hass) →
  gate_off_host env entry_id hass' = gate_off_host env entry_id hass.
Proof. unfold gate_off_host. by intros -> -> -> ->. Qed.

Lemma is_search_enabled_states hass hass' :
  states hass' = states hass →
  _is_search_enabled hass' = _is_search_enabled hass.
Proof. unfold _is_search_enabled. by intros ->. Qed.

(** a workflow begins with the [setdefault] and the gate check *)
Lemma gated_off {A} (blocked : M A) (enabled : M A) env entry_id hass :
  _is_search_enabled hass = false →
  (setdefault_entry entry_id;;
   search_enabled ≫= λ on, if negb on then gate_off env entry_id;; blocked
                            else enabled) hass
  = blocked (gate_off_host env entry_id hass).
Proof.
  intros Hoff.
  destruct (setdefault_run entry_id hass)
    as (hass' & Hrun & Hst & Hc & Hj & _ & _ & Hd).
  rewrite run_bind, Hrun. unfold search_enabled at 1. rewrite run_bind.
  rewrite (is_search_enabled_states _ _ Hst), Hoff. cbn [negb].
  rewrite run_bind, gate_off_run.
  by rewrite (gate_off_host_setdefault env entry_id hass hass').
Qed.

Lemma gated_on {A} (blocked : M A) (enabled : M A) entry_id hass :
  _is_search_enabled hass = true →
  (setdefault_entry entry_id;;
   search_enabled ≫= λ on, if negb on then blocked else enabled) hass
  = (setdefault_entry entry_id;; enabled) hass.
Proof.
  intros Hon.
  destruct (setdefault_run entry_id hass)
    as (hass' & Hrun & Hst & _).
  rewrite !run_bind, Hrun. unfold search_enabled at 1. rewrite run_bind.
  by rewrite (is_search_enabled_states _ _ Hst), Hon.
Qed.

(** C7. When the gate is off, each of the three workflows, and the handler
    of the gate's own state change, leaves the host in the same state: the
    session holds the candidates [disabled], the selection disabled and an
    empty lookup, whatever it held before; the change signal, the detail
    record and the status disabled have been published, and nothing else
    has happened: the search returns at once, selection and load raise. *)
Theorem gate_off_clears_session env call entry_id hass :
  _is_search_enabled hass = false →
  _service_find_candidates env call entry_id hass
  = (Ok (), gate_off_host env entry_id hass)
  ∧ _service_select_candidate env call entry_id hass
    = (Raise (HomeAssistantError
                "Candidate selection blocked: search toggle is off"),
       gate_off_host env entry_id hass)
  ∧ _service_load_selected_candidate env call entry_id hass
    = (Raise (HomeAssistantError "Manual load blocked: search toggle is off"),
       gate_off_host env entry_id hass)
  ∧ (∀ new_state, Py.lower (st_state new_state) ≠ "on" →
     _handle_search_toggle env entry_id (Some new_state) hass
     = (Ok (), gate_off_host env entry_id hass))
  ∧ session entry_id (gate_off_host env entry_id hass) = cleared
  ∧ journal (gate_off_host env entry_id hass)
    = journal hass ++ gate_off_events env entry_id.
Proof.
  intros Hoff. split; [|split; [|split; [|split; [|split]]]].
  - unfold _service_find_candidates.
    destruct (setdefault_run entry_id hass)
      as (hass' & Hrun & Hst & Hc & Hj & _ & _ & Hd).
    rewrite run_bind, Hrun. unfold search_enabled at 1. rewrite run_bind.
    rewrite (is_search_enabled_states _ _ Hst), Hoff. cbn [negb].
    rewrite gate_off_run.
    by rewrite (gate_off_host_setdefault env entry_id hass hass').
  - by apply (gated_off _ (select_candidate_enabled env call entry_id)).
  - by apply (gated_off _ (load_selected_candidate_enabled env call entry_id)).
  - intros st Hst. unfold _handle_search_toggle.
    destruct (String.eqb_spec (Py.lower (st_state st)) "on"); [done|].
    apply gate_off_run.
  - unfold session, gate_off_host. cbn. by rewrite lookup_insert_eq.
  - done.
Qed.

(** C9. While the registry has no entry for the gate switch, the gate
    counts as on: each of the three workflows runs its part behind the
    gate check. *)
Theorem missing_switch_means_enabled env call entry_id hass :
  states hass !! SWITCH_SEARCH_ENABLED = None →
  _is_search_enabled hass = true
  ∧ _service_find_candidates env call entry_id hass
    = (setdefault_entry entry_id;;
       find_candidates_enabled env call entry_id) hass
  ∧ _service_select_candidate env call entry_id hass
    = (setdefault_entry entry_id;;
       select_candidate_enabled env call entry_id) hass
  ∧ _service_load_selected_candidate env call entry_id hass
    = (setdefault_entry entry_id;;
       load_selected_candidate_enabled env call entry_id) hass.
Proof.
  intros Hnone.
  assert (_is_search_enabled hass = true) as Hon
    by (unfold _is_search_enabled; by rewrite Hnone).
  split; [done|].
  split; [|split]; by apply gated_on.
Qed.

End Gate.

(** ** Selection *)

Section Selection.
Context `{Consts}.

Lemma set_status_run env stage reason candidates selected extra hass :
  ∃ st, st_state st = stage ∧
    _set_status env stage reason candidates selected extra hass
    = (Ok (), {| states := <[SENSOR_STATUS := st]> (states hass);
                 data := data hass;
                 catalog_cache := catalog_cache hass;
                 journal := journal hass ++ [StateWritten SENSOR_STATUS st] |}).
Proof.
  unfold _set_status, _set_sensor, states_async_set. eexists. split; [|done].
  done.
Qed.

Lemma set_status_plain env stage reason hass :
  _set_status env stage reason None None [] hass
  = (Ok (), {| states := <[SENSOR_STATUS := status_record env stage reason]>
                           (states hass);
               data := data hass;
               catalog_cache := catalog_cache hass;
               journal := journal hass
                 ++ [StateWritten SENSOR_STATUS (status_record env stage reason)] |}).
Proof. reflexivity. Qed.

Lemma find_by_label_None lookup chosen_label :
  (∀ c, c ∈ dict_values lookup → c_label c ≠ chosen_label) →
  find_by_label lookup chosen_label = None.
Proof.
  unfold find_by_label. induction (dict_values lookup) as [|c l IH]; [done|].
  intros Hall. simpl.
  destruct (String.eqb_spec (c_label c) chosen_label) as [E|_].
  - destruct (Hall c); [left | done].
  - apply IH. intros c' Hc'. apply Hall. by right.
Qed.

Lemma get_entry_run entry_id hass :
  get_entry entry_id hass = (Ok (session entry_id hass), hass).
Proof. reflexivity. Qed.

(** C8. With the gate on, a selection whose label (the [label] of the call
    when it is given and not empty, otherwise the current selection) is the
    label of no candidate of the lookup raises a failure that carries that
    label; the session state (candidate options, selected label, lookup) is
    what it was, and the only event is the status record of the error. *)
Theorem select_unknown_label env call entry_id hass :
  _is_search_enabled hass = true →
  let e := session entry_id hass in
  let chosen_label := chosen_label_of call e in
  (∀ c, c ∈ dict_values (default [] (last_candidates e)) →
        c_label c ≠ chosen_label) →
  (∃ hass',
     _service_select_candidate env call entry_id hass
     = (Raise (HomeAssistantError
                 ("Candidate '" +:+ chosen_label
                  +:+ "' not found in last results")), hass')
     ∧ session entry_id hass' = e
     ∧ (is_Some (data hass !! entry_id) → data hass' = data hass)
     ∧ catalog_cache hass' = catalog_cache hass
     ∧ journal hass' = journal hass
         ++ [StateWritten SENSOR_STATUS
               (status_record env "error"
                  ("Candidate '" +:+ chosen_label
                   +:+ "' not found in last results"))])
  ∧ (∀ l, d_label call = Some l → l ≠ EmptyString → chosen_label = l).
Proof.
  intros Hon e chosen_label Hnone. split.
  - unfold _service_select_candidate. rewrite gated_on by done.
    destruct (setdefault_run entry_id hass)
      as (hass' & Hrun & Hst & Hc & Hj & Hd & Hsame & _).
    rewrite run_bind, Hrun. unfold select_candidate_enabled.
    rewrite run_bind, get_entry_run.
    assert (session entry_id hass' = e) as He
      by (unfold session at 1; by rewrite Hd).
    rewrite He. fold chosen_label.
    rewrite (find_by_label_None _ _ Hnone).
    rewrite run_bind, set_status_plain. unfold raise.
    eexists. split; [done|]. cbn.
    split; [done|]. split; [|by rewrite Hc, Hj].
    intros Hsome. by rewrite (Hsame Hsome).
  - intros l Hl Hne. unfold chosen_label, chosen_label_of. rewrite Hl.
    destruct l; [done|]. done.
Qed.

End Selection.

(** ** Search *)

Section Search.
Context `{Consts}.

Lemma get_catalog_items_run env hass :
  ∃ r cache' evs,
    _get_catalog_items env hass
    = (Ok r, {| states := states hass; data := data hass;
                catalog_cache := cache';
                journal := journal hass ++ evs |})
    ∧ ∀ hass2, catalog_cache hass2 = catalog_cache hass →
        (_get_catalog_items env hass2).1 = Ok r.
Proof.
  unfold _get_catalog_items.
  destruct (catalog_cache hass) as [[ts cached]|] eqn:Hcache.
  - destruct (time_time env - ts <? CATALOG_CACHE_TTL) eqn:Hfresh.
    + exists (Some cached), (Some (ts, cached)), []. split.
      * rewrite app_nil_r, <- Hcache. by destruct hass.
      * intros hass2 ->. by rewrite Hfresh.
    + destruct (catalog_response env) as [|l|t ts'|values|] eqn:Hresp;
        (do 3 eexists; split;
          [rewrite run_bind; unfold emit, store_cache; cbn; reflexivity
          | intros hass2 ->; rewrite Hfresh, run_bind; unfold emit;
            cbn; rewrite ?Hresp; reflexivity]).
  - destruct (catalog_response env) as [|l|t ts'|values|] eqn:Hresp;
      (do 3 eexists; split;
        [rewrite run_bind; unfold emit, store_cache; cbn; reflexivity
        | intros hass2 ->; rewrite run_bind; unfold emit;
          cbn; rewrite ?Hresp; reflexivity]).
Qed.

Lemma states_get_run entity_id hass :
  states_get entity_id hass = (Ok (states hass !! entity_id), hass).
Proof. reflexivity. Qed.

Lemma lift_run {A} (r : result A) hass : lift r hass = (r, hass).
Proof. reflexivity. Qed.

Lemma find_no_match_run env entry_id tmdb_ids titles hass :
  find_no_match env entry_id tmdb_ids titles hass
  = (Ok (), no_match_host env entry_id tmdb_ids titles hass).
Proof.
  unfold find_no_match, _set_status, _set_sensor, states_async_set,
    update_entry, async_dispatcher_send, emit.
  rewrite !run_bind. cbn. unfold no_match_host, session.
  rewrite !lookup_insert_eq, !insert_insert_eq, <- !app_assoc. done.
Qed.

(** C6, as amended.  With the gate on and some identifier supplied, a
    search whose catalogue request yields a catalogue that is not empty and
    whose built candidate sequence is empty returns without raising; the
    session then holds the candidates [none], the selection none and an
    empty lookup, and the status shows the stage no_candidates. *)
Theorem find_no_candidates env call entry_id hass tmdb_ids titles catalog :
  _is_search_enabled hass = true →
  _parse_values (st_state <$> states hass !! SENSOR_TMDB_IDS) = Ok tmdb_ids →
  _parse_values (st_state <$> states hass !! SENSOR_TITLES) = Ok titles →
  tmdb_ids ≠ [] ∨ titles ≠ [] →
  (_get_catalog_items env hass).1 = Ok (Some catalog) →
  catalog ≠ [] →
  _build_candidates catalog tmdb_ids titles
    (default DEFAULT_LIMIT (d_limit call)) = Ok [] →
  ∃ hass',
    _service_find_candidates env call entry_id hass = (Ok (), hass')
    ∧ session entry_id hass' = no_candidates_entry
    ∧ stage_of hass' = Some "no_candidates"
    ∧ ∃ evs st,
        st_state st = "no_candidates"
        ∧ journal hass' = journal hass ++ evs
            ++ [StateWritten SENSOR_STATUS st].
Proof.
  intros Hon Hids Htitles Hinput Hfetch Hne Hbuild.
  unfold _service_find_candidates. rewrite gated_on by done.
  destruct (setdefault_run entry_id hass)
    as (hass1 & Hrun & Hst & Hc & Hj & Hd & _ & _).
  rewrite run_bind, Hrun. unfold find_candidates_enabled.
  rewrite run_bind, states_get_run, run_bind, states_get_run.
  rewrite Hst, run_bind, lift_run, Hids, run_bind, lift_run, Htitles.
  assert (no_input tmdb_ids titles = false) as ->.
  { destruct tmdb_ids, titles; try done. by destruct Hinput. }
  unfold find_search. rewrite run_bind.
  destruct (set_status_run env "searching" "Running candidate search" None None
              [("tmdb_sensor_found",
                VBool (bool_decide (is_Some (states hass !! SENSOR_TMDB_IDS))));
               ("title_sensor_found",
                VBool (bool_decide (is_Some (states hass !! SENSOR_TITLES))));
               ("tmdb_count", VInt (len tmdb_ids));
               ("title_count", VInt (len titles))] hass1)
    as (st1 & _ & ->).
  rewrite run_bind.
  match goal with |- context [_get_catalog_items env ?h] => set (hass2 := h) end.
  destruct (get_catalog_items_run env hass2)
    as (r & cache' & evs & Hget & Hframe).
  rewrite Hget.
  assert (r = Some catalog) as ->.
  { specialize (Hframe hass). rewrite Hfetch in Hframe.
    assert (Ok (Some catalog) = Ok r) as [= <-]; [|done].
    apply Hframe. by rewrite <- Hc. }
  destruct catalog as [|it catalog]; [done|]. cbn [not_catalog].
  change (default [] (Some (it :: catalog))) with (it :: catalog).
  rewrite run_bind, lift_run, Hbuild, run_bind.
  unfold update_entry at 1.
  match goal with |- context [find_no_match _ _ _ _ ?h] => set (hass3 := h) end.
  rewrite find_no_match_run. eexists. split; [done|]. split; [|split].
  - unfold session at 1, no_match_host, session, hass3.
    cbn [data]. by rewrite !lookup_insert_eq.
  - unfold stage_of, no_match_host. cbn [states]. by rewrite lookup_insert_eq.
  - eexists ([StateWritten SENSOR_STATUS st1] ++ evs ++ [_; _]), _.
    split; [|unfold no_match_host, hass3, hass2; cbn [journal];
             rewrite Hj, <- !app_assoc; reflexivity].
    done.
Qed.

End Search.

(** ** The properties on the sample data *)

Module Scenarios.
Import Sample.
#[local] Existing Instance ezbeq_consts.

Lemma built_is_built :
  _build_candidates catalogue ["603"] ["the matrix"] 10 = Ok built.
Proof. vm_compute. reflexivity. Qed.

Example built_labels :
  c_label <$> built
  = ["The Matrix (1999) • — • Atmos • aron7awol";
     "The Matrix (1999) • — • 5.1 • aron7awol";
     "The Matrix Reloaded (2003) • — • Unknown • n/a"].
Proof. reflexivity. Qed.

Example ready_stage : stage_of ready = Some "ready".
Proof. vm_compute. reflexivity. Qed.

(** *** The builder *)

Lemma build_candidates_id_matches_first_witness :
  _build_candidates catalogue ["603"] ["the matrix"] 10 = Ok built
  ∧ ∃ by_id by_prefix,
      built = by_id ++ by_prefix
      ∧ Forall (id_in_ids ["603"]) by_id
      ∧ Forall (λ c, ¬ id_in_ids ["603"] c) by_prefix
      ∧ by_id `sublist_of` id_scan ["603"] catalogue
      ∧ by_prefix `sublist_of` prefix_scan ["the matrix"] catalogue.
Proof.
  split; [vm_compute; reflexivity|].
  apply (build_candidates_id_matches_first catalogue ["603"] ["the matrix"] 10).
  vm_compute. reflexivity.
Defined.

(** the builder on a negative limit: one candidate is more than -1 *)
Lemma build_candidates_negative_limit :
  ∃ res, _build_candidates [the_matrix] ["603"] [] (-1) = Ok res
         ∧ ¬ (Z.of_nat (length res) ≤ -1).
Proof.
  eexists. split; [vm_compute; reflexivity|]. vm_compute. intros Hle.
  by apply Hle.
Qed.

Lemma build_candidates_limit_witness :
  0 ≤ 10
  ∧ _build_candidates catalogue ["603"] ["the matrix"] 10 = Ok built
  ∧ Z.of_nat (length built) ≤ 10
  ∧ is_Ok (_build_candidates catalogue ["603"] ["the matrix"] 10).
Proof.
  destruct (build_candidates_limit catalogue ["603"] ["the matrix"] 10)
    as (Htotal & Hlimit & _).
  split; [lia|]. split; [vm_compute; reflexivity|]. split.
  - apply Hlimit; [lia | vm_compute; reflexivity].
  - apply Htotal. repeat constructor; apply readable_arrays; done.
Defined.



(** *** The parser *)

Lemma parse_values_spec_witness :
  Py.contains Csv.CR " 603; 604 ;;605 " = false
  ∧ CsvSpec.plain (Py.strip " 603; 604 ;;605 ")
  ∧ choose_delimiter (Py.strip " 603; 604 ;;605 ") = ";"%char
  ∧ _parse_values (Some " 603; 604 ;;605 ") = Ok ["603"; "604"; "605"]
  ∧ _parse_values (Some "  ") = Ok [].
Proof.
  destruct (parse_values_spec " 603; 604 ;;605 ")
    as (Hd & _ & _ & _ & _ & Hok & Hplain & _).
  destruct (parse_values_spec "  ") as (_ & _ & Hblank & _).
  split; [reflexivity|]. split; [by repeat split|]. split; [exact Hd|].
  split; [|by apply Hblank].
  rewrite Hplain by (by repeat split). vm_compute. reflexivity.
Defined.

Example parse_quoted_field :
  _parse_values (Some (CsvSpec.quoted "a,b" +:+ ", c;d")) = Ok ["a,b"; "c;d"].
Proof. reflexivity. Qed.

(** white space beyond ASCII is trimmed like any other: a no-break space
    in front, an em space at the end *)
Example parse_no_break_space :
  let nbsp := String "194" (String "160" EmptyString) in
  let emsp := String "226" (String "128" (String "131" EmptyString)) in
  _parse_values (Some (nbsp +:+ "603;" +:+ nbsp +:+ "604" +:+ emsp))
  = Ok ["603"; "604"].
Proof. reflexivity. Qed.

(** C10, counterexample.  An identifier input with a carriage return
    between two values is not split into values: the CSV reader raises. *)
Example parse_carriage_return :
  _parse_values (Some ("603" +:+ String Csv.CR "604"))
  = Raise (csv_Error
      "new-line character seen in unquoted field - do you need to open the file in universal-newline mode?").
Proof. reflexivity. Qed.

(** *** The workflows *)

(** C5. Code defect: the load workflow surfaces a failure of the profile
    loader without a status record.  On a host where a search has reached
    the stage ready, a load with every destination supplied raises when
    the profile loader fails; no status record is among the events of the
    invocation and the status still shows ready. *)
Theorem load_failure_without_status :
  let env := world (JsonList catalogue) (Some "Connection refused") in
  let out := _service_load_selected_candidate env load_data "e1" ready in
  _is_search_enabled ready = true
  ∧ out.1 = Raise (HomeAssistantError
                     "Failed to load BEQ profile: Connection refused")
  ∧ status_written (events_since ready out.2) = false
  ∧ stage_of out.2 = Some "ready"
  ∧ states out.2 !! SENSOR_STATUS = states ready !! SENSOR_STATUS.
Proof. vm_compute. repeat split. Qed.

(** the search workflow raises on an ID input with a bare carriage return
    before any status record of the invocation *)
Lemma find_unreadable_input_without_status :
  let raw := "603" +:+ String Csv.CR "604" in
  let out := _service_find_candidates (world (JsonList catalogue) None)
               no_data "e1" (host raw) in
  out.1 = Raise (csv_Error
      "new-line character seen in unquoted field - do you need to open the file in universal-newline mode?")
  ∧ status_written (journal out.2) = false.
Proof. vm_compute. repeat split. Qed.

(** a search on an empty catalogue that was fetched: the build is empty,
    and the workflow raises with the stage catalog_unavailable *)
Lemma find_empty_catalogue_raises :
  let env := world (JsonList []) None in
  let out := _service_find_candidates env no_data "e1" (host "603") in
  _is_search_enabled (host "603") = true
  ∧ (_get_catalog_items env (host "603")).1 = Ok (Some [])
  ∧ _build_candidates [] ["603"] [] DEFAULT_LIMIT = Ok []
  ∧ out.1 = Raise (HomeAssistantError "Catalogue unavailable; cannot search.")
  ∧ stage_of out.2 = Some "catalog_unavailable".
Proof. vm_compute. repeat split. Qed.

Lemma find_no_candidates_witness :
  let env := world (JsonList catalogue) None in
  ∃ hass', _service_find_candidates env no_data "e1" (host "999") = (Ok (), hass')
    ∧ session "e1" hass' = no_candidates_entry
    ∧ stage_of hass' = Some "no_candidates".
Proof.
  intros env.
  destruct (find_no_candidates env no_data "e1" (host "999") ["999"] [] catalogue)
    as (hass' & Hrun & Hsession & Hstage & _);
    try (vm_compute; reflexivity); [by left | done |].
  by exists hass'.
Defined.

Lemma gate_off_clears_session_witness :
  let env := world (JsonList catalogue) None in
  _is_search_enabled switched_off = false
  ∧ stage_of switched_off = Some "ready"
  ∧ (_service_find_candidates env no_data "e1" switched_off).1 = Ok ()
  ∧ session "e1" (_service_find_candidates env no_data "e1" switched_off).2
    = cleared.
Proof.
  intros env.
  destruct (gate_off_clears_session env no_data "e1" switched_off)
    as (Hfind & _ & _ & _ & Hsession & _); [vm_compute; reflexivity|].
  split; [vm_compute; reflexivity|]. split; [vm_compute; reflexivity|].
  rewrite Hfind. split; [done | exact Hsession].
Defined.

Lemma select_unknown_label_witness :
  let env := world (JsonList catalogue) None in
  let out := _service_select_candidate env (select_data "No such film") "e1" ready in
  _is_search_enabled ready = true
  ∧ out.1 = Raise (HomeAssistantError
                     "Candidate 'No such film' not found in last results")
  ∧ session "e1" out.2 = session "e1" ready.
Proof.
  intros env out.
  destruct (select_unknown_label env (select_data "No such film") "e1" ready)
    as [(hass' & Hrun & Hsession & _) _].
  - vm_compute. reflexivity.
  - apply Forall_forall. refine (bool_decide_unpack _ _). vm_compute. exact I.
  - split; [vm_compute; reflexivity|]. unfold out. rewrite Hrun.
    split; [vm_compute; reflexivity | exact Hsession].
Defined.

Lemma missing_switch_means_enabled_witness :
  let env := world (JsonList catalogue) None in
  states (host "603") !! SWITCH_SEARCH_ENABLED = None
  ∧ _is_search_enabled (host "603") = true
  ∧ stage_of (_service_find_candidates env no_data "e1" (host "603")).2
    = Some "ready".
Proof.
  intros env.
  destruct (missing_switch_means_enabled env no_data "e1" (host "603"))
    as (Hon & Hfind & _); [vm_compute; reflexivity|].
  split; [vm_compute; reflexivity|]. split; [exact Hon|].
  rewrite Hfind. vm_compute. reflexivity.
Defined.

End Scenarios.

(** * Further properties of the helpers and of the builder *)

(** ** Normalization and the prefix test *)

Module NormFacts.
Import Py.

Lemma isspace1_lower_char c : isspace1 (lower_char c) = isspace1 c.
Proof. destruct c as [[] [] [] [] [] [] [] []]; reflexivity. Qed.

(** lower case changes no byte above 127 and makes none *)
Lemma lower_char_high c :
  lower_char c = c
  ∨ (nat_of_ascii c < 128 ∧ nat_of_ascii (lower_char c) < 128)%nat.
Proof.
  destruct c as [[] [] [] [] [] [] [] []];
    first [by left | right; vm_compute; split; lia].
Qed.

Lemma byte_is_lower_char k c :
  (128 ≤ k)%nat → byte_is k (lower_char c) = byte_is k c.
Proof.
  intros Hk. destruct (lower_char_high c) as [->|[H1 H2]]; [done|].
  unfold byte_is.
  destruct (Nat.eqb_spec (nat_of_ascii (lower_char c)) k),
    (Nat.eqb_spec (nat_of_ascii c) k); try done; lia.
Qed.

Lemma byte_in_lower_char lo hi c :
  (128 ≤ lo)%nat → byte_in lo hi (lower_char c) = byte_in lo hi c.
Proof.
  intros Hk. destruct (lower_char_high c) as [->|[H1 H2]]; [done|].
  unfold byte_in.
  destruct (Nat.leb_spec lo (nat_of_ascii (lower_char c))),
    (Nat.leb_spec lo (nat_of_ascii c)); try done; lia.
Qed.

Lemma isspace2_lower_char a b :
  isspace2 (lower_char a) (lower_char b) = isspace2 a b.
Proof. unfold isspace2. by rewrite !byte_is_lower_char by lia. Qed.

Lemma isspace3_lower_char a b c :
  isspace3 (lower_char a) (lower_char b) (lower_char c) = isspace3 a b c.
Proof.
  unfold isspace3.
  by rewrite !byte_is_lower_char, !byte_in_lower_char by lia.
Qed.

Lemma space_char_lower s : space_char (lower s) = space_char s.
Proof.
  destruct s as [|a [|b [|c [|? ?]]]]; try done; cbn [lower space_char].
  - apply isspace1_lower_char.
  - apply isspace2_lower_char.
  - apply isspace3_lower_char.
Qed.

Lemma starts_space_lower s : starts_space (lower s) = starts_space s.
Proof.
  destruct s as [|a [|b [|c s]]]; [done|..]; cbn [lower starts_space].
  - by rewrite isspace1_lower_char.
  - by rewrite isspace1_lower_char, isspace2_lower_char.
  - by rewrite isspace1_lower_char, isspace2_lower_char, isspace3_lower_char.
Qed.

Lemma lower_char_idemp c : lower_char (lower_char c) = lower_char c.
Proof. destruct c as [[] [] [] [] [] [] [] []]; reflexivity. Qed.

Lemma lower_idemp s : lower (lower s) = lower s.
Proof.
  induction s as [|c s IH]; [done|]. cbn [lower].
  by rewrite lower_char_idemp, IH.
Qed.

Lemma lstrip_lower s : lstrip (lower s) = lower (lstrip s).
Proof.
  apply (PyFacts.lstrip_cases (λ s r, lstrip (lower s) = lower r)); clear s.
  - intros s Hs. apply PyFacts.no_lead_lstrip. by rewrite starts_space_lower.
  - intros a s r Ha IH. cbn [lower].
    by rewrite PyFacts.lstrip_cons, isspace1_lower_char, Ha.
  - intros a b s r Ha Hab IH. cbn [lower].
    rewrite PyFacts.lstrip_cons, isspace1_lower_char, Ha.
    by rewrite isspace2_lower_char, Hab.
  - intros a b c s r Ha Hab Habc IH. cbn [lower].
    rewrite PyFacts.lstrip_cons, isspace1_lower_char, Ha.
    by rewrite isspace2_lower_char, Hab, isspace3_lower_char, Habc.
Qed.

Lemma rstrip_lower s : rstrip (lower s) = lower (rstrip s).
Proof.
  induction s as [|c s IH]; [done|]. cbn [lower].
  rewrite !PyFacts.rstrip_cons, IH.
  change (String (lower_char c) (lower (rstrip s)))
    with (lower (String c (rstrip s))).
  rewrite space_char_lower. by destruct (space_char _).
Qed.

Lemma strip_lower s : strip (lower s) = lower (strip s).
Proof. unfold strip. by rewrite lstrip_lower, rstrip_lower. Qed.

Lemma nonempty_lower s : nonempty (lower s) = nonempty s.
Proof. by destruct s. Qed.

Lemma normalize_idemp v : _normalize (Some (_normalize v)) = _normalize v.
Proof.
  unfold _normalize. cbn [from_option id].
  by rewrite strip_lower, PyFacts.strip_idemp, lower_idemp.
Qed.

Lemma starts_with_any_normalized text title_prefixes :
  _starts_with_any text (normalize_prefixes title_prefixes) = true
  ↔ ∃ p, p ∈ title_prefixes ∧ strip p ≠ EmptyString
         ∧ startswith (_normalize (Some text)) (_normalize (Some p)) = true.
Proof.
  unfold _starts_with_any, normalize_prefixes. rewrite existsb_exists. split.
  - intros (x & Hx%list_elem_of_In & Hstart).
    apply list_elem_of_filter in Hx as [_ (p & -> & Hp)%list_elem_of_fmap].
    apply list_elem_of_filter in Hp as [Hne%PyFacts.nonempty_true Hp].
    rewrite normalize_idemp in Hstart. eauto.
  - intros (p & Hp & Hne & Hstart). exists (_normalize (Some p)).
    rewrite normalize_idemp. split; [|done].
    apply list_elem_of_In, list_elem_of_filter. split.
    + unfold _normalize. cbn [from_option id]. rewrite nonempty_lower.
      by apply PyFacts.nonempty_true.
    + apply list_elem_of_fmap. exists p. split; [done|].
      apply list_elem_of_filter. split; [|done]. by apply PyFacts.nonempty_true.
Qed.

End NormFacts.

(** The test of the prefix pass, read on the prefixes as they are
    supplied, for titles and prefixes in ASCII (where [Py.lower] is
    [str.lower]): an item matches when its title or its alternative title,
    trimmed and in lower case, begins with the trimmed lower-case form of a
    supplied prefix that is not blank.  The case of the letters and
    surrounding white space play no part, and a blank prefix matches
    nothing. *)
Theorem prefix_matches_spec title_prefixes it :
  Forall (λ p, Py.isascii p = true) title_prefixes →
  Py.isascii (get_str (title it)) = true →
  Py.isascii (get_str (altTitle it)) = true →
  prefix_matches (normalize_prefixes title_prefixes) it = true
  ↔ ∃ p, p ∈ title_prefixes ∧ Py.strip p ≠ EmptyString
      ∧ (Py.startswith (_normalize (title it)) (_normalize (Some p)) = true
         ∨ Py.startswith (_normalize (altTitle it)) (_normalize (Some p)) = true).
Proof.
  intros _ _ _. unfold prefix_matches. rewrite orb_true_iff.
  rewrite !NormFacts.starts_with_any_normalized.
  assert (∀ v, _normalize (Some (get_str v)) = _normalize v) as E
    by (by intros [s|]).
  rewrite !E. split.
  - intros [(p & ? & ? & ?)|(p & ? & ? & ?)]; exists p; auto.
  - intros (p & ? & ? & [?|?]); [left | right]; exists p; auto.
Qed.

(** ** Searches without identifiers and limits that are not positive *)

Lemma normalize_ids_blank tmdb_ids :
  Forall (λ t, Py.strip t = EmptyString) tmdb_ids → normalize_ids tmdb_ids = ∅.
Proof.
  unfold normalize_ids. induction 1 as [|t l Ht _ IH]; [done|].
  rewrite fmap_cons, filter_cons, Ht. by rewrite decide_False by done.
Qed.

Lemma normalize_prefixes_blank title_prefixes :
  Forall (λ p, Py.strip p = EmptyString) title_prefixes →
  normalize_prefixes title_prefixes = [].
Proof.
  unfold normalize_prefixes. induction 1 as [|p l Hp _ IH]; [done|].
  rewrite filter_cons, Hp. by rewrite decide_False by done.
Qed.

Lemma slice_to_nil {A} limit : Py.slice_to (@nil A) limit = [].
Proof. unfold Py.slice_to. destruct (0 <=? limit); apply take_nil. Qed.

Lemma build_blank items tmdb_ids title_prefixes limit :
  Forall (λ t, Py.strip t = EmptyString) tmdb_ids →
  Forall (λ p, Py.strip p = EmptyString) title_prefixes →
  _build_candidates items tmdb_ids title_prefixes limit = Ok [].
Proof.
  intros Hids Hps. unfold _build_candidates, scan.
  rewrite (normalize_ids_blank _ Hids), (normalize_prefixes_blank _ Hps).
  rewrite !bool_decide_eq_false_2 by (intros Hn; by apply Hn).
  cbn -[Py.slice_to]. by rewrite slice_to_nil.
Qed.

Lemma build_nil_catalogue tmdb_ids title_prefixes limit :
  _build_candidates [] tmdb_ids title_prefixes limit = Ok [].
Proof.
  unfold _build_candidates, scan. cbn [id_pass].
  destruct (bool_decide (normalize_ids tmdb_ids ≠ ∅)); cbn -[Py.slice_to];
    destruct (_ && _); cbn -[Py.slice_to]; by rewrite slice_to_nil.
Qed.

(** A build for which every supplied ID and every supplied prefix is blank
    (in particular: none is supplied) runs neither pass and returns the
    empty sequence, whatever the catalogue and the limit are. *)
Theorem build_without_identifiers items tmdb_ids title_prefixes limit :
  Forall (λ t, Py.strip t = EmptyString) tmdb_ids →
  Forall (λ p, Py.strip p = EmptyString) title_prefixes →
  _build_candidates items tmdb_ids title_prefixes limit = Ok [].
Proof. apply build_blank. Qed.

Lemma scan_id_part items tmdb_ids title_prefixes limit a :
  limit ≤ 0 → scan items tmdb_ids title_prefixes limit = Ok a →
  results a = first_by_key ∅ (id_scan tmdb_ids items).
Proof.
  intros Hl. unfold scan. intros (a1 & H1 & H2)%bind_Ok.
  assert (results a1 = first_by_key ∅ (id_scan tmdb_ids items)) as Hr1.
  { unfold id_scan. destruct (decide (normalize_ids tmdb_ids = ∅)) as [E|E].
    - rewrite bool_decide_eq_false_2 in H1 by auto. injection H1 as <-.
      rewrite E. simpl. by rewrite filter_id_matches_empty.
    - rewrite bool_decide_eq_true_2 in H1 by auto.
      by apply id_pass_spec in H1 as [-> _]. }
  destruct (Z.ltb_spec (Z.of_nat (length (results a1))) limit) as [?|_];
    [lia|].
  rewrite andb_false_r in H2. by injection H2 as <-.
Qed.

(** With a limit that is not positive the prefix pass never runs: the
    result is the slice [[:limit]] of the candidates of the ID pass alone.
    For the limit 0 that is the empty sequence; for a negative limit it is
    what is left of the ID candidates when the last [-limit] are dropped. *)
Theorem build_nonpositive_limit items tmdb_ids title_prefixes limit res :
  limit ≤ 0 →
  _build_candidates items tmdb_ids title_prefixes limit = Ok res →
  let by_id := first_by_key ∅ (id_scan tmdb_ids items) in
  res = Py.slice_to by_id limit
  ∧ (limit = 0 → res = [])
  ∧ (limit < 0 → res = take (length by_id - Z.to_nat (- limit)) by_id).
Proof.
  intros Hl (a & Ha & ->)%build_Ok by_id.
  rewrite (scan_id_part _ _ _ _ _ Hl Ha). fold by_id.
  split; [done|]. split.
  - intros ->. done.
  - intros Hneg. unfold Py.slice_to.
    destruct (Z.leb_spec 0 limit) as [?|_]; [lia|]. f_equal. lia.
Qed.

(** ** [_as_list_strict] *)

(** Whatever [_as_list_strict] returns holds trimmed, non-empty strings
    only, be it read from an array, from the values the parser finds in a
    string, or from a string taken as one value. *)
Theorem as_list_strict_trimmed value l :
  _as_list_strict value = Ok l →
  Forall (λ v, v ≠ EmptyString ∧ Py.strip v = v) l.
Proof.
  destruct value as [|s|arr]; cbn [_as_list_strict].
  - by intros [= <-].
  - intros (parsed & Hparsed & Hl)%bind_Ok.
    destruct parsed as [|v parsed].
    + injection Hl as <-. destruct (Py.nonempty (Py.strip s)) eqn:E; [|done].
      apply Forall_singleton. split; [by apply PyFacts.nonempty_true|].
      apply PyFacts.strip_idemp.
    + injection Hl as <-. rewrite parse_values_unfold in Hparsed.
      destruct (Py.nonempty (Py.strip s)); [|done].
      apply bind_Ok in Hparsed as (rows & _ & [= <-]).
      apply collect_cells_trimmed.
  - intros [= <-]. apply Forall_forall.
    intros v [Hv (x & -> & _)%list_elem_of_fmap]%list_elem_of_filter.
    split; [by apply PyFacts.nonempty_true | apply PyFacts.strip_idemp].
Qed.

(** ** The candidate key *)

Lemma pipe_split a a' r r' :
  Py.contains "|" a = false → Py.contains "|" a' = false →
  a +:+ String "|" r = a' +:+ String "|" r' → a = a' ∧ r = r'.
Proof.
  revert a'. induction a as [|c a IH]; intros [|c' a'] Ha Ha';
    rewrite ?PyFacts.app_nil_l, ?PyFacts.app_cons; intros E.
  - by injection E as <-.
  - injection E as <- _. cbn [Py.contains] in Ha'.
    by rewrite Ascii.eqb_refl in Ha'.
  - injection E as -> _. cbn [Py.contains] in Ha.
    by rewrite Ascii.eqb_refl in Ha.
  - injection E as <- E. cbn [Py.contains] in Ha, Ha'.
    apply orb_false_elim in Ha as [_ Ha]. apply orb_false_elim in Ha' as [_ Ha'].
    destruct (IH _ Ha Ha' E) as [-> ->]. done.
Qed.

Lemma candidate_key_unfold it audio :
  _candidate_key it audio
  = Py.strip (get_str (theMovieDB it)) +:+ String "|"
      (Py.strip (get_str (title it)) +:+ String "|"
         (Py.strip (get_str (edition it)) +:+ String "|"
            (Py.strip audio +:+ String "|" (key_author (author it))))).
Proof. reflexivity. Qed.

(** The key tells releases apart as long as no vertical bar occurs in the
    catalogue ID, the title, the edition and the audio type: two keys are
    then equal only if the trimmed ID, title, edition and audio type and the
    author component are equal. *)
Theorem candidate_key_injective it1 audio1 it2 audio2 :
  let bar_free s := Py.contains "|" s = false in
  bar_free (get_str (theMovieDB it1)) → bar_free (get_str (title it1)) →
  bar_free (get_str (edition it1)) → bar_free audio1 →
  bar_free (get_str (theMovieDB it2)) → bar_free (get_str (title it2)) →
  bar_free (get_str (edition it2)) → bar_free audio2 →
  _candidate_key it1 audio1 = _candidate_key it2 audio2 →
  Py.strip (get_str (theMovieDB it1)) = Py.strip (get_str (theMovieDB it2))
  ∧ Py.strip (get_str (title it1)) = Py.strip (get_str (title it2))
  ∧ Py.strip (get_str (edition it1)) = Py.strip (get_str (edition it2))
  ∧ Py.strip audio1 = Py.strip audio2
  ∧ key_author (author it1) = key_author (author it2).
Proof.
  intros bar_free H1 H2 H3 H4 H1' H2' H3' H4'.
  rewrite !candidate_key_unfold. intros E.
  apply pipe_split in E as [-> E]; [|by apply PyFacts.contains_strip_false..].
  apply pipe_split in E as [-> E]; [|by apply PyFacts.contains_strip_false..].
  apply pipe_split in E as [-> E]; [|by apply PyFacts.contains_strip_false..].
  apply pipe_split in E as [-> E]; [|by apply PyFacts.contains_strip_false..].
  done.
Qed.

(** ** The lookup of a search *)

Lemma dict_set_fresh {V} (d : dict V) k v :
  k ∉ d.*1 → dict_set d k v = d ++ [(k, v)].
Proof.
  induction d as [|[k' v'] d IH]; [done|]. cbn [dict_set fmap list_fmap fst].
  intros Hk. destruct (String.eqb_spec k' k) as [->|_].
  - destruct Hk. left.
  - cbn. f_equal. apply IH. intros ?. apply Hk. by right.
Qed.

Lemma by_key_fold (d : dict candidate) (cs : list candidate) :
  NoDup (d.*1 ++ (c_key <$> cs)) →
  foldl (λ d c, dict_set d (c_key c) c) d cs
  = d ++ ((λ c, (c_key c, c)) <$> cs).
Proof.
  revert d. induction cs as [|c cs IH]; intros d Hnd.
  - by rewrite app_nil_r.
  - cbn [foldl fmap list_fmap].
    assert (c_key c ∉ d.*1) as Hfresh.
    { apply NoDup_app in Hnd as (_ & Hdis & _). intros Hin.
      apply (Hdis _ Hin). left. }
    rewrite (dict_set_fresh _ _ _ Hfresh), IH.
    + by rewrite <- app_assoc.
    + rewrite fmap_app. cbn [fmap list_fmap fst]. rewrite <- app_assoc. done.
Qed.

Lemma by_key_NoDup (cs : list candidate) :
  NoDup (c_key <$> cs) → by_key cs = (λ c, (c_key c, c)) <$> cs.
Proof. intros Hnd. unfold by_key. by rewrite by_key_fold. Qed.

Lemma dict_get_pairs (cs : list candidate) c :
  NoDup (c_key <$> cs) → c ∈ cs →
  dict_get ((λ c, (c_key c, c)) <$> cs) (c_key c) = Some c.
Proof.
  unfold dict_get. induction cs as [|x cs IH]; [by inversion 2|].
  cbn [fmap list_fmap List.find fst]. intros [Hx Hnd]%NoDup_cons Hc.
  destruct (String.eqb_spec (c_key x) (c_key c)) as [E|E].
  - apply elem_of_cons in Hc as [->|Hc]; [done|].
    destruct Hx. rewrite E. apply list_elem_of_fmap. eauto.
  - apply elem_of_cons in Hc as [->|Hc]; [done|]. by apply IH.
Qed.

Lemma dict_values_pairs (cs : list candidate) :
  dict_values ((λ c, (c_key c, c)) <$> cs) = cs.
Proof.
  unfold dict_values. rewrite <- list_fmap_compose.
  induction cs as [|c cs IH]; [done|]. cbn. by f_equal.
Qed.

(** The lookup [{c["key"]: c for c in candidates}] that a search stores
    loses nothing of what the builder returned: its values are the built
    candidates in their order, and each is found under its own key. *)
Theorem lookup_of_built items tmdb_ids title_prefixes limit res :
  _build_candidates items tmdb_ids title_prefixes limit = Ok res →
  dict_values (by_key res) = res
  ∧ ∀ c, c ∈ res → dict_get (by_key res) (c_key c) = Some c.
Proof.
  intros [Hnd _]%build_NoDup_first. rewrite (by_key_NoDup _ Hnd).
  split; [apply dict_values_pairs|]. intros c Hc. by apply dict_get_pairs.
Qed.

(** * Further properties of the workflows *)

(** ** The catalogue cache *)

(** Whatever the cache holds and whatever the server answers,
    [_get_catalog_items] returns without raising and touches neither the
    state registry nor the session data; a catalogue that it returns is
    the one the cache then holds, stored less than the time to live ago;
    when it returns nothing the cache is what it was (an expired copy is
    neither used nor dropped); and at most one request is sent. *)
Theorem catalog_cache_invariant env hass :
  ∃ r hass',
    _get_catalog_items env hass = (Ok r, hass')
    ∧ states hass' = states hass ∧ data hass' = data hass
    ∧ match r with
      | Some l => ∃ ts, catalog_cache hass' = Some (ts, l)
                        ∧ time_time env - ts < CATALOG_CACHE_TTL
      | None => catalog_cache hass' = catalog_cache hass
      end
    ∧ (journal hass' = journal hass
       ∨ journal hass' = journal hass ++ [CatalogRequested]).
Proof.
  assert (time_time env - time_time env < CATALOG_CACHE_TTL) as Hnow
    by (unfold CATALOG_CACHE_TTL; lia).
  unfold _get_catalog_items.
  destruct (catalog_cache hass) as [[ts cached]|] eqn:Hcache.
  - destruct (Z.ltb_spec (time_time env - ts) CATALOG_CACHE_TTL) as [Hfresh|_].
    + exists (Some cached), hass. repeat split; eauto.
    + destruct (catalog_response env) as [|l|t ts'|values|];
        (do 2 eexists; split;
          [rewrite run_bind; unfold emit, store_cache; cbn; reflexivity|]);
        cbn; repeat split; eauto.
  - destruct (catalog_response env) as [|l|t ts'|values|];
      (do 2 eexists; split;
        [rewrite run_bind; unfold emit, store_cache; cbn; reflexivity|]);
      cbn; repeat split; eauto.
Qed.

(** A catalogue that was fetched is fetched once: when the cache is empty
    or expired and the server answers with a list, the list is returned
    and stored, and every call that comes less than the time to live after
    it returns the same list without a request, whatever the server would
    answer then. *)
Theorem catalog_fetched_once env later hass l :
  (∀ ts cached, catalog_cache hass = Some (ts, cached) →
                CATALOG_CACHE_TTL ≤ time_time env - ts) →
  catalog_response env = JsonList l →
  time_time later - time_time env < CATALOG_CACHE_TTL →
  ∃ hass1,
    _get_catalog_items env hass = (Ok (Some l), hass1)
    ∧ journal hass1 = journal hass ++ [CatalogRequested]
    ∧ _get_catalog_items later hass1 = (Ok (Some l), hass1).
Proof.
  intros Hold Hresp Hlater. unfold _get_catalog_items at 1.
  assert (match catalog_cache hass with
          | Some (ts, cached) =>
              if time_time env - ts <? CATALOG_CACHE_TTL then Some cached
              else None
          | None => None
          end = None) as ->.
  { destruct (catalog_cache hass) as [[ts cached]|] eqn:E; [|done].
    specialize (Hold ts cached eq_refl).
    destruct (Z.ltb_spec (time_time env - ts) CATALOG_CACHE_TTL); [lia | done]. }
  rewrite Hresp, run_bind. unfold emit, store_cache. cbn.
  eexists. split; [reflexivity|]. split; [done|].
  unfold _get_catalog_items. cbn [catalog_cache].
  by destruct (Z.ltb_spec (time_time later - time_time env) CATALOG_CACHE_TTL);
    [|lia].
Qed.

(** ** Running the steps of a workflow *)

Section Steps.
Context `{Consts}.

Lemma states_async_set_run entity_id v attrs hass :
  states_async_set entity_id v attrs hass
  = (Ok (), written entity_id
              {| st_state := Repr.str v; st_attributes := attrs |} hass).
Proof. reflexivity. Qed.

Lemma update_entry_run entry_id f hass :
  update_entry entry_id f hass
  = (Ok (), with_entry entry_id (f (session entry_id hass)) hass).
Proof. reflexivity. Qed.

Lemma emit_run ev hass : emit ev hass = (Ok (), noted ev hass).
Proof. reflexivity. Qed.

Lemma set_status_written env stage reason candidates selected extra hass :
  ∃ st, st_state st = stage ∧
    _set_status env stage reason candidates selected extra hass
    = (Ok (), written SENSOR_STATUS st hass).
Proof. eexists. split; [|reflexivity]. done. Qed.

Lemma set_status_plain_written env stage reason hass :
  _set_status env stage reason None None [] hass
  = (Ok (), written SENSOR_STATUS (status_record env stage reason) hass).
Proof. reflexivity. Qed.

Lemma set_details_run env c hass :
  set_details env c hass = (Ok (), written SENSOR_DETAILS (details_of env c) hass).
Proof. reflexivity. Qed.

Lemma mret_run {A} (a : A) hass : (mret a : M A) hass = (Ok a, hass).
Proof. reflexivity. Qed.

Lemma raise_run {A} e hass : (raise e : M A) hass = (Raise e, hass).
Proof. reflexivity. Qed.

Lemma session_with_entry entry_id e hass :
  session entry_id (with_entry entry_id e hass) = e.
Proof. unfold session, with_entry. cbn [data]. by rewrite lookup_insert_eq. Qed.

Lemma with_entry_twice entry_id e e' hass :
  with_entry entry_id e' (with_entry entry_id e hass) = with_entry entry_id e' hass.
Proof. unfold with_entry. cbn [states data catalog_cache journal]. by rewrite insert_insert_eq. Qed.

Lemma session_written entry_id k st hass :
  session entry_id (written k st hass) = session entry_id hass.
Proof. reflexivity. Qed.

Lemma session_noted entry_id ev hass :
  session entry_id (noted ev hass) = session entry_id hass.
Proof. reflexivity. Qed.

Lemma stage_of_written st hass :
  stage_of (written SENSOR_STATUS st hass) = Some (st_state st).
Proof. unfold stage_of, written. cbn [states]. by rewrite lookup_insert_eq. Qed.

(** the [setdefault] leaves the session as the workflows read it *)
Lemma setdefault_session entry_id hass :
  ∃ hass1, setdefault_entry entry_id hass = (Ok (), hass1)
    ∧ states hass1 = states hass
    ∧ catalog_cache hass1 = catalog_cache hass
    ∧ journal hass1 = journal hass
    ∧ session entry_id hass1 = session entry_id hass.
Proof.
  destruct (setdefault_run entry_id hass)
    as (hass1 & Hrun & Hst & Hc & Hj & Hd & _).
  exists hass1. repeat split; try done. unfold session at 1. by rewrite Hd.
Qed.

End Steps.

(** ** The search *)

Lemma get_catalog_items_effect env hass :
  ∃ r cache' evs,
    _get_catalog_items env hass
    = (Ok r, {| states := states hass; data := data hass;
                catalog_cache := cache';
                journal := journal hass ++ evs |})
    ∧ (evs = [] ∨ evs = [CatalogRequested])
    ∧ ∀ hass2, catalog_cache hass2 = catalog_cache hass →
        (_get_catalog_items env hass2).1 = Ok r.
Proof.
  unfold _get_catalog_items.
  destruct (catalog_cache hass) as [[ts cached]|] eqn:Hcache.
  - destruct (time_time env - ts <? CATALOG_CACHE_TTL) eqn:Hfresh.
    + exists (Some cached), (Some (ts, cached)), []. split; [|split].
      * rewrite app_nil_r, <- Hcache. by destruct hass.
      * by left.
      * intros hass2 ->. by rewrite Hfresh.
    + destruct (catalog_response env) as [|l|t ts'|values|] eqn:Hresp;
        (do 3 eexists; split; [|split];
          [rewrite run_bind; unfold emit, store_cache; cbn; reflexivity
          | by right
          | intros hass2 ->; rewrite Hfresh, run_bind; unfold emit;
            cbn; rewrite ?Hresp; reflexivity]).
  - destruct (catalog_response env) as [|l|t ts'|values|] eqn:Hresp;
      (do 3 eexists; split; [|split];
        [rewrite run_bind; unfold emit, store_cache; cbn; reflexivity
        | by right
        | intros hass2 ->; rewrite run_bind; unfold emit;
          cbn; rewrite ?Hresp; reflexivity]).
Qed.

Section SearchBranches.
Context `{Consts}.

Lemma find_waiting_run env entry_id tmdb_found title_found hass :
  ∃ st, st_state st = "waiting_for_input" ∧
    find_waiting env entry_id tmdb_found title_found hass
    = (Ok (),
       written SENSOR_DETAILS (details_none env)
         (noted (SignalSent (_signal_name entry_id))
            (with_entry entry_id (without_selection (session entry_id hass))
               (written SENSOR_STATUS st hass)))).
Proof.
  unfold find_waiting.
  destruct (set_status_written env "waiting_for_input"
              "No TMDB IDs or titles provided" None None
              [("tmdb_sensor_found", VBool tmdb_found);
               ("title_sensor_found", VBool title_found);
               ("tmdb_count", VInt 0); ("title_count", VInt 0)] hass)
    as (st & Hst & Hrun).
  exists st. split; [done|].
  rewrite run_bind, Hrun, run_bind, update_entry_run, run_bind, update_entry_run.
  rewrite session_with_entry, with_entry_twice, session_written.
  unfold async_dispatcher_send. rewrite run_bind, emit_run.
  unfold _set_sensor. by rewrite states_async_set_run.
Qed.

(** A search that finds no identifier in either input (the input entities
    are missing, blank, or hold separators only) sends no catalogue
    request: it writes the status waiting_for_input, sets the candidate
    options to [none] and the selection to none, signals the change and
    writes the empty detail record.  The lookup of an earlier search is
    left as it is. *)
Theorem find_without_input env call entry_id hass :
  _is_search_enabled hass = true →
  _parse_values (st_state <$> states hass !! SENSOR_TMDB_IDS) = Ok [] →
  _parse_values (st_state <$> states hass !! SENSOR_TITLES) = Ok [] →
  ∃ hass' st,
    _service_find_candidates env call entry_id hass = (Ok (), hass')
    ∧ session entry_id hass' = without_selection (session entry_id hass)
    ∧ last_candidates (session entry_id hass')
      = last_candidates (session entry_id hass)
    ∧ catalog_cache hass' = catalog_cache hass
    ∧ st_state st = "waiting_for_input"
    ∧ journal hass' = journal hass
        ++ [StateWritten SENSOR_STATUS st;
            SignalSent (_signal_name entry_id);
            StateWritten SENSOR_DETAILS (details_none env)].
Proof.
  intros Hon Hids Htitles.
  unfold _service_find_candidates. rewrite gated_on by done.
  destruct (setdefault_session entry_id hass)
    as (hass1 & Hrun & Hst & Hc & Hj & Hs).
  rewrite run_bind, Hrun. unfold find_candidates_enabled.
  rewrite run_bind, states_get_run, run_bind, states_get_run.
  rewrite Hst, run_bind, lift_run, Hids, run_bind, lift_run, Htitles.
  cbn [no_input].
  destruct (find_waiting_run env entry_id
              (bool_decide (is_Some (states hass !! SENSOR_TMDB_IDS)))
              (bool_decide (is_Some (states hass !! SENSOR_TITLES))) hass1)
    as (st & Hstage & ->).
  eexists _, st. split; [reflexivity|].
  rewrite session_written, session_noted, session_with_entry, Hs.
  split; [done|]. split; [done|]. split; [done|]. split; [done|].
  cbn [journal written noted with_entry]. rewrite Hj, <- !app_assoc. done.
Qed.

(** A search for which no catalogue is to be had (the request fails, the
    answer is neither a list nor an object, or the catalogue, fetched or
    cached, is empty) writes the status catalog_unavailable and raises;
    the session state, lookup included, is what it was before. *)
Theorem find_catalog_unavailable env call entry_id hass tmdb_ids titles r :
  _is_search_enabled hass = true →
  _parse_values (st_state <$> states hass !! SENSOR_TMDB_IDS) = Ok tmdb_ids →
  _parse_values (st_state <$> states hass !! SENSOR_TITLES) = Ok titles →
  tmdb_ids ≠ [] ∨ titles ≠ [] →
  (_get_catalog_items env hass).1 = Ok r →
  not_catalog r = true →
  ∃ hass',
    _service_find_candidates env call entry_id hass
    = (Raise (HomeAssistantError "Catalogue unavailable; cannot search."), hass')
    ∧ session entry_id hass' = session entry_id hass
    ∧ stage_of hass' = Some "catalog_unavailable"
    ∧ requests (journal hass') = requests (journal hass)
    ∧ ∃ evs,
        journal hass' = journal hass ++ evs
          ++ [StateWritten SENSOR_STATUS
                (status_record env "catalog_unavailable"
                   "Failed to fetch BEQ catalogue")].
Proof.
  intros Hon Hids Htitles Hinput Hfetch Hnot.
  unfold _service_find_candidates. rewrite gated_on by done.
  destruct (setdefault_session entry_id hass)
    as (hass1 & Hrun & Hst & Hc & Hj & Hs).
  rewrite run_bind, Hrun. unfold find_candidates_enabled.
  rewrite run_bind, states_get_run, run_bind, states_get_run.
  rewrite Hst, run_bind, lift_run, Hids, run_bind, lift_run, Htitles.
  assert (no_input tmdb_ids titles = false) as ->.
  { destruct tmdb_ids, titles; try done. by destruct Hinput. }
  unfold find_search. rewrite run_bind.
  destruct (set_status_written env "searching" "Running candidate search"
              None None
              [("tmdb_sensor_found",
                VBool (bool_decide (is_Some (states hass !! SENSOR_TMDB_IDS))));
               ("title_sensor_found",
                VBool (bool_decide (is_Some (states hass !! SENSOR_TITLES))));
               ("tmdb_count", VInt (len tmdb_ids));
               ("title_count", VInt (len titles))] hass1)
    as (st1 & _ & ->).
  rewrite run_bind.
  destruct (get_catalog_items_effect env (written SENSOR_STATUS st1 hass1))
    as (r' & cache' & evs & Hget & Hevs & Hframe).
  rewrite Hget.
  assert (r' = r) as ->.
  { specialize (Hframe hass). rewrite Hfetch in Hframe.
    assert (Ok r = Ok r') as [= <-]; [|done].
    apply Hframe. by rewrite <- Hc. }
  rewrite Hnot, run_bind, set_status_plain_written, raise_run.
  eexists. split; [reflexivity|].
  split; [|split; [|split]].
  - unfold session. cbn [data written]. exact Hs.
  - by rewrite stage_of_written.
  - cbn [journal written]. rewrite Hj.
    assert (requests evs = []) as Hev by (by destruct Hevs as [-> | ->]).
    unfold requests in *. rewrite !omap_app, Hev. cbn. by rewrite !app_nil_r.
  - exists ([StateWritten SENSOR_STATUS st1] ++ evs).
    cbn [journal written]. rewrite Hj, <- !app_assoc. done.
Qed.

End SearchBranches.

Section SearchReady.
Context `{Consts}.

Lemma find_ready_run env entry_id tmdb_ids titles candidates sel hass :
  ∃ st, st_state st = "ready"
    ∧ dict_get (st_attributes st) "candidates" = Some (VInt (len candidates))
    ∧ dict_get (st_attributes st) "selected" = Some (VStr (c_label sel))
    ∧ find_ready env entry_id tmdb_ids titles candidates sel hass
      = (Ok (),
         written SENSOR_STATUS st
           (written SENSOR_DETAILS (details_of env sel)
              (noted (SignalSent (_signal_name entry_id))
                 (with_entry entry_id
                    (set_selected_label (c_label sel)
                       (set_candidate_options (c_label <$> candidates)
                          (session entry_id hass)))
                    hass)))).
Proof.
  eexists. split; [|split; [|split]].
  4: { unfold find_ready.
       rewrite run_bind, update_entry_run, run_bind, update_entry_run.
       rewrite session_with_entry, with_entry_twice.
       unfold async_dispatcher_send. rewrite run_bind, emit_run.
       rewrite run_bind, set_details_run. reflexivity. }
  all: reflexivity.
Qed.

(** A search whose build returns candidates stores them all: the candidate
    options are their labels in build order, the selection is the first
    label, the lookup holds every candidate under its key (its values are
    the built sequence), the detail record is the first candidate's, and
    the status shows the stage ready with their number.  Every option on
    offer is then the label of a candidate of the lookup. *)
Theorem find_ready_outcome env call entry_id hass tmdb_ids titles catalog
    sel rest :
  _is_search_enabled hass = true →
  _parse_values (st_state <$> states hass !! SENSOR_TMDB_IDS) = Ok tmdb_ids →
  _parse_values (st_state <$> states hass !! SENSOR_TITLES) = Ok titles →
  (_get_catalog_items env hass).1 = Ok (Some catalog) →
  _build_candidates catalog tmdb_ids titles
    (default DEFAULT_LIMIT (d_limit call)) = Ok (sel :: rest) →
  Host.valid_state (c_label sel) = true →
  ∃ hass' st,
    _service_find_candidates env call entry_id hass = (Ok (), hass')
    ∧ session entry_id hass'
      = {| candidate_options := c_label <$> sel :: rest;
           selected_label := c_label sel;
           last_candidates := Some (by_key (sel :: rest)) |}
    ∧ dict_values (by_key (sel :: rest)) = sel :: rest
    ∧ stage_of hass' = Some "ready"
    ∧ st_state st = "ready"
    ∧ dict_get (st_attributes st) "candidates"
      = Some (VInt (len (sel :: rest)))
    ∧ ∃ evs,
        journal hass' = journal hass ++ evs
          ++ [SignalSent (_signal_name entry_id);
              StateWritten SENSOR_DETAILS (details_of env sel);
              StateWritten SENSOR_STATUS st].
Proof.
  intros Hon Hids Htitles Hfetch Hbuild _.
  assert (no_input tmdb_ids titles = false) as Hinput.
  { destruct tmdb_ids, titles; try done.
    by rewrite (build_blank catalog [] []) in Hbuild. }
  assert (not_catalog (Some catalog) = false) as Hcat.
  { destruct catalog; [|done]. by rewrite build_nil_catalogue in Hbuild. }
  unfold _service_find_candidates. rewrite gated_on by done.
  destruct (setdefault_session entry_id hass)
    as (hass1 & Hrun & Hst & Hc & Hj & Hs).
  rewrite run_bind, Hrun. unfold find_candidates_enabled.
  rewrite run_bind, states_get_run, run_bind, states_get_run.
  rewrite Hst, run_bind, lift_run, Hids, run_bind, lift_run, Htitles, Hinput.
  unfold find_search. rewrite run_bind.
  destruct (set_status_written env "searching" "Running candidate search"
              None None
              [("tmdb_sensor_found",
                VBool (bool_decide (is_Some (states hass !! SENSOR_TMDB_IDS))));
               ("title_sensor_found",
                VBool (bool_decide (is_Some (states hass !! SENSOR_TITLES))));
               ("tmdb_count", VInt (len tmdb_ids));
               ("title_count", VInt (len titles))] hass1)
    as (st1 & _ & ->).
  rewrite run_bind.
  destruct (get_catalog_items_effect env (written SENSOR_STATUS st1 hass1))
    as (r' & cache' & evs & Hget & _ & Hframe).
  rewrite Hget.
  assert (r' = Some catalog) as ->.
  { specialize (Hframe hass). rewrite Hfetch in Hframe.
    assert (Ok (Some catalog) = Ok r') as [= <-]; [|done].
    apply Hframe. by rewrite <- Hc. }
  rewrite Hcat.
  change (default [] (Some catalog)) with catalog.
  rewrite run_bind, lift_run, Hbuild, run_bind, update_entry_run.
  match goal with |- context [find_ready _ _ _ _ _ _ ?h] => set (hass3 := h) end.
  destruct (find_ready_run env entry_id tmdb_ids titles (sel :: rest) sel hass3)
    as (st & Hstage & Hcount & _ & ->).
  exists (written SENSOR_STATUS st
            (written SENSOR_DETAILS (details_of env sel)
               (noted (SignalSent (_signal_name entry_id))
                  (with_entry entry_id
                     (set_selected_label (c_label sel)
                        (set_candidate_options (c_label <$> sel :: rest)
                           (session entry_id hass3)))
                     hass3)))), st.
  split; [reflexivity|].
  split; [|split; [|split; [|split; [|split]]]].
  - rewrite !session_written, session_noted, session_with_entry.
    unfold hass3. by rewrite session_with_entry.
  - apply build_NoDup_first in Hbuild as [Hnd _].
    rewrite (by_key_NoDup _ Hnd). apply dict_values_pairs.
  - by rewrite stage_of_written, Hstage.
  - done.
  - done.
  - exists ([StateWritten SENSOR_STATUS st1] ++ evs).
    unfold hass3. cbn [journal written noted with_entry].
    rewrite Hj, <- !app_assoc. reflexivity.
Qed.

End SearchReady.

(** ** Selection *)

Section SelectKnown.
Context `{Consts}.

Lemma select_known_run env call entry_id hass c :
  find_by_label (default [] (last_candidates (session entry_id hass)))
    (chosen_label_of call (session entry_id hass)) = Some c →
  ∃ st, st_state st = "ready"
    ∧ dict_get (st_attributes st) "selected"
      = Some (VStr (chosen_label_of call (session entry_id hass)))
    ∧ select_candidate_enabled env call entry_id hass
      = (Ok (),
         written SENSOR_STATUS st
           (noted (SignalSent (_signal_name entry_id))
              (with_entry entry_id
                 (set_selected_label
                    (chosen_label_of call (session entry_id hass))
                    (session entry_id hass))
                 (written SENSOR_DETAILS (details_of env c) hass)))).
Proof.
  intros Hfind. eexists. split; [|split].
  3: { unfold select_candidate_enabled.
       rewrite run_bind, get_entry_run, Hfind.
       rewrite run_bind, set_details_run, run_bind, update_entry_run.
       rewrite session_written.
       unfold async_dispatcher_send. rewrite run_bind, emit_run.
       reflexivity. }
  all: reflexivity.
Qed.

Lemma find_by_label_Some lookup chosen_label c :
  find_by_label lookup chosen_label = Some c →
  c ∈ dict_values lookup ∧ c_label c = chosen_label.
Proof.
  unfold find_by_label. intros [Hin Heq]%List.find_some.
  split; [by apply list_elem_of_In|]. by apply String.eqb_eq.
Qed.

Lemma find_by_label_offered lookup l :
  l ∈ c_label <$> dict_values lookup →
  ∃ c, find_by_label lookup l = Some c.
Proof.
  unfold find_by_label. induction (dict_values lookup) as [|c cs IH].
  - by intros ?%elem_of_nil.
  - cbn [fmap list_fmap List.find].
    destruct (String.eqb_spec (c_label c) l) as [_|Hne]; [eauto|].
    intros [?|Hin]%elem_of_cons; [congruence|]. by apply IH.
Qed.

(** With the gate on, a selection whose label is the label of a candidate
    of the lookup succeeds: the first such candidate in the order of the
    lookup becomes the detail record, the selected label becomes the
    requested one, the change is signalled and the status shows the stage
    ready; candidate options and lookup are not changed. *)
Theorem select_known_label env call entry_id hass c :
  _is_search_enabled hass = true →
  let e := session entry_id hass in
  let chosen_label := chosen_label_of call e in
  find_by_label (default [] (last_candidates e)) chosen_label = Some c →
  Host.valid_state (c_label c) = true →
  ∃ hass' st,
    _service_select_candidate env call entry_id hass = (Ok (), hass')
    ∧ c_label c = chosen_label
    ∧ session entry_id hass' = set_selected_label chosen_label e
    ∧ stage_of hass' = Some "ready"
    ∧ st_state st = "ready"
    ∧ dict_get (st_attributes st) "selected" = Some (VStr chosen_label)
    ∧ journal hass' = journal hass
        ++ [StateWritten SENSOR_DETAILS (details_of env c);
            SignalSent (_signal_name entry_id);
            StateWritten SENSOR_STATUS st].
Proof.
  intros Hon e chosen_label Hfind _.
  unfold _service_select_candidate. rewrite gated_on by done.
  destruct (setdefault_session entry_id hass)
    as (hass1 & Hrun & Hst & Hc & Hj & Hs).
  rewrite run_bind, Hrun.
  assert (find_by_label (default [] (last_candidates (session entry_id hass1)))
            (chosen_label_of call (session entry_id hass1)) = Some c) as Hfind1
    by (by rewrite Hs).
  destruct (select_known_run env call entry_id hass1 c Hfind1)
    as (st & Hstage & Hsel & ->).
  rewrite Hs in *. fold e chosen_label in Hsel |- *.
  eexists _, st. split; [reflexivity|].
  split; [by apply find_by_label_Some in Hfind as [_ ?]|].
  split; [by rewrite session_written, session_noted, session_with_entry|].
  split; [by rewrite stage_of_written, Hstage|].
  split; [done|]. split; [done|].
  cbn [journal written noted with_entry]. rewrite Hj, <- !app_assoc. done.
Qed.

(** Every option on offer can be selected: when the candidate options are
    the labels of the candidates of the lookup, as they are after a search
    that reached the stage ready, the selection of any offered option
    succeeds and makes it the selected label. *)
Theorem offered_option_selectable env call entry_id hass l :
  _is_search_enabled hass = true →
  let e := session entry_id hass in
  candidate_options e
  = c_label <$> dict_values (default [] (last_candidates e)) →
  d_label call = Some l → l ≠ EmptyString → l ∈ candidate_options e →
  Host.valid_state l = true →
  ∃ hass' c,
    _service_select_candidate env call entry_id hass = (Ok (), hass')
    ∧ c ∈ dict_values (default [] (last_candidates e)) ∧ c_label c = l
    ∧ session entry_id hass' = set_selected_label l e
    ∧ (SENSOR_STATUS ≠ SENSOR_DETAILS →
       states hass' !! SENSOR_DETAILS = Some (details_of env c)).
Proof.
  intros Hon e Hopts Hl Hne Hin _.
  assert (chosen_label_of call e = l) as Hchosen.
  { unfold chosen_label_of. rewrite Hl. by destruct l. }
  rewrite Hopts in Hin. apply find_by_label_offered in Hin as [c Hfind].
  unfold _service_select_candidate. rewrite gated_on by done.
  destruct (setdefault_session entry_id hass)
    as (hass1 & Hrun & Hst & Hc & Hj & Hs).
  rewrite run_bind, Hrun.
  assert (find_by_label (default [] (last_candidates (session entry_id hass1)))
            (chosen_label_of call (session entry_id hass1)) = Some c) as Hfind1
    by (rewrite Hs; fold e; by rewrite Hchosen).
  destruct (select_known_run env call entry_id hass1 c Hfind1)
    as (st & Hstage & Hsel & ->).
  rewrite Hs. fold e. rewrite Hchosen.
  eexists _, c. split; [reflexivity|].
  apply find_by_label_Some in Hfind as [Hin Hlabel].
  split; [done|]. split; [done|].
  split; [by rewrite session_written, session_noted, session_with_entry|].
  intros E. cbn [states written noted with_entry].
  by rewrite lookup_insert_ne, lookup_insert_eq.
Qed.

End SelectKnown.

(** ** Set-up *)

Section Setup.
Context `{Consts}.

Lemma setup_run env entry_id hass :
  ∃ st, st_state st = "waiting_for_input" ∧
    (update_entry entry_id (set_candidate_options ["none"]);;
     update_entry entry_id (set_selected_label "none");;
     async_dispatcher_send (_signal_name entry_id);;
     _set_sensor SENSOR_DETAILS (VStr "none")
       [("last_updated", VStr (utc_timestamp env))];;
     _set_status env "waiting_for_input" "Supply candidate TMDB IDs or titles"
       None None
       [("tmdb_sensor_found", VBool false); ("title_sensor_found", VBool false);
        ("tmdb_count", VInt 0); ("title_count", VInt 0)]) hass
    = (Ok (),
       written SENSOR_STATUS st
         (written SENSOR_DETAILS (details_none env)
            (noted (SignalSent (_signal_name entry_id))
               (with_entry entry_id (without_selection (session entry_id hass))
                  hass)))).
Proof.
  eexists. split.
  2: { rewrite run_bind, update_entry_run, run_bind, update_entry_run.
       rewrite session_with_entry, with_entry_twice.
       unfold async_dispatcher_send. rewrite run_bind, emit_run.
       unfold _set_sensor at 1. rewrite run_bind, states_async_set_run.
       reflexivity. }
  reflexivity.
Qed.

(** Set-up leaves the session without a selection: with the gate on the
    candidate options are [none], the selection is none, a lookup that the
    entry already held is kept, and the status shows waiting_for_input;
    with the gate off the session is cleared and the status shows
    disabled.  (The gate is read after the two records were written, so
    the switch must be another entity than these.) *)
Theorem setup_outcome env entry_id hass :
  SWITCH_SEARCH_ENABLED ≠ SENSOR_DETAILS →
  SWITCH_SEARCH_ENABLED ≠ SENSOR_STATUS →
  ∃ hass',
    async_setup_manual_load env entry_id hass = (Ok (), hass')
    ∧ session entry_id hass'
      = (if _is_search_enabled hass
         then without_selection (session entry_id hass) else cleared)
    ∧ stage_of hass'
      = Some (if _is_search_enabled hass then "waiting_for_input"
              else "disabled")
    ∧ catalog_cache hass' = catalog_cache hass
    ∧ requests (journal hass') = requests (journal hass).
Proof.
  intros Hd Hs. unfold async_setup_manual_load.
  destruct (setdefault_session entry_id hass)
    as (hass1 & Hrun & Hst & Hc & Hj & Hse).
  rewrite run_bind, Hrun.
  destruct (setup_run env entry_id hass1) as (st & Hstage & Hsetup).
  match goal with
  | |- context [(?a;; ?b;; ?c;; ?d;; ?e;; ?k) hass1] =>
      change ((a;; b;; c;; d;; e;; k) hass1)
        with (((a;; b;; c;; d;; e);; k) hass1)
  end.
  rewrite run_bind, Hsetup.
  match goal with |- context [written SENSOR_STATUS st ?h] => set (hass2 := h) end.
  unfold search_enabled at 1. rewrite run_bind.
  assert (_is_search_enabled (written SENSOR_STATUS st hass2)
          = _is_search_enabled hass) as ->.
  { unfold _is_search_enabled, hass2. cbn [states written noted with_entry].
    by rewrite !lookup_insert_ne, Hst by done. }
  destruct (_is_search_enabled hass); cbn [negb].
  - rewrite mret_run. eexists. split; [reflexivity|].
    split; [|split; [|split]].
    + unfold hass2.
      by rewrite !session_written, session_noted, session_with_entry, Hse.
    + by rewrite stage_of_written, Hstage.
    + unfold hass2. by cbn.
    + unfold hass2. cbn [journal written noted with_entry].
      unfold requests. rewrite Hj, !omap_app. cbn. by rewrite !app_nil_r.
  - rewrite gate_off_run. eexists. split; [reflexivity|].
    split; [|split; [|split]].
    + unfold session, gate_off_host. cbn [data]. by rewrite lookup_insert_eq.
    + unfold stage_of, gate_off_host. cbn [states]. by rewrite lookup_insert_eq.
    + unfold hass2. by cbn.
    + unfold hass2, gate_off_host, gate_off_events.
      cbn [journal written noted with_entry].
      unfold requests. rewrite Hj, !omap_app. cbn. by rewrite !app_nil_r.
Qed.

End Setup.

(** ** [load_beq_profile] *)

Section LoadProfile.
Context `{Consts}.

Lemma get_sensor_state_Some entity_id hass s :
  sensor_state hass entity_id = Some s →
  get_sensor_state entity_id hass = (Ok s, hass).
Proof.
  unfold sensor_state, get_sensor_state. destruct entity_id as [k|]; [|done].
  cbn [mbind option_bind]. rewrite run_bind, states_get_run.
  destruct (states hass !! k); [|done]. by intros [= <-].
Qed.

Lemma get_sensor_state_None entity_id hass :
  sensor_state hass entity_id = None →
  ∃ e, get_sensor_state entity_id hass = (Raise e, hass).
Proof.
  unfold sensor_state, get_sensor_state.
  destruct entity_id as [k|]; [|by eexists].
  cbn [mbind option_bind]. rewrite run_bind, states_get_run.
  destruct (states hass !! k); [done|]. by eexists.
Qed.

Lemma load_beq_profile_ok_run env call hass tmdb year_state codec edition
    title year :
  sensor_state hass (p_tmdb_sensor call) = Some tmdb →
  sensor_state hass (p_year_sensor call) = Some year_state →
  sensor_state hass (p_codec_sensor call) = Some codec →
  sensor_state hass (p_edition_sensor call) = Some edition →
  sensor_state hass (p_title_sensor call) = Some title →
  Repr.int year_state = Some year →
  let search_request :=
    {| r_tmdb := tmdb; r_year := year; r_codec := codec;
       r_preferred_author := p_preferred_author call;
       r_edition := edition; r_slots := p_slots call; r_title := title |} in
  load_beq_profile env call hass
  = (match client_load_beq_profile env search_request with
     | None => Ok ()
     | Some e => Raise (HomeAssistantError ("Failed to load BEQ profile: " +:+ e))
     end,
     noted (ProfileLoadRequested search_request) hass).
Proof.
  intros Ht Hy Hc He Hti Hint req. unfold load_beq_profile.
  rewrite run_bind, (get_sensor_state_Some _ _ _ Ht).
  rewrite run_bind, (get_sensor_state_Some _ _ _ Hy), Hint.
  rewrite run_bind, (get_sensor_state_Some _ _ _ Hc).
  rewrite run_bind, (get_sensor_state_Some _ _ _ He).
  rewrite run_bind, (get_sensor_state_Some _ _ _ Hti).
  rewrite run_bind, emit_run. fold req.
  by destruct (client_load_beq_profile env req).
Qed.

Lemma load_beq_profile_raise_run env call hass :
  sensor_state hass (p_tmdb_sensor call) = None
  ∨ sensor_state hass (p_year_sensor call) = None
  ∨ (∀ s, sensor_state hass (p_year_sensor call) = Some s → Repr.int s = None)
  ∨ sensor_state hass (p_codec_sensor call) = None
  ∨ sensor_state hass (p_edition_sensor call) = None
  ∨ sensor_state hass (p_title_sensor call) = None →
  ∃ e, load_beq_profile env call hass = (Raise e, hass).
Proof.
  intros Hcase. unfold load_beq_profile.
  destruct (sensor_state hass (p_tmdb_sensor call)) as [tmdb|] eqn:Ht.
  2: { destruct (get_sensor_state_None _ _ Ht) as [e He].
       exists e. by rewrite run_bind, He. }
  rewrite run_bind, (get_sensor_state_Some _ _ _ Ht).
  destruct (sensor_state hass (p_year_sensor call)) as [ys|] eqn:Hy.
  2: { destruct (get_sensor_state_None _ _ Hy) as [e He].
       exists e. by rewrite run_bind, He. }
  rewrite run_bind, (get_sensor_state_Some _ _ _ Hy).
  destruct (Repr.int ys) as [year|] eqn:Hint; [|by eexists].
  destruct (sensor_state hass (p_codec_sensor call)) as [codec|] eqn:Hc.
  2: { destruct (get_sensor_state_None _ _ Hc) as [e He].
       exists e. by rewrite run_bind, He. }
  rewrite run_bind, (get_sensor_state_Some _ _ _ Hc).
  destruct (sensor_state hass (p_edition_sensor call)) as [edition|] eqn:He.
  2: { destruct (get_sensor_state_None _ _ He) as [e He'].
       exists e. by rewrite run_bind, He'. }
  rewrite run_bind, (get_sensor_state_Some _ _ _ He).
  destruct (sensor_state hass (p_title_sensor call)) as [title|] eqn:Hti.
  2: { destruct (get_sensor_state_None _ _ Hti) as [e He'].
       exists e. by rewrite run_bind, He'. }
  destruct Hcase as [?|[?|[Hbad|[?|[?|?]]]]]; try done.
  specialize (Hbad ys eq_refl). congruence.
Qed.

(** [load_beq_profile], called with the data of the load workflow, hands
    the profile loader one request when the five entities it is pointed
    to all exist and the state of the year entity reads as an integer:
    the request carries the states of the five entities, that integer,
    and the author and slots of the call.  It returns when the loader
    does, and raises the loader's failure otherwise; it writes nothing. *)
Theorem load_beq_profile_request env call hass tmdb year_state codec edition
    title year :
  sensor_state hass (p_tmdb_sensor call) = Some tmdb →
  sensor_state hass (p_year_sensor call) = Some year_state →
  sensor_state hass (p_codec_sensor call) = Some codec →
  sensor_state hass (p_edition_sensor call) = Some edition →
  sensor_state hass (p_title_sensor call) = Some title →
  Repr.int year_state = Some year →
  let search_request :=
    {| r_tmdb := tmdb; r_year := year; r_codec := codec;
       r_preferred_author := p_preferred_author call;
       r_edition := edition; r_slots := p_slots call; r_title := title |} in
  ∃ hass',
    load_beq_profile env call hass
    = (match client_load_beq_profile env search_request with
       | None => Ok ()
       | Some e =>
           Raise (HomeAssistantError ("Failed to load BEQ profile: " +:+ e))
       end, hass')
    ∧ states hass' = states hass ∧ data hass' = data hass
    ∧ journal hass' = journal hass ++ [ProfileLoadRequested search_request].
Proof.
  intros Ht Hy Hc He Hti Hint req.
  exists (noted (ProfileLoadRequested req) hass). split; [|done].
  by apply (load_beq_profile_ok_run env call hass tmdb year_state).
Qed.

(** [load_beq_profile], called with IDs in lower-case ASCII, raises and
    leaves the host untouched, without a request to the profile loader, as
    soon as one of the five entities is missing, one of the five keys
    holds no ID, or the state of the year entity is an ASCII text that
    does not read as an integer. *)
Theorem load_beq_profile_refusal env call hass :
  Forall (λ k, Host.plain_key k = true)
    [p_tmdb_sensor call; p_year_sensor call; p_codec_sensor call;
     p_edition_sensor call; p_title_sensor call] →
  sensor_state hass (p_tmdb_sensor call) = None
  ∨ sensor_state hass (p_year_sensor call) = None
  ∨ (∀ s, sensor_state hass (p_year_sensor call) = Some s →
          Py.isascii s = true ∧ Repr.int s = None)
  ∨ sensor_state hass (p_codec_sensor call) = None
  ∨ sensor_state hass (p_edition_sensor call) = None
  ∨ sensor_state hass (p_title_sensor call) = None →
  ∃ e, load_beq_profile env call hass = (Raise e, hass).
Proof.
  intros _ Hcase. apply load_beq_profile_raise_run.
  destruct Hcase as [?|[?|[Hbad|?]]]; auto.
  right; right; left. intros s Hs. by destruct (Hbad s Hs).
Qed.

End LoadProfile.

(** ** The load workflow *)

Section Load.
Context `{Consts}.

Lemma absent_false v :
  absent v = false ↔ ∃ s, v = Some s ∧ s ≠ EmptyString.
Proof.
  unfold absent. destruct v as [[|c s]|]; cbn; split; try done.
  - by intros (s & [= <-] & Hs).
  - intros _. by exists (String c s).
  - by intros (s & ? & _).
Qed.

Lemma missing_none (call : ServiceCall) :
  absent (d_tmdb_sensor call) = false → absent (d_year_sensor call) = false →
  absent (d_codec_sensor call) = false →
  fst <$> filter (λ kv : string * option string, absent kv.2 = true)
            [("tmdb_sensor", d_tmdb_sensor call);
             ("year_sensor", d_year_sensor call);
             ("codec_sensor", d_codec_sensor call)] = [].
Proof.
  intros Ht Hy Hc.
  rewrite !filter_cons, filter_nil. cbn [snd].
  rewrite Ht, Hy, Hc. done.
Qed.

Lemma missing_some (call : ServiceCall) :
  absent (d_tmdb_sensor call) = true ∨ absent (d_year_sensor call) = true
  ∨ absent (d_codec_sensor call) = true →
  fst <$> filter (λ kv : string * option string, absent kv.2 = true)
            [("tmdb_sensor", d_tmdb_sensor call);
             ("year_sensor", d_year_sensor call);
             ("codec_sensor", d_codec_sensor call)] ≠ [].
Proof.
  intros Hcase. rewrite !filter_cons, filter_nil. cbn [snd].
  destruct (absent (d_tmdb_sensor call)), (absent (d_year_sensor call)),
    (absent (d_codec_sensor call)); cbn; try done.
  by destruct Hcase as [?|[?|?]].
Qed.

(** the load workflow behind its checks *)
Lemma load_accepted_run env call entry_id hass ds :
  states hass !! SENSOR_DETAILS = Some ds →
  st_state ds ≠ "none" → st_state ds ≠ "disabled" → st_attributes ds ≠ [] →
  absent (d_tmdb_sensor call) = false → absent (d_year_sensor call) = false →
  absent (d_codec_sensor call) = false →
  load_selected_candidate_enabled env call entry_id hass
  = (load_beq_profile env (load_payload (st_attributes ds) call);;
     _set_status env "loaded"
       ("Candidate '" +:+ selected_label (session entry_id hass)
        +:+ "' loaded into BEQ profile")
       None (Some (selected_label (session entry_id hass))) [])
      (destinations_written (st_attributes ds) call hass).
Proof.
  intros Hds Hnone Hdis Hattrs Ht Hy Hc.
  unfold load_selected_candidate_enabled.
  rewrite run_bind, get_entry_run, run_bind, states_get_run, Hds.
  rewrite (proj2 (String.eqb_neq _ _) Hnone), (proj2 (String.eqb_neq _ _) Hdis).
  cbn [orb].
  destruct (st_attributes ds) as [|a attrs] eqn:Ea; [done|].
  rewrite (missing_none call Ht Hy Hc).
  cbn [p_tmdb_sensor p_year_sensor p_codec_sensor p_edition_sensor
       p_title_sensor].
  fold (load_payload (a :: attrs) call).
  rewrite run_bind, states_async_set_run, run_bind, states_async_set_run.
  rewrite run_bind, states_async_set_run.
  unfold destinations_written.
  destruct (absent (d_edition_sensor call));
    destruct (absent (d_title_sensor call));
    rewrite run_bind, ?mret_run, ?states_async_set_run;
    rewrite run_bind, ?mret_run, ?states_async_set_run; reflexivity.
Qed.

(** A load whose input is not acceptable changes nothing but the status
    record: when no candidate is selected (the detail record is missing or
    shows none or disabled), when the detail record has no attributes, or
    when one of [tmdb_sensor], [year_sensor] and [codec_sensor] is missing
    or empty, the workflow writes a status record of stage error and
    raises.  No destination entity is written, the profile loader is not
    called and the session state stays as it was. *)
Theorem load_refused env call entry_id hass :
  _is_search_enabled hass = true →
  ¬ load_accepted call hass →
  ∃ hass' msg st,
    _service_load_selected_candidate env call entry_id hass
    = (Raise (HomeAssistantError msg), hass')
    ∧ st_state st = "error"
    ∧ states hass' = <[SENSOR_STATUS := st]> (states hass)
    ∧ session entry_id hass' = session entry_id hass
    ∧ catalog_cache hass' = catalog_cache hass
    ∧ journal hass' = journal hass ++ [StateWritten SENSOR_STATUS st].
Proof.
  intros Hon Hno.
  unfold _service_load_selected_candidate. rewrite gated_on by done.
  destruct (setdefault_session entry_id hass)
    as (hass1 & Hrun & Hst & Hc & Hj & Hs).
  rewrite run_bind, Hrun. unfold load_selected_candidate_enabled.
  rewrite run_bind, get_entry_run, run_bind, states_get_run, Hst.
  assert (∀ reason msg,
    ∃ hass' msg' st,
      (_set_status env "error" reason None None [];;
       raise (HomeAssistantError msg)) hass1
      = (@Raise unit (HomeAssistantError msg'), hass')
      ∧ st_state st = "error"
      ∧ states hass' = <[SENSOR_STATUS := st]> (states hass)
      ∧ session entry_id hass' = session entry_id hass
      ∧ catalog_cache hass' = catalog_cache hass
      ∧ journal hass' = journal hass ++ [StateWritten SENSOR_STATUS st])
    as Hplain.
  { intros reason msg. rewrite run_bind, set_status_plain_written, raise_run.
    eexists _, _, _. split; [reflexivity|].
    cbn [states journal catalog_cache written]. rewrite Hst, Hc, Hj.
    repeat split; try done. }
  destruct (states hass !! SENSOR_DETAILS) as [ds|] eqn:Hds; [|apply Hplain].
  destruct (String.eqb_spec (st_state ds) "none") as [|Hnone];
    [apply Hplain|].
  destruct (String.eqb_spec (st_state ds) "disabled") as [|Hdis];
    [apply Hplain|].
  cbn [orb].
  destruct (st_attributes ds) as [|a attrs] eqn:Ea; [apply Hplain|].
  destruct (absent (d_tmdb_sensor call)) eqn:Ht;
    [|destruct (absent (d_year_sensor call)) eqn:Hy;
      [|destruct (absent (d_codec_sensor call)) eqn:Hco]].
  4: { destruct Hno. exists ds. rewrite Ea. repeat split; done. }
  all: rewrite !filter_cons, filter_nil; cbn [snd]; rewrite ?Ht, ?Hy, ?Hco;
    match goal with
    | |- context [decide (?b = true)] => destruct (decide (b = true))
    end;
    repeat match goal with
    | |- context [decide (?b = true)] => destruct (decide (b = true))
    end; try done;
    cbn [fmap list_fmap fst];
    match goal with
    | |- context [(_set_status ?e "error" ?reason None (Some ?sel) [];; _) ?h] =>
        destruct (set_status_written e "error" reason None (Some sel) [] h)
          as (st & Hstage & Hw)
    end;
    rewrite run_bind, Hw, raise_run;
    eexists _, _, st; (split; [reflexivity|]);
    cbn [states journal catalog_cache written]; rewrite Hst, Hc, Hj;
    repeat split; done.
Qed.

End Load.

Section LoadRuns.
Context `{Consts}.

Lemma states_written_lookup k st hass k' :
  states (written k st hass) !! k'
  = if decide (k = k') then Some st else states hass !! k'.
Proof.
  unfold written. cbn [states]. destruct (decide (k = k')) as [->|].
  - by rewrite lookup_insert_eq.
  - by rewrite lookup_insert_ne.
Qed.

Lemma requests_written evs k st :
  requests (evs ++ [StateWritten k st]) = requests evs.
Proof. unfold requests. rewrite omap_app. cbn. by rewrite app_nil_r. Qed.

Lemma destinations_written_frame attrs call hass hass1 :
  states hass1 = states hass → journal hass1 = journal hass →
  states (destinations_written attrs call hass1)
  = states (destinations_written attrs call hass)
  ∧ journal (destinations_written attrs call hass1)
    = journal (destinations_written attrs call hass)
  ∧ data (destinations_written attrs call hass1) = data hass1
  ∧ catalog_cache (destinations_written attrs call hass1)
    = catalog_cache hass1
  ∧ requests (journal (destinations_written attrs call hass1))
    = requests (journal hass1).
Proof.
  intros Hst Hj. unfold destinations_written.
  destruct (absent (d_edition_sensor call)), (absent (d_title_sensor call));
    cbn [states journal data catalog_cache written]; rewrite Hst, Hj;
    rewrite <- ?Hj, ?requests_written; done.
Qed.

(** the five destinations, all given and pairwise distinct *)
Lemma destinations_all attrs call hass t y c e ti :
  d_tmdb_sensor call = Some t → d_year_sensor call = Some y →
  d_codec_sensor call = Some c → d_edition_sensor call = Some e →
  d_title_sensor call = Some ti →
  Forall (λ k, k ≠ EmptyString) [t; y; c; e; ti] →
  destinations_written attrs call hass
  = written ti (attr_state attrs "title" (VStr EmptyString))
      (written e (attr_state attrs "edition" (VStr EmptyString))
         (written c (attr_state attrs "audio_type" (VStr EmptyString))
            (written y (attr_state attrs "year" (VInt 0))
               (written t (attr_state attrs "tmdb_id" (VStr EmptyString))
                  hass)))).
Proof.
  intros Ht Hy Hc He Hti Hne. unfold destinations_written.
  rewrite Ht, Hy, Hc, He, Hti.
  apply Forall_cons in Hne as [_ Hne]. apply Forall_cons in Hne as [_ Hne].
  apply Forall_cons in Hne as [_ Hne]. apply Forall_cons in Hne as [He' Hne].
  apply Forall_cons in Hne as [Hti' _].
  destruct e; [done|]. destruct ti; [done|]. reflexivity.
Qed.

Lemma destinations_read attrs hass t y c e ti :
  NoDup [t; y; c; e; ti] →
  let hass5 :=
    written ti (attr_state attrs "title" (VStr EmptyString))
      (written e (attr_state attrs "edition" (VStr EmptyString))
         (written c (attr_state attrs "audio_type" (VStr EmptyString))
            (written y (attr_state attrs "year" (VInt 0))
               (written t (attr_state attrs "tmdb_id" (VStr EmptyString))
                  hass)))) in
  sensor_state hass5 (Some t)
  = Some (Repr.str (default (VStr EmptyString) (dict_get attrs "tmdb_id")))
  ∧ sensor_state hass5 (Some y)
    = Some (Repr.str (default (VInt 0) (dict_get attrs "year")))
  ∧ sensor_state hass5 (Some c)
    = Some (Repr.str (default (VStr EmptyString) (dict_get attrs "audio_type")))
  ∧ sensor_state hass5 (Some e)
    = Some (Repr.str (default (VStr EmptyString) (dict_get attrs "edition")))
  ∧ sensor_state hass5 (Some ti)
    = Some (Repr.str (default (VStr EmptyString) (dict_get attrs "title"))).
Proof.
  intros Hnd hass5.
  apply NoDup_cons in Hnd as [Ht Hnd]. apply NoDup_cons in Hnd as [Hy Hnd].
  apply NoDup_cons in Hnd as [Hc Hnd]. apply NoDup_cons in Hnd as [He _].
  assert (t ≠ y ∧ t ≠ c ∧ t ≠ e ∧ t ≠ ti ∧ y ≠ c ∧ y ≠ e ∧ y ≠ ti
          ∧ c ≠ e ∧ c ≠ ti ∧ e ≠ ti)
    as (? & ? & ? & ? & ? & ? & ? & ? & ? & ?) by set_solver.
  unfold sensor_state, hass5. cbn [mbind option_bind].
  rewrite !states_written_lookup.
  repeat split;
    repeat match goal with
    | |- context [decide (?a = ?b)] =>
        destruct (decide (a = b)); try congruence
    end; reflexivity.
Qed.

End LoadRuns.

Section LoadOutcomes.
Context `{Consts}.

Lemma details_of_attr env c :
  let attrs := st_attributes (details_of env c) in
  Repr.str (default (VStr EmptyString) (dict_get attrs "tmdb_id")) = c_tmdb_id c
  ∧ default (VInt 0) (dict_get attrs "year") = opt_val (c_year c)
  ∧ Repr.str (default (VStr EmptyString) (dict_get attrs "audio_type"))
    = c_audio_type c
  ∧ Repr.str (default (VStr EmptyString) (dict_get attrs "edition"))
    = c_edition c
  ∧ Repr.str (default (VStr EmptyString) (dict_get attrs "title")) = c_title c
  ∧ default (VStr EmptyString) (dict_get attrs "author") = VStr (c_author c)
  ∧ attrs ≠ [].
Proof. repeat split. done. Qed.

(** the load workflow up to the call of [load_beq_profile], when the five
    destinations are given and distinct and the detail record is that of
    the candidate [cand] *)
Lemma valid_ids_nonempty (l : list string) :
  Forall (λ k, Host.valid_entity_id k = true) l →
  Forall (λ k, k ≠ EmptyString) l.
Proof.
  intros Hl. eapply Forall_impl; [exact Hl|]. intros k Hk ->. discriminate.
Qed.

Lemma load_candidate_run env env0 call entry_id hass cand t y c e ti :
  _is_search_enabled hass = true →
  states hass !! SENSOR_DETAILS = Some (details_of env0 cand) →
  c_label cand ≠ "none" → c_label cand ≠ "disabled" →
  d_tmdb_sensor call = Some t → d_year_sensor call = Some y →
  d_codec_sensor call = Some c → d_edition_sensor call = Some e →
  d_title_sensor call = Some ti →
  Forall (λ k, k ≠ EmptyString) [t; y; c; e; ti] →
  NoDup [t; y; c; e; ti] →
  ∃ hass1 hass5,
    states hass1 = states hass ∧ journal hass1 = journal hass
    ∧ catalog_cache hass1 = catalog_cache hass
    ∧ session entry_id hass1 = session entry_id hass
    ∧ hass5
      = written ti {| st_state := c_title cand; st_attributes := [] |}
          (written e {| st_state := c_edition cand; st_attributes := [] |}
             (written c {| st_state := c_audio_type cand; st_attributes := [] |}
                (written y {| st_state := Repr.str (opt_val (c_year cand));
                              st_attributes := [] |}
                   (written t {| st_state := c_tmdb_id cand;
                                 st_attributes := [] |} hass1))))
    ∧ sensor_state hass5 (Some t) = Some (c_tmdb_id cand)
    ∧ sensor_state hass5 (Some y) = Some (Repr.str (opt_val (c_year cand)))
    ∧ sensor_state hass5 (Some c) = Some (c_audio_type cand)
    ∧ sensor_state hass5 (Some e) = Some (c_edition cand)
    ∧ sensor_state hass5 (Some ti) = Some (c_title cand)
    ∧ _service_load_selected_candidate env call entry_id hass
      = (load_beq_profile env
           (load_payload (st_attributes (details_of env0 cand)) call);;
         _set_status env "loaded"
           ("Candidate '" +:+ selected_label (session entry_id hass)
            +:+ "' loaded into BEQ profile")
           None (Some (selected_label (session entry_id hass))) []) hass5.
Proof.
  intros Hon Hds Hnone Hdis Ht Hy Hc He Hti Hne Hnd.
  destruct (setdefault_session entry_id hass)
    as (hass1 & Hrun & Hst & Hcache & Hj & Hs).
  destruct (details_of_attr env0 cand)
    as (Atmdb & Ayear & Aaudio & Aedition & Atitle & _ & Aattrs).
  destruct (destinations_read (st_attributes (details_of env0 cand)) hass1
              t y c e ti Hnd) as (Rt & Ry & Rc & Re & Rti).
  rewrite Atmdb in Rt. rewrite Ayear in Ry. rewrite Aaudio in Rc.
  rewrite Aedition in Re. rewrite Atitle in Rti.
  eexists hass1, _. split; [done|]. split; [done|]. split; [done|].
  split; [done|]. split; [reflexivity|].
  split; [exact Rt|]. split; [exact Ry|]. split; [exact Rc|].
  split; [exact Re|]. split; [exact Rti|].
  unfold _service_load_selected_candidate. rewrite gated_on by done.
  rewrite run_bind, Hrun.
  assert (Forall (λ k, k ≠ EmptyString) [t; y; c]) as Hreq.
  { apply Forall_cons in Hne as [? Hne]. apply Forall_cons in Hne as [? Hne].
    apply Forall_cons in Hne as [? _]. by repeat constructor. }
  apply Forall_cons in Hreq as [Ht' Hreq].
  apply Forall_cons in Hreq as [Hy' Hreq]. apply Forall_cons in Hreq as [Hc' _].
  rewrite (load_accepted_run env call entry_id hass1 (details_of env0 cand));
    try done.
  - rewrite Hs, (destinations_all _ call hass1 t y c e ti) by done.
    reflexivity.
  - by rewrite Hst.
  - rewrite Ht. by destruct t.
  - rewrite Hy. by destruct y.
  - rewrite Hc. by destruct c.
Qed.

(** The load hands the selected candidate to the profile loader.  With the
    gate on, the detail record of a candidate in place, the five
    destination entities given, well-formed and pairwise distinct, the
    five values short enough for a state, and the candidate's year
    reading as an integer, the workflow writes the
    candidate's catalogue ID, year, audio type, edition and title to the
    destinations, requests the load of exactly these values together with
    the candidate's author and the slots of the call ([1] when none are
    given), and, the loader having returned, writes the status loaded. *)
Theorem load_selected_candidate_request env env0 call entry_id hass cand
    t y c e ti ys year :
  _is_search_enabled hass = true →
  states hass !! SENSOR_DETAILS = Some (details_of env0 cand) →
  c_label cand ≠ "none" → c_label cand ≠ "disabled" →
  d_tmdb_sensor call = Some t → d_year_sensor call = Some y →
  d_codec_sensor call = Some c → d_edition_sensor call = Some e →
  d_title_sensor call = Some ti →
  Forall (λ k, Host.valid_entity_id k = true) [t; y; c; e; ti] →
  NoDup [t; y; c; e; ti] →
  c_year cand = Some ys → Repr.int ys = Some year →
  Forall (λ v, Host.valid_state v = true)
    [c_tmdb_id cand; ys; c_audio_type cand; c_edition cand; c_title cand] →
  let search_request :=
    {| r_tmdb := c_tmdb_id cand; r_year := year;
       r_codec := c_audio_type cand;
       r_preferred_author := VStr (c_author cand);
       r_edition := c_edition cand;
       r_slots := match d_slots call with
                  | Some (x :: l) => x :: l
                  | _ => [1]
                  end;
       r_title := c_title cand |} in
  client_load_beq_profile env search_request = None →
  ∃ hass' st,
    _service_load_selected_candidate env call entry_id hass = (Ok (), hass')
    ∧ st_state st = "loaded"
    ∧ stage_of hass' = Some "loaded"
    ∧ session entry_id hass' = session entry_id hass
    ∧ journal hass' = journal hass
        ++ [StateWritten t {| st_state := c_tmdb_id cand; st_attributes := [] |};
            StateWritten y {| st_state := ys; st_attributes := [] |};
            StateWritten c {| st_state := c_audio_type cand;
                              st_attributes := [] |};
            StateWritten e {| st_state := c_edition cand; st_attributes := [] |};
            StateWritten ti {| st_state := c_title cand; st_attributes := [] |};
            ProfileLoadRequested search_request;
            StateWritten SENSOR_STATUS st].
Proof.
  intros Hon Hds Hnone Hdis Ht Hy Hc He Hti Hne%valid_ids_nonempty Hnd Hyear
    Hint _ req Hclient.
  destruct (load_candidate_run env env0 call entry_id hass cand t y c e ti)
    as (hass1 & hass5 & Hst & Hj & _ & Hs & Hh5 & Rt & Ry & Rc & Re & Rti & ->);
    try done.
  rewrite Hyear in Ry, Hh5. cbn [opt_val Repr.str] in Ry, Hh5.
  rewrite run_bind.
  rewrite (load_beq_profile_ok_run env _ hass5 (c_tmdb_id cand) ys
             (c_audio_type cand) (c_edition cand) (c_title cand) year);
    cbn [load_payload p_tmdb_sensor p_year_sensor p_codec_sensor
         p_edition_sensor p_title_sensor];
    rewrite ?Ht, ?Hy, ?Hc, ?He, ?Hti; try done.
  cbn [load_payload p_preferred_author p_slots].
  destruct (details_of_attr env0 cand) as (_ & _ & _ & _ & _ & -> & _).
  fold req. rewrite Hclient.
  match goal with
  | |- context [_set_status env "loaded" ?reason None (Some ?sel) [] ?h] =>
      destruct (set_status_written env "loaded" reason None (Some sel) [] h)
        as (st & Hstage & ->)
  end.
  eexists _, st. split; [reflexivity|]. split; [done|].
  split; [by rewrite stage_of_written, Hstage|].
  split.
  - rewrite session_written, session_noted, Hh5, !session_written. done.
  - rewrite Hh5. cbn [journal written noted]. rewrite Hj, <- !app_assoc. done.
Qed.

(** A candidate without a year cannot be loaded: with five well-formed
    destinations and values short enough for a state, the workflow writes
    the five destinations, the year entity receiving the text None, and
    [load_beq_profile] then raises on that text.  The profile loader is
    not called and no status record is written, so the status keeps the
    stage it had. *)
Theorem load_without_year env env0 call entry_id hass cand t y c e ti :
  _is_search_enabled hass = true →
  states hass !! SENSOR_DETAILS = Some (details_of env0 cand) →
  c_label cand ≠ "none" → c_label cand ≠ "disabled" →
  d_tmdb_sensor call = Some t → d_year_sensor call = Some y →
  d_codec_sensor call = Some c → d_edition_sensor call = Some e →
  d_title_sensor call = Some ti →
  Forall (λ k, Host.valid_entity_id k = true) [t; y; c; e; ti] →
  NoDup [t; y; c; e; ti] →
  c_year cand = None →
  Forall (λ v, Host.valid_state v = true)
    [c_tmdb_id cand; c_audio_type cand; c_edition cand; c_title cand] →
  ∃ hass',
    _service_load_selected_candidate env call entry_id hass
    = (Raise (HomeAssistantError
         "Invalid sensor data: invalid literal for int() with base 10: 'None'"),
       hass')
    ∧ session entry_id hass' = session entry_id hass
    ∧ journal hass' = journal hass
        ++ [StateWritten t {| st_state := c_tmdb_id cand; st_attributes := [] |};
            StateWritten y {| st_state := "None"; st_attributes := [] |};
            StateWritten c {| st_state := c_audio_type cand;
                              st_attributes := [] |};
            StateWritten e {| st_state := c_edition cand; st_attributes := [] |};
            StateWritten ti {| st_state := c_title cand; st_attributes := [] |}].
Proof.
  intros Hon Hds Hnone Hdis Ht Hy Hc He Hti Hne%valid_ids_nonempty Hnd Hyear _.
  destruct (load_candidate_run env env0 call entry_id hass cand t y c e ti)
    as (hass1 & hass5 & Hst & Hj & _ & Hs & Hh5 & Rt & Ry & Rc & Re & Rti & ->);
    try done.
  rewrite Hyear in Ry, Hh5. cbn [opt_val Repr.str] in Ry, Hh5.
  rewrite run_bind. unfold load_beq_profile.
  cbn [load_payload p_tmdb_sensor p_year_sensor p_codec_sensor
       p_edition_sensor p_title_sensor].
  rewrite Ht, Hy.
  rewrite run_bind, (get_sensor_state_Some _ _ _ Rt).
  rewrite run_bind, (get_sensor_state_Some _ _ _ Ry).
  change (Repr.int "None") with (@None Z). cbv beta iota. unfold raise.
  eexists. split; [reflexivity|]. split.
  - rewrite Hh5, !session_written. done.
  - rewrite Hh5. cbn [journal written]. rewrite Hj, <- !app_assoc. done.
Qed.

Lemma load_without_optional_run env call entry_id hass ds :
  _is_search_enabled hass = true →
  states hass !! SENSOR_DETAILS = Some ds →
  st_state ds ≠ "none" → st_state ds ≠ "disabled" → st_attributes ds ≠ [] →
  absent (d_tmdb_sensor call) = false → absent (d_year_sensor call) = false →
  absent (d_codec_sensor call) = false →
  d_edition_sensor call = None ∨ d_title_sensor call = None →
  ∃ e hass',
    _service_load_selected_candidate env call entry_id hass = (Raise e, hass')
    ∧ states hass' = states (destinations_written (st_attributes ds) call hass)
    ∧ journal hass'
      = journal (destinations_written (st_attributes ds) call hass)
    ∧ requests (journal hass') = requests (journal hass)
    ∧ session entry_id hass' = session entry_id hass.
Proof.
  intros Hon Hds Hnone Hdis Hattrs Ht Hy Hc Hopt.
  unfold _service_load_selected_candidate. rewrite gated_on by done.
  destruct (setdefault_session entry_id hass)
    as (hass1 & Hrun & Hst & Hcache & Hj & Hs).
  rewrite run_bind, Hrun.
  rewrite (load_accepted_run env call entry_id hass1 ds) by (by rewrite ?Hst).
  destruct (load_beq_profile_raise_run env
              (load_payload (st_attributes ds) call)
              (destinations_written (st_attributes ds) call hass1)) as [e He].
  { cbn [load_payload p_tmdb_sensor p_year_sensor p_codec_sensor
         p_edition_sensor p_title_sensor].
    destruct Hopt as [-> | ->]; auto 10. }
  rewrite run_bind, He. exists e. eexists. split; [reflexivity|].
  destruct (destinations_written_frame (st_attributes ds) call hass hass1 Hst Hj)
    as (Fst & Fj & Fd & _ & Freq).
  split; [done|]. split; [done|]. split; [by rewrite Freq, Hj|].
  unfold session. rewrite Fd. exact Hs.
Qed.

Lemma accepts_present k st :
  Host.accepts (get_str k) st = true → absent k = false.
Proof.
  unfold Host.accepts. intros [Hk _]%andb_true_iff.
  destruct k as [[|a k]|]; [done| |done].
  by unfold absent.
Qed.

(** A load that is called without [edition_sensor] or without
    [title_sensor] never reaches the profile loader: the workflow hands
    [load_beq_profile] the key with the value None, which
    [load_beq_profile] tries to look up.  The required destinations (and
    the optional one that was given), all well-formed and their values
    short enough for a state, have been written by then; the workflow
    raises, and no status record is written. *)
Theorem load_without_optional_sensor env env0 call entry_id hass cand :
  _is_search_enabled hass = true →
  states hass !! SENSOR_DETAILS = Some (details_of env0 cand) →
  c_label cand ≠ "none" → c_label cand ≠ "disabled" →
  let attrs := st_attributes (details_of env0 cand) in
  destinations_accepted attrs call = true →
  d_edition_sensor call = None ∨ d_title_sensor call = None →
  ∃ e hass',
    _service_load_selected_candidate env call entry_id hass = (Raise e, hass')
    ∧ states hass' = states (destinations_written attrs call hass)
    ∧ journal hass' = journal (destinations_written attrs call hass)
    ∧ requests (journal hass') = requests (journal hass)
    ∧ session entry_id hass' = session entry_id hass.
Proof.
  intros Hon Hds Hnone Hdis attrs Hacc Hopt.
  unfold destinations_accepted in Hacc.
  apply andb_true_iff in Hacc as [Hacc _].
  apply andb_true_iff in Hacc as [Hacc _].
  apply andb_true_iff in Hacc as [Hacc Hc%accepts_present].
  apply andb_true_iff in Hacc as [Ht%accepts_present Hy%accepts_present].
  by apply (load_without_optional_run env call entry_id hass
              (details_of env0 cand)).
Qed.

End LoadOutcomes.

(** ** Labels and the sentinels *)

Lemma label_of_paren it audio : Py.contains "(" (label_of it audio) = true.
Proof.
  unfold label_of. rewrite CsvFacts.contains_app.
  change (" (" +:+ ?x) with (String " " (String "(" x)).
  cbn [Py.contains]. rewrite Ascii.eqb_refl. cbn [orb].
  by rewrite !orb_true_r.
Qed.

(** The label of a built candidate is never one of the two sentinels: it
    holds an opening parenthesis, and none and disabled do not.  The load
    workflow, which takes a detail record of state none or disabled for
    the absence of a selection, therefore never mistakes a candidate for
    one. *)
Theorem built_label_not_sentinel items tmdb_ids title_prefixes limit res c :
  _build_candidates items tmdb_ids title_prefixes limit = Ok res →
  c ∈ res →
  c_label c ≠ "none" ∧ c_label c ≠ "disabled"
  ∧ Py.contains "(" (c_label c) = true.
Proof.
  intros Hbuild Hc.
  apply build_NoDup_first in Hbuild as [_ Hfirst].
  specialize (Hfirst c Hc). unfold first_with_key in Hfirst.
  apply List.find_some in Hfirst as [Hin%list_elem_of_In _].
  assert (∃ it, c ∈ expand it) as [it Hit].
  { apply elem_of_app in Hin as [Hin|Hin];
      apply list_elem_of_bind in Hin as (it & ? & _); eauto. }
  apply elem_of_expand in Hit as (al & gl & audio & _ & _ & _ & ->).
  cbn [c_label make_candidate].
  pose proof (label_of_paren it audio) as Hp.
  split; [|split; [|done]]; intros E; by rewrite E in Hp.
Qed.

(** ** The select entity *)

Section SelectEntityFacts.
Context `{Consts}.
Import SelectEntity.

(** Picking an offered option in the select entity keeps entity and
    session in step: when the gate is on and the option is the label of a
    candidate of the lookup, [async_select_option] returns, the entity
    shows the option, the session's selected label is the option, and the
    refresh that the change signal triggers reads back the same option
    together with the session's candidate options. *)
Theorem select_option_in_step env entry_id hass self option c :
  _is_search_enabled hass = true →
  option ≠ EmptyString →
  find_by_label (default [] (last_candidates (session entry_id hass))) option
  = Some c →
  Host.valid_state option = true →
  ∃ hass' self',
    async_select_option env entry_id self option hass = (Ok self', hass')
    ∧ _attr_current_option self' = option
    ∧ session entry_id hass'
      = set_selected_label option (session entry_id hass)
    ∧ _handle_update_signal entry_id self' hass'
      = (Ok {| _attr_options := candidate_options (session entry_id hass);
               _attr_current_option := option |}, hass').
Proof.
  intros Hon Hne Hfind _.
  assert (chosen_label_of (label_data option) (session entry_id hass) = option)
    as Hchosen.
  { unfold chosen_label_of, label_data. cbn [d_label from_option id].
    by destruct option. }
  unfold async_select_option, _service_select_candidate.
  rewrite run_bind, gated_on by done.
  destruct (setdefault_session entry_id hass)
    as (hass1 & Hrun & Hst & Hc & Hj & Hs).
  rewrite run_bind, Hrun.
  assert (find_by_label (default [] (last_candidates (session entry_id hass1)))
            (chosen_label_of (label_data option) (session entry_id hass1))
          = Some c) as Hfind1 by (by rewrite Hs, Hchosen).
  destruct (select_known_run env (label_data option) entry_id hass1 c Hfind1)
    as (st & _ & _ & ->).
  rewrite Hs, Hchosen. rewrite run_bind, update_entry_run, mret_run.
  rewrite session_written, session_noted, session_with_entry.
  eexists _, _. split; [reflexivity|]. split; [done|].
  split; [by rewrite session_with_entry|].
  unfold _handle_update_signal.
  by rewrite run_bind, get_entry_run, session_with_entry, mret_run.
Qed.

End SelectEntityFacts.

(** ** The service registry *)

(** Unloading the services does not undo their set-up: after
    [async_setup_services] and [async_unload_services] the service
    [load_beq_profile] is gone, but [unload_beq_profile] is still
    registered, whatever was registered before. *)
Theorem unload_services_keeps_unload domain services :
  let after := Registry.async_unload_services domain
                 (Registry.async_setup_services domain services) in
  ((domain, "unload_beq_profile") ∈ after)
  ∧ ((domain, "load_beq_profile") ∉ after)
  ∧ ∀ other, other ≠ (domain, "load_beq_profile") →
             other ≠ (domain, "unload_beq_profile") →
             (other ∈ after ↔ other ∈ services).
Proof.
  unfold Registry.async_unload_services, Registry.async_setup_services,
    Registry.async_register, Registry.async_remove.
  cbn zeta. split; [|split].
  - apply elem_of_difference. split; [set_solver|].
    rewrite elem_of_singleton. by intros [= E].
  - set_solver.
  - intros other H1 H2. set_solver.
Qed.

(** ** The further properties on the sample data *)

Module MoreScenarios.
Import Sample MoreSample.
#[local] Existing Instance ezbeq_consts.

Local Ltac by_computation :=
  first [ vm_compute; reflexivity
        | refine (bool_decide_unpack _ _); vm_compute; exact I ].

Lemma prefix_matches_spec_witness :
  prefix_matches (normalize_prefixes ["  THE MAT"; " "]) the_matrix = true.
Proof.
  apply (prefix_matches_spec ["  THE MAT"; " "] the_matrix);
    [by_computation..|].
  exists "  THE MAT". split; [set_solver|]. split; [done|]. by left.
Defined.

Lemma build_without_identifiers_witness :
  _build_candidates catalogue [" "] [EmptyString; "  "] 10 = Ok [].
Proof. apply build_without_identifiers; by repeat constructor. Defined.

Lemma build_nonpositive_limit_witness :
  ∃ res, _build_candidates catalogue ["603"] ["the matrix"] (-1) = Ok res
    ∧ res = take 1 (first_by_key ∅ (id_scan ["603"] catalogue))
    ∧ length res = 1%nat.
Proof.
  destruct (_build_candidates catalogue ["603"] ["the matrix"] (-1))
    as [res|] eqn:E; [|by vm_compute in E].
  destruct (build_nonpositive_limit catalogue ["603"] ["the matrix"] (-1) res)
    as (_ & _ & Hneg); [lia | exact E |].
  exists res. split; [done|]. rewrite Hneg by lia.
  split; vm_compute; reflexivity.
Defined.

Lemma as_list_strict_trimmed_witness :
  _as_list_strict (JString " Atmos , 5.1 ") = Ok ["Atmos"; "5.1"]
  ∧ Forall (λ v, v ≠ EmptyString ∧ Py.strip v = v) ["Atmos"; "5.1"].
Proof.
  split; [vm_compute; reflexivity|].
  apply (as_list_strict_trimmed (JString " Atmos , 5.1 ")).
  vm_compute. reflexivity.
Defined.

Lemma candidate_key_injective_witness :
  _candidate_key the_matrix "Atmos" = _candidate_key the_matrix " Atmos "
  ∧ Py.strip "Atmos" = Py.strip " Atmos ".
Proof.
  split; [vm_compute; reflexivity|].
  destruct (candidate_key_injective the_matrix "Atmos" the_matrix " Atmos ")
    as (_ & _ & _ & Haudio & _); [vm_compute; reflexivity..|].
  exact Haudio.
Defined.

Lemma lookup_of_built_witness :
  dict_values (by_key built) = built
  ∧ dict_get (by_key built) (c_key atmos) = Some atmos.
Proof.
  destruct (lookup_of_built catalogue ["603"] ["the matrix"] 10 built)
    as [Hvalues Hget]; [vm_compute; reflexivity|].
  split; [exact Hvalues|]. apply Hget.
  refine (bool_decide_unpack _ _). vm_compute. exact I.
Defined.

Lemma built_label_not_sentinel_witness :
  atmos ∈ built ∧ c_label atmos ≠ "none" ∧ c_label atmos ≠ "disabled".
Proof.
  assert (atmos ∈ built) as Hin
    by (refine (bool_decide_unpack _ _); vm_compute; exact I).
  destruct (built_label_not_sentinel catalogue ["603"] ["the matrix"] 10
              built atmos) as (Hnone & Hdis & _);
    [vm_compute; reflexivity | exact Hin |].
  by repeat split.
Defined.

Lemma catalog_fetched_once_witness :
  let env := world (JsonList catalogue) None in
  ∃ hass1,
    _get_catalog_items env (host "603") = (Ok (Some catalogue), hass1)
    ∧ _get_catalog_items an_hour_later hass1 = (Ok (Some catalogue), hass1).
Proof.
  intros env.
  destruct (catalog_fetched_once env an_hour_later (host "603") catalogue)
    as (hass1 & Hfirst & _ & Hsecond).
  - intros ts cached Hcache. vm_compute in Hcache. discriminate.
  - reflexivity.
  - vm_compute. reflexivity.
  - by exists hass1.
Defined.

Lemma find_without_input_witness :
  let env := world (JsonList catalogue) None in
  ∃ hass',
    _service_find_candidates env no_data "e1" (host " ; ") = (Ok (), hass')
    ∧ session "e1" hass' = without_selection (session "e1" (host " ; "))
    ∧ catalog_cache hass' = None.
Proof.
  intros env.
  destruct (find_without_input env no_data "e1" (host " ; "))
    as (hass' & st & Hrun & Hsession & _ & Hcache & _);
    try (vm_compute; reflexivity).
  exists hass'. by repeat split.
Defined.

Lemma find_catalog_unavailable_witness :
  let env := world FetchFailed None in
  ∃ hass',
    _service_find_candidates env no_data "e1" (host "603")
    = (Raise (HomeAssistantError "Catalogue unavailable; cannot search."), hass')
    ∧ session "e1" hass' = session "e1" (host "603")
    ∧ stage_of hass' = Some "catalog_unavailable".
Proof.
  intros env.
  destruct (find_catalog_unavailable env no_data "e1" (host "603") ["603"] []
              None)
    as (hass' & Hrun & Hsession & Hstage & _);
    try (vm_compute; reflexivity); [by left|].
  by exists hass'.
Defined.

Lemma find_ready_outcome_witness :
  let env := world (JsonList catalogue) None in
  ∃ hass',
    _service_find_candidates env no_data "e1" (host "603") = (Ok (), hass')
    ∧ session "e1" hass'
      = {| candidate_options := c_label <$> [atmos; surround];
           selected_label := c_label atmos;
           last_candidates := Some (by_key [atmos; surround]) |}
    ∧ stage_of hass' = Some "ready".
Proof.
  intros env.
  destruct (find_ready_outcome env no_data "e1" (host "603") ["603"] []
              catalogue atmos [surround])
    as (hass' & st & Hrun & Hsession & _ & Hstage & _);
    try (vm_compute; reflexivity).
  by exists hass'.
Defined.

Lemma select_known_label_witness :
  let env := world (JsonList catalogue) None in
  ∃ hass',
    _service_select_candidate env (select_data (c_label surround)) "e1" ready
    = (Ok (), hass')
    ∧ selected_label (session "e1" hass') = c_label surround
    ∧ stage_of hass' = Some "ready".
Proof.
  intros env.
  destruct (select_known_label env (select_data (c_label surround)) "e1" ready
              surround)
    as (hass' & st & Hrun & _ & Hsession & Hstage & _);
    try (vm_compute; reflexivity).
  exists hass'. split; [done|]. split; [|done]. rewrite Hsession.
  vm_compute. reflexivity.
Defined.

Lemma offered_option_selectable_witness :
  let env := world (JsonList catalogue) None in
  c_label surround ∈ candidate_options (session "e1" ready)
  ∧ ∃ hass',
      _service_select_candidate env (select_data (c_label surround)) "e1" ready
      = (Ok (), hass')
      ∧ selected_label (session "e1" hass') = c_label surround.
Proof.
  intros env.
  assert (c_label surround ∈ candidate_options (session "e1" ready)) as Hin
    by (refine (bool_decide_unpack _ _); vm_compute; exact I).
  split; [exact Hin|].
  destruct (offered_option_selectable env (select_data (c_label surround)) "e1"
              ready (c_label surround))
    as (hass' & c & Hrun & _ & _ & Hsession & _);
    try (vm_compute; reflexivity); [done | exact Hin |].
  exists hass'. split; [done|]. by rewrite Hsession.
Defined.

Lemma setup_outcome_witness :
  let env := world (JsonList catalogue) None in
  ∃ hass',
    async_setup_manual_load env "e1" ready = (Ok (), hass')
    ∧ stage_of hass' = Some "waiting_for_input"
    ∧ last_candidates (session "e1" hass')
      = last_candidates (session "e1" ready)
    ∧ async_setup_manual_load env "e1" switched_off
      = (Ok (), (async_setup_manual_load env "e1" switched_off).2)
    ∧ session "e1" (async_setup_manual_load env "e1" switched_off).2 = cleared.
Proof.
  intros env.
  destruct (setup_outcome env "e1" ready)
    as (hass' & Hrun & Hsession & Hstage & _);
    [refine (bool_decide_unpack _ _); vm_compute; exact I
    |refine (bool_decide_unpack _ _); vm_compute; exact I|].
  destruct (setup_outcome env "e1" switched_off)
    as (hass2 & Hrun2 & Hsession2 & _);
    [refine (bool_decide_unpack _ _); vm_compute; exact I
    |refine (bool_decide_unpack _ _); vm_compute; exact I|].
  exists hass'. split; [done|]. split; [exact Hstage|].
  split; [by rewrite Hsession|]. rewrite Hrun2. split; [done|].
  exact Hsession2.
Defined.

Lemma load_beq_profile_request_witness :
  let env := world (JsonList catalogue) None in
  ∃ hass',
    load_beq_profile env (profile_data (Some "sensor.beq_edition")) filled
    = (Ok (), hass')
    ∧ journal hass'
      = [ProfileLoadRequested
           {| r_tmdb := "603"; r_year := 1999; r_codec := "Atmos";
              r_preferred_author := VStr "aron7awol";
              r_edition := EmptyString; r_slots := [1];
              r_title := "The Matrix" |}].
Proof.
  intros env.
  destruct (load_beq_profile_request env (profile_data (Some "sensor.beq_edition"))
              filled "603" "1999" "Atmos" EmptyString "The Matrix" 1999)
    as (hass' & Hrun & _ & _ & Hjournal); try (vm_compute; reflexivity).
  exists hass'. split; [exact Hrun | exact Hjournal].
Defined.

Lemma load_beq_profile_refusal_witness :
  let env := world (JsonList catalogue) None in
  ∃ e, load_beq_profile env (profile_data None) filled = (Raise e, filled).
Proof.
  intros env. apply load_beq_profile_refusal.
  - refine (bool_decide_unpack _ _). vm_compute. exact I.
  - do 4 right. left. reflexivity.
Defined.

Lemma load_refused_witness :
  let env := world (JsonList catalogue) None in
  ∃ hass' msg,
    _service_load_selected_candidate env load_data "e1" (host "603")
    = (Raise (HomeAssistantError msg), hass')
    ∧ stage_of hass' = Some "error"
    ∧ requests (journal hass') = [].
Proof.
  intros env.
  destruct (load_refused env load_data "e1" (host "603"))
    as (hass' & msg & st & Hrun & Hstage & Hstates & _ & _ & Hjournal).
  - vm_compute. reflexivity.
  - intros (ds & Hds & _). vm_compute in Hds. discriminate.
  - exists hass', msg. split; [done|]. split.
    + unfold stage_of. rewrite Hstates, lookup_insert_eq. by rewrite <- Hstage.
    + by rewrite Hjournal.
Defined.

Lemma load_selected_candidate_request_witness :
  let env := world (JsonList catalogue) None in
  ∃ hass',
    _service_load_selected_candidate env load_data "e1" ready = (Ok (), hass')
    ∧ stage_of hass' = Some "loaded"
    ∧ requests (journal hass')
      = [{| r_tmdb := "603"; r_year := 1999; r_codec := "Atmos";
            r_preferred_author := VStr "aron7awol";
            r_edition := EmptyString; r_slots := [1];
            r_title := "The Matrix" |}].
Proof.
  intros env.
  destruct (load_selected_candidate_request env env load_data "e1" ready atmos
              "sensor.beq_tmdb" "sensor.beq_year" "sensor.beq_codec"
              "sensor.beq_edition" "sensor.beq_title" "1999" 1999)
    as (hass' & st & Hrun & _ & Hstage & _ & Hjournal);
    [by_computation..|].
  exists hass'. split; [exact Hrun|]. split; [exact Hstage|].
  rewrite Hjournal. vm_compute. reflexivity.
Defined.

Lemma load_without_year_witness :
  let env := world (JsonList [undated]) None in
  ∃ hass',
    _service_load_selected_candidate env load_data "e1" ready_undated
    = (Raise (HomeAssistantError
         "Invalid sensor data: invalid literal for int() with base 10: 'None'"),
       hass')
    ∧ requests (journal hass') = [].
Proof.
  intros env.
  destruct (load_without_year env env load_data "e1" ready_undated
              undated_candidate
              "sensor.beq_tmdb" "sensor.beq_year" "sensor.beq_codec"
              "sensor.beq_edition" "sensor.beq_title")
    as (hass' & Hrun & _ & Hjournal);
    [by_computation..|].
  exists hass'. split; [exact Hrun|].
  rewrite Hjournal. vm_compute. reflexivity.
Defined.

Lemma load_without_optional_sensor_witness :
  let env := world (JsonList catalogue) None in
  ∃ e hass',
    _service_load_selected_candidate env load_required "e1" ready
    = (Raise e, hass')
    ∧ requests (journal hass') = []
    ∧ stage_of hass' = Some "ready".
Proof.
  intros env.
  destruct (load_without_optional_sensor env env load_required "e1" ready
              atmos)
    as (e & hass' & Hrun & Hstates & _ & Hrequests & _);
    [by_computation..|].
  exists e, hass'. split; [exact Hrun|]. split.
  - rewrite Hrequests. vm_compute. reflexivity.
  - unfold stage_of. rewrite Hstates. vm_compute. reflexivity.
Defined.

Lemma select_option_in_step_witness :
  let env := world (JsonList catalogue) None in
  let self := SelectEntity.from_domain_data (session "e1" ready) in
  ∃ hass' self',
    SelectEntity.async_select_option env "e1" self (c_label surround) ready
    = (Ok self', hass')
    ∧ SelectEntity._attr_current_option self' = c_label surround
    ∧ selected_label (session "e1" hass') = c_label surround.
Proof.
  intros env self.
  destruct (select_option_in_step env "e1" ready self (c_label surround)
              surround)
    as (hass' & self' & Hrun & Hcurrent & Hsession & _);
    [by_computation..|].
  exists hass', self'. split; [exact Hrun|]. split; [exact Hcurrent|].
  by rewrite Hsession.
Defined.

End MoreScenarios.
